(** * act_ws.py: the WebSocket protocol engine of GBFR-ACT

    A shallow embedding of [src/act_ws.py] (classes [WebSocket] and
    [WebSocketServer]) and the properties of its frame codec, close
    handshake, opening handshake and send queue.

    Conventions.
    - A Python [bytes]/[bytearray] is a [list Z] of values in [0, 256).
    - A Python [str] is the [list Z] of its code points.
    - Instance attributes of [WebSocket] are the fields of the record
      [WebSocket.t]; a method is a function from the record to a [result]
      that carries the record as the method left it, also when it raises.
    - Library functions the module calls (struct, codecs, hashlib, base64)
      are embedded from their standards in the first modules of the file. *)

From Stdlib Require Import ZArith List Bool Lia String Ascii.
Import ListNotations.
Open Scope Z_scope.

Set Implicit Arguments.

(** ** Python built-ins on sequences *)

Definition len {A : Type} (l : list A) : Z := Z.of_nat (List.length l).

(** [l[i:]] and [l[:i]] for a non-negative [i]. *)
Definition slice_from {A : Type} (i : Z) (l : list A) : list A := skipn (Z.to_nat i) l.
Definition slice_to {A : Type} (i : Z) (l : list A) : list A := firstn (Z.to_nat i) l.

(** [x in l] on integers. *)
Definition py_in (x : Z) (l : list Z) : bool := existsb (Z.eqb x) l.

(** [needle in haystack] on bytes: substring search. *)
Fixpoint starts_with (needle hay : list Z) : bool :=
  match needle, hay with
  | [], _ => true
  | _ :: _, [] => false
  | a :: n', b :: h' => (a =? b) && starts_with n' h'
  end.

Fixpoint bytes_contains (needle hay : list Z) : bool :=
  starts_with needle hay ||
  match hay with
  | [] => false
  | _ :: h' => bytes_contains needle h'
  end.

Definition is_byte (b : Z) : Prop := 0 <= b < 256.

(** The code points of a literal. *)
Fixpoint str_of (s : string) : list Z :=
  match s with
  | EmptyString => []
  | String c s' => Z.of_N (N_of_ascii c) :: str_of s'
  end.

(** [s.encode('ascii')]: fails on a code point above 127. *)
Definition encode_ascii (s : list Z) : option (list Z) :=
  if forallb (fun c => (0 <=? c) && (c <? 128)) s then Some s else None.

(** [str(e)] for the [UnicodeEncodeError] that [s.encode('ascii')]
    raises: the error covers the first run of code points that are not
    ASCII; one code point is shown escaped, a longer run by its
    positions. *)
Fixpoint decimal_digits (fuel : nat) (n : Z) : string :=
  match fuel with
  | O => EmptyString
  | S fuel' =>
    String.append (if n <? 10 then EmptyString else decimal_digits fuel' (n / 10))
                  (String (ascii_of_N (Z.to_N (48 + n mod 10))) EmptyString)
  end.

Definition decimal (n : Z) : string := decimal_digits (S (Z.to_nat n)) n.

Fixpoint hex (width : nat) (v : Z) : string :=
  match width with
  | O => EmptyString
  | S width' =>
    let d := v mod 16 in
    String.append (hex width' (v / 16))
                  (String (ascii_of_N (Z.to_N (if d <? 10 then 48 + d else 87 + d)))
                          EmptyString)
  end.

Definition is_ascii (c : Z) : bool := (0 <=? c) && (c <? 128).

(** The length of the run of code points that are not ASCII at the
    head of [s]. *)
Fixpoint bad_run (s : list Z) : Z :=
  match s with
  | c :: s' => if is_ascii c then 0 else 1 + bad_run s'
  | [] => 0
  end.

Fixpoint ascii_error_from (start : Z) (s : list Z) : string :=
  match s with
  | [] => EmptyString
  | c :: s' =>
    if is_ascii c then ascii_error_from (start + 1) s'
    else if bad_run s =? 1 then
      String.append "'ascii' codec can't encode character '"
        (String.append
           (if c <=? 0xFF then String.append "\x" (hex 2 c)
            else if c <=? 0xFFFF then String.append "\u" (hex 4 c)
            else String.append "\U" (hex 8 c))
           (String.append "' in position "
              (String.append (decimal start) ": ordinal not in range(128)")))
    else
      String.append "'ascii' codec can't encode characters in position "
        (String.append (decimal start)
           (String.append "-"
              (String.append (decimal (start + bad_run s - 1))
                 ": ordinal not in range(128)")))
  end.

Definition ascii_error_text (s : list Z) : string := ascii_error_from 0 s.

(** ** struct: network byte order integers *)
Module Struct.

(** Big-endian value of a byte string. *)
Definition be_int (bs : list Z) : Z := fold_left (fun acc b => acc * 256 + b) bs 0.

(** Big-endian bytes of [v], [n] of them. *)
Fixpoint be_bytes (n : nat) (v : Z) : list Z :=
  match n with
  | O => []
  | S n' => be_bytes n' (v / 256) ++ [v mod 256]
  end.

(** [struct.pack("!H", v)]; [struct.error] outside 16 bits. *)
Definition pack_H (v : Z) : option (list Z) :=
  if (0 <=? v) && (v <=? 65535) then Some (be_bytes 2 v) else None.

(** [struct.pack("!Q", v)]; [struct.error] outside 64 bits. *)
Definition pack_Q (v : Z) : option (list Z) :=
  if (0 <=? v) && (v <? 2 ^ 64) then Some (be_bytes 8 v) else None.

(** [struct.unpack_from('!H', buf)[0]]: the first two bytes;
    [struct.error] on a shorter buffer. *)
Definition unpack_from_H (buf : list Z) : option Z :=
  if len buf <? 2 then None else Some (be_int (firstn 2 buf)).

Definition unpack_from_Q (buf : list Z) : option Z :=
  if len buf <? 8 then None else Some (be_int (firstn 8 buf)).

End Struct.

(** ** codecs: strict UTF-8 *)
Module Utf8.

Definition is_cont (b : Z) : bool := (0x80 <=? b) && (b <=? 0xBF).
Definition within (lo hi b : Z) : bool := (lo <=? b) && (b <=? hi).

(** For a lead byte: the number of continuation bytes and the range
    allowed for the first of them (Unicode, table 3-7: no overlong
    forms, no surrogates, nothing above U+10FFFF). *)
Definition lead_class (b0 : Z) : option (Z * Z * Z) :=
  if within 0xC2 0xDF b0 then Some (1, 0x80, 0xBF)
  else if b0 =? 0xE0 then Some (2, 0xA0, 0xBF)
  else if within 0xE1 0xEC b0 then Some (2, 0x80, 0xBF)
  else if b0 =? 0xED then Some (2, 0x80, 0x9F)
  else if within 0xEE 0xEF b0 then Some (2, 0x80, 0xBF)
  else if b0 =? 0xF0 then Some (3, 0x90, 0xBF)
  else if within 0xF1 0xF3 b0 then Some (3, 0x80, 0xBF)
  else if b0 =? 0xF4 then Some (3, 0x80, 0x8F)
  else None.

Definition push (c : Z) (r : option (list Z * list Z)) : option (list Z * list Z) :=
  match r with
  | Some (cs, rest) => Some (c :: cs, rest)
  | None => None
  end.

(** A sequence cut short by the end of the input: an error when the
    input is final, otherwise it is left unconsumed. *)
Definition cut_short (final : bool) (bs : list Z) : option (list Z * list Z) :=
  if final then None else Some ([], bs).

(** A second byte outside the range of its lead byte is an error, with
    one exception of CPython's decoder: when the input is not final and
    ends with ED followed by one of A0..BF, the first two bytes of an
    encoded surrogate, the two bytes are left unconsumed like a sequence
    cut short, and the error comes with the next byte or with the final
    call. *)
Definition bad_second (final : bool) (b0 b1 : Z) (r1 bs : list Z)
  : option (list Z * list Z) :=
  if negb final && (b0 =? 0xED) && within 0xA0 0xBF b1
     && match r1 with [] => true | _ :: _ => false end
  then Some ([], bs)
  else None.

(** [codecs.utf_8_decode(bs, 'strict', final)]: the decoded code points
    and the unconsumed tail, or [None] for [UnicodeDecodeError]. *)
Fixpoint decode (final : bool) (bs : list Z) : option (list Z * list Z) :=
  match bs with
  | [] => Some ([], [])
  | b0 :: r0 =>
    if within 0 0x7F b0 then push b0 (decode final r0)
    else
      match lead_class b0 with
      | None => None
      | Some (n, lo, hi) =>
        match r0 with
        | [] => cut_short final bs
        | b1 :: r1 =>
          if negb (within lo hi b1) then bad_second final b0 b1 r1 bs
          else if n =? 1 then
            push ((b0 - 0xC0) * 64 + (b1 - 0x80)) (decode final r1)
          else
            match r1 with
            | [] => cut_short final bs
            | b2 :: r2 =>
              if negb (is_cont b2) then None
              else if n =? 2 then
                push ((b0 - 0xE0) * 4096 + (b1 - 0x80) * 64 + (b2 - 0x80))
                     (decode final r2)
              else
                match r2 with
                | [] => cut_short final bs
                | b3 :: r3 =>
                  if negb (is_cont b3) then None
                  else
                    push ((b0 - 0xF0) * 262144 + (b1 - 0x80) * 4096
                          + (b2 - 0x80) * 64 + (b3 - 0x80))
                         (decode final r3)
                end
            end
        end
      end
  end.

(** [bs.decode('utf8', errors='strict')]. *)
Definition decode_strict (bs : list Z) : option (list Z) :=
  match decode true bs with
  | Some (cs, _) => Some cs
  | None => None
  end.

Definition encode_cp (c : Z) : option (list Z) :=
  if c <? 0 then None
  else if c <? 0x80 then Some [c]
  else if c <? 0x800 then Some [0xC0 + c / 64; 0x80 + c mod 64]
  else if within 0xD800 0xDFFF c then None
  else if c <? 0x10000 then
    Some [0xE0 + c / 4096; 0x80 + (c / 64) mod 64; 0x80 + c mod 64]
  else if c <? 0x110000 then
    Some [0xF0 + c / 262144; 0x80 + (c / 4096) mod 64;
          0x80 + (c / 64) mod 64; 0x80 + c mod 64]
  else None.

(** [s.encode('utf-8')]; [None] for [UnicodeEncodeError] (a lone
    surrogate). *)
Fixpoint encode (s : list Z) : option (list Z) :=
  match s with
  | [] => Some []
  | c :: s' =>
    match encode_cp c, encode s' with
    | Some b, Some bs => Some (b ++ bs)
    | _, _ => None
    end
  end.

End Utf8.

(** ** hashlib.sha1 (FIPS 180-4) *)
Module Sha1.

Definition w32 (x : Z) : Z := x mod 2 ^ 32.
Definition rotl (n x : Z) : Z := w32 (Z.lor (Z.shiftl x n) (Z.shiftr x (32 - n))).
Definition add32 (a b : Z) : Z := w32 (a + b).
Definition not32 (x : Z) : Z := 2 ^ 32 - 1 - x.

(** Padding: 0x80, zeros up to 56 mod 64, then the bit length on 8 bytes. *)
Definition pad (msg : list Z) : list Z :=
  let l := len msg in
  let k := (55 - l) mod 64 in
  msg ++ [0x80] ++ repeat 0 (Z.to_nat k) ++ Struct.be_bytes 8 (8 * l).

Fixpoint words (n : nat) (bs : list Z) : list Z :=
  match n with
  | O => []
  | S n' => Struct.be_int (firstn 4 bs) :: words n' (skipn 4 bs)
  end.

(** The message schedule, newest word first. *)
Fixpoint extend (n : nat) (rev_w : list Z) : list Z :=
  match n with
  | O => rev_w
  | S n' =>
    let x := Z.lxor (Z.lxor (nth 2 rev_w 0) (nth 7 rev_w 0))
                    (Z.lxor (nth 13 rev_w 0) (nth 15 rev_w 0)) in
    extend n' (rotl 1 x :: rev_w)
  end.

Definition schedule (block : list Z) : list Z :=
  rev (extend 64 (rev (words 16 block))).

Definition f (t b c d : Z) : Z :=
  if t <? 20 then Z.lor (Z.land b c) (Z.land (not32 b) d)
  else if t <? 40 then Z.lxor (Z.lxor b c) d
  else if t <? 60 then Z.lor (Z.lor (Z.land b c) (Z.land b d)) (Z.land c d)
  else Z.lxor (Z.lxor b c) d.

Definition K (t : Z) : Z :=
  if t <? 20 then 0x5A827999
  else if t <? 40 then 0x6ED9EBA1
  else if t <? 60 then 0x8F1BBCDC
  else 0xCA62C1D6.

Definition hash_state : Type := (Z * Z * Z * Z * Z)%type.

Fixpoint rounds (ws : list Z) (t : Z) (s : hash_state) : hash_state :=
  match ws with
  | [] => s
  | w :: ws' =>
    let '(a, b, c, d, e) := s in
    let tmp := add32 (add32 (add32 (add32 (rotl 5 a) (f t b c d)) e) (K t)) w in
    rounds ws' (t + 1) (tmp, a, rotl 30 b, c, d)
  end.

Definition compress (h : hash_state) (block : list Z) : hash_state :=
  let '(h0, h1, h2, h3, h4) := h in
  let '(a, b, c, d, e) := rounds (schedule block) 0 h in
  (add32 h0 a, add32 h1 b, add32 h2 c, add32 h3 d, add32 h4 e).

Fixpoint blocks (n : nat) (h : hash_state) (bs : list Z) : hash_state :=
  match n with
  | O => h
  | S n' => blocks n' (compress h (firstn 64 bs)) (skipn 64 bs)
  end.

Definition init : hash_state :=
  (0x67452301, 0xEFCDAB89, 0x98BADCFE, 0x10325476, 0xC3D2E1F0).

(** [hashlib.sha1(msg).digest()]. *)
Definition digest (msg : list Z) : list Z :=
  let p := pad msg in
  let '(a, b, c, d, e) := blocks (List.length p / 64)%nat init p in
  Struct.be_bytes 4 a ++ Struct.be_bytes 4 b ++ Struct.be_bytes 4 c
    ++ Struct.be_bytes 4 d ++ Struct.be_bytes 4 e.

End Sha1.

(** ** base64.b64encode (RFC 4648, standard alphabet) *)
Module Base64.

Definition alphabet : list Z :=
  str_of "ABCDEFGHIJKLMNOPQRSTUVWXYZabcdefghijklmnopqrstuvwxyz0123456789+/".

Definition digit (v : Z) : Z := nth (Z.to_nat v) alphabet 0.

Definition pad_char : Z := 61.

Fixpoint b64encode_fuel (n : nat) (bs : list Z) : list Z :=
  match n with
  | O => []
  | S n' =>
    match bs with
    | [] => []
    | [a] =>
      [digit (a / 4); digit ((a mod 4) * 16); pad_char; pad_char]
    | [a; b] =>
      [digit (a / 4); digit ((a mod 4) * 16 + b / 16);
       digit ((b mod 16) * 4); pad_char]
    | a :: b :: c :: r =>
      digit (a / 4) :: digit ((a mod 4) * 16 + b / 16)
        :: digit ((b mod 16) * 4 + c / 64) :: digit (c mod 64)
        :: b64encode_fuel n' r
    end
  end.

Definition b64encode (bs : list Z) : list Z := b64encode_fuel (S (List.length bs)) bs.

End Base64.

(** ** Exceptions and the transport *)

Inductive exn : Type :=
| Exception (msg : string)
| RuntimeError (msg : string)
| SocketError
| TypeError
| AttributeError
| ValueError
| IndexError
| StructError
| UnicodeError
| Hang.  (* a busy loop that never leaves: [send_all] on a transport that stays blocked *)

(** What one call of [socket.send] meets. [Room n]: the transport takes
    up to [n] bytes, so [send buf] returns [min n (len buf)]. *)
Inductive send_event : Type :=
| Room (n : nat)
| WouldBlock       (* socket.error with errno EAGAIN / EWOULDBLOCK *)
| SSLWant          (* ssl.SSLWantReadError / ssl.SSLWantWriteError *)
| Broken.          (* any other socket.error *)

(** The client socket as the connection sees it: the bytes the peer has
    been sent so far, what the next calls of [send] will meet during the
    current activation (an exhausted list: the transport blocks), and
    whether [close] was called on it. *)
Record socket : Type := Socket {
  wire : list Z;
  script : list send_event;
  sock_closed : bool
}.

(** What one call of [socket.recv] returns. *)
Inductive recv_outcome : Type :=
| Recv (data : list Z)
| RecvWant         (* ssl.SSLWantReadError / ssl.SSLWantWriteError *)
| RecvError.       (* socket.error *)

(** What iterating a Python 3 [bytes] yields ([PyInt]), next to the
    one-character string that [ord] expects. *)
Inductive pyobj : Type :=
| PyInt (n : Z)
| PyChar (c : Z).

Definition iter_bytes (data : list Z) : list pyobj := map PyInt data.

(** [ord(o)]: [TypeError] on an [int]. *)
Definition ord (o : pyobj) : option Z :=
  match o with
  | PyChar c => Some c
  | PyInt _ => None
  end.

(** An object used as the integer operand of [&]: [TypeError] on a [str]. *)
Definition as_int (o : pyobj) : option Z :=
  match o with
  | PyInt n => Some n
  | PyChar _ => None
  end.

(** [self.data] holds a [bytearray] while a frame is read and a [str]
    once a text message is decoded. *)
Inductive pydata : Type :=
| Bytes (b : list Z)
| Str (s : list Z).

Definition data_len (d : pydata) : Z :=
  match d with
  | Bytes b => len b
  | Str s => len s
  end.

(** [self.frag_buffer]: a list of [str] for a text message, a
    [bytearray] otherwise. *)
Inductive fragbuf : Type :=
| FragText (parts : list (list Z))
| FragBytes (b : list Z).

(** The hooks a subclass overrides; the base class leaves them empty.
    Their calls are recorded, with [self.data] at the call of [handle]. *)
Inductive hook_call : Type :=
| Connected
| Handle (d : pydata)
| HandleClose.

(** What [HTTPRequest(headerbuffer)] followed by
    [request.headers['Sec-WebSocket-Key']] gives: [http.server] and the
    header parser are not part of this module. *)
Inductive http_request : Type :=
| BadRequest                          (* the constructor raised *)
| Headers (key : option (list Z)).    (* the header's value, [None] when absent *)

(** ** Module constants *)

Definition _VALID_STATUS_CODES : list Z :=
  [1000; 1001; 1002; 1003; 1007; 1008; 1009; 1010; 1011; 3000; 3999; 4000; 4999].

Definition CR : ascii := "013"%char.
Definition LF : ascii := "010"%char.
Definition CRLF : string := String CR (String LF EmptyString).

(** [HANDSHAKE_STR % {'acceptstr': k_s}]. *)
Definition HANDSHAKE_STR (acceptstr : list Z) : list Z :=
  str_of ("HTTP/1.1 101 Switching Protocols" ++ CRLF
          ++ "Upgrade: WebSocket" ++ CRLF
          ++ "Connection: Upgrade" ++ CRLF
          ++ "Sec-WebSocket-Accept: ")
    ++ acceptstr ++ str_of (CRLF ++ CRLF).

Definition FAILED_HANDSHAKE_STR : list Z :=
  str_of ("HTTP/1.1 426 Upgrade Required" ++ CRLF
          ++ "Upgrade: WebSocket" ++ CRLF
          ++ "Connection: Upgrade" ++ CRLF
          ++ "Sec-WebSocket-Version: 13" ++ CRLF
          ++ "Content-Type: text/plain" ++ CRLF ++ CRLF
          ++ "This service requires use of the WebSocket protocol" ++ CRLF).

Definition GUID_STR : list Z := str_of "258EAFA5-E914-47DA-95CA-C5AB0DC85B11".

Definition STREAM : Z := 0x0.
Definition TEXT : Z := 0x1.
Definition BINARY : Z := 0x2.
Definition CLOSE : Z := 0x8.
Definition PING : Z := 0x9.
Definition PONG : Z := 0xA.

Definition HEADERB1 : Z := 1.
Definition HEADERB2 : Z := 3.
Definition LENGTHSHORT : Z := 4.
Definition LENGTHLONG : Z := 5.
Definition MASK : Z := 6.
Definition PAYLOAD : Z := 7.

Definition MAXHEADER : Z := 65536.
Definition MAXPAYLOAD : Z := 33554432.

(** ** class WebSocket *)
Module WebSocket.

Record t : Type := Build {
  client : socket;
  handshaked : bool;
  headerbuffer : list Z;
  headertoread : Z;
  fin : Z;
  data : pydata;
  opcode : Z;
  hasmask : bool;
  maskarray : option (list Z);
  length : Z;
  lengtharray : option (list Z);
  index : Z;
  frag_start : bool;
  frag_type : Z;
  frag_buffer : option fragbuf;
  frag_decoder : list Z;
  closed : bool;
  sendq : list (Z * list Z);
  state : Z;
  maxheader : Z;
  maxpayload : Z;
  hooks : list hook_call
}.

(** Attribute assignment [self.x = v]. *)
Definition set_client (v : socket) (self : t) : t :=
  Build v (handshaked self) (headerbuffer self) (headertoread self) (fin self)
    (data self) (opcode self) (hasmask self) (maskarray self) (length self)
    (lengtharray self) (index self) (frag_start self) (frag_type self)
    (frag_buffer self) (frag_decoder self) (closed self) (sendq self) (state self)
    (maxheader self) (maxpayload self) (hooks self).
Definition set_handshaked (v : bool) (self : t) : t :=
  Build (client self) v (headerbuffer self) (headertoread self) (fin self) (data self)
    (opcode self) (hasmask self) (maskarray self) (length self) (lengtharray self)
    (index self) (frag_start self) (frag_type self) (frag_buffer self)
    (frag_decoder self) (closed self) (sendq self) (state self) (maxheader self)
    (maxpayload self) (hooks self).
Definition set_headerbuffer (v : list Z) (self : t) : t :=
  Build (client self) (handshaked self) v (headertoread self) (fin self) (data self)
    (opcode self) (hasmask self) (maskarray self) (length self) (lengtharray self)
    (index self) (frag_start self) (frag_type self) (frag_buffer self)
    (frag_decoder self) (closed self) (sendq self) (state self) (maxheader self)
    (maxpayload self) (hooks self).
Definition set_fin (v : Z) (self : t) : t :=
  Build (client self) (handshaked self) (headerbuffer self) (headertoread self) v
    (data self) (opcode self) (hasmask self) (maskarray self) (length self)
    (lengtharray self) (index self) (frag_start self) (frag_type self)
    (frag_buffer self) (frag_decoder self) (closed self) (sendq self) (state self)
    (maxheader self) (maxpayload self) (hooks self).
Definition set_data (v : pydata) (self : t) : t :=
  Build (client self) (handshaked self) (headerbuffer self) (headertoread self)
    (fin self) v (opcode self) (hasmask self) (maskarray self) (length self)
    (lengtharray self) (index self) (frag_start self) (frag_type self)
    (frag_buffer self) (frag_decoder self) (closed self) (sendq self) (state self)
    (maxheader self) (maxpayload self) (hooks self).
Definition set_opcode (v : Z) (self : t) : t :=
  Build (client self) (handshaked self) (headerbuffer self) (headertoread self)
    (fin self) (data self) v (hasmask self) (maskarray self) (length self)
    (lengtharray self) (index self) (frag_start self) (frag_type self)
    (frag_buffer self) (frag_decoder self) (closed self) (sendq self) (state self)
    (maxheader self) (maxpayload self) (hooks self).
Definition set_hasmask (v : bool) (self : t) : t :=
  Build (client self) (handshaked self) (headerbuffer self) (headertoread self)
    (fin self) (data self) (opcode self) v (maskarray self) (length self)
    (lengtharray self) (index self) (frag_start self) (frag_type self)
    (frag_buffer self) (frag_decoder self) (closed self) (sendq self) (state self)
    (maxheader self) (maxpayload self) (hooks self).
Definition set_maskarray (v : option (list Z)) (self : t) : t :=
  Build (client self) (handshaked self) (headerbuffer self) (headertoread self)
    (fin self) (data self) (opcode self) (hasmask self) v (length self)
    (lengtharray self) (index self) (frag_start self) (frag_type self)
    (frag_buffer self) (frag_decoder self) (closed self) (sendq self) (state self)
    (maxheader self) (maxpayload self) (hooks self).
Definition set_length (v : Z) (self : t) : t :=
  Build (client self) (handshaked self) (headerbuffer self) (headertoread self)
    (fin self) (data self) (opcode self) (hasmask self) (maskarray self) v
    (lengtharray self) (index self) (frag_start self) (frag_type self)
    (frag_buffer self) (frag_decoder self) (closed self) (sendq self) (state self)
    (maxheader self) (maxpayload self) (hooks self).
Definition set_lengtharray (v : option (list Z)) (self : t) : t :=
  Build (client self) (handshaked self) (headerbuffer self) (headertoread self)
    (fin self) (data self) (opcode self) (hasmask self) (maskarray self) (length self)
    v (index self) (frag_start self) (frag_type self) (frag_buffer self)
    (frag_decoder self) (closed self) (sendq self) (state self) (maxheader self)
    (maxpayload self) (hooks self).
Definition set_index (v : Z) (self : t) : t :=
  Build (client self) (handshaked self) (headerbuffer self) (headertoread self)
    (fin self) (data self) (opcode self) (hasmask self) (maskarray self) (length self)
    (lengtharray self) v (frag_start self) (frag_type self) (frag_buffer self)
    (frag_decoder self) (closed self) (sendq self) (state self) (maxheader self)
    (maxpayload self) (hooks self).
Definition set_frag_start (v : bool) (self : t) : t :=
  Build (client self) (handshaked self) (headerbuffer self) (headertoread self)
    (fin self) (data self) (opcode self) (hasmask self) (maskarray self) (length self)
    (lengtharray self) (index self) v (frag_type self) (frag_buffer self)
    (frag_decoder self) (closed self) (sendq self) (state self) (maxheader self)
    (maxpayload self) (hooks self).
Definition set_frag_type (v : Z) (self : t) : t :=
  Build (client self) (handshaked self) (headerbuffer self) (headertoread self)
    (fin self) (data self) (opcode self) (hasmask self) (maskarray self) (length self)
    (lengtharray self) (index self) (frag_start self) v (frag_buffer self)
    (frag_decoder self) (closed self) (sendq self) (state self) (maxheader self)
    (maxpayload self) (hooks self).
Definition set_frag_buffer (v : option fragbuf) (self : t) : t :=
  Build (client self) (handshaked self) (headerbuffer self) (headertoread self)
    (fin self) (data self) (opcode self) (hasmask self) (maskarray self) (length self)
    (lengtharray self) (index self) (frag_start self) (frag_type self) v
    (frag_decoder self) (closed self) (sendq self) (state self) (maxheader self)
    (maxpayload self) (hooks self).
Definition set_frag_decoder (v : list Z) (self : t) : t :=
  Build (client self) (handshaked self) (headerbuffer self) (headertoread self)
    (fin self) (data self) (opcode self) (hasmask self) (maskarray self) (length self)
    (lengtharray self) (index self) (frag_start self) (frag_type self)
    (frag_buffer self) v (closed self) (sendq self) (state self) (maxheader self)
    (maxpayload self) (hooks self).
Definition set_closed (v : bool) (self : t) : t :=
  Build (client self) (handshaked self) (headerbuffer self) (headertoread self)
    (fin self) (data self) (opcode self) (hasmask self) (maskarray self) (length self)
    (lengtharray self) (index self) (frag_start self) (frag_type self)
    (frag_buffer self) (frag_decoder self) v (sendq self) (state self)
    (maxheader self) (maxpayload self) (hooks self).
Definition set_sendq (v : list (Z * list Z)) (self : t) : t :=
  Build (client self) (handshaked self) (headerbuffer self) (headertoread self)
    (fin self) (data self) (opcode self) (hasmask self) (maskarray self) (length self)
    (lengtharray self) (index self) (frag_start self) (frag_type self)
    (frag_buffer self) (frag_decoder self) (closed self) v (state self)
    (maxheader self) (maxpayload self) (hooks self).
Definition set_state (v : Z) (self : t) : t :=
  Build (client self) (handshaked self) (headerbuffer self) (headertoread self)
    (fin self) (data self) (opcode self) (hasmask self) (maskarray self) (length self)
    (lengtharray self) (index self) (frag_start self) (frag_type self)
    (frag_buffer self) (frag_decoder self) (closed self) (sendq self) v
    (maxheader self) (maxpayload self) (hooks self).
Definition set_hooks (v : list hook_call) (self : t) : t :=
  Build (client self) (handshaked self) (headerbuffer self) (headertoread self)
    (fin self) (data self) (opcode self) (hasmask self) (maskarray self) (length self)
    (lengtharray self) (index self) (frag_start self) (frag_type self)
    (frag_buffer self) (frag_decoder self) (closed self) (sendq self) (state self)
    (maxheader self) (maxpayload self) v.

(** What a method leaves: its value and the object, or the exception
    it raised and the object as it was at that point. *)
Inductive result (V : Type) : Type :=
| Ok (v : V) (self : t)
| Raise (e : exn) (self : t).
Arguments Raise {V} e self.

Definition bind {V W : Type} (r : result V) (k : V -> t -> result W) : result W :=
  match r with
  | Ok v self => k v self
  | Raise e self => Raise e self
  end.

(** [try: r finally: g]. *)
Definition finally {V : Type} (r : result V) (g : t -> t) : result V :=
  match r with
  | Ok v self => Ok v (g self)
  | Raise e self => Raise e (g self)
  end.

(** [__init__]. *)
Definition init (sock : socket) : t :=
  {| client := sock;
     handshaked := false;
     headerbuffer := [];
     headertoread := 2048;
     fin := 0;
     data := Bytes [];
     opcode := 0;
     hasmask := false;
     maskarray := None;
     length := 0;
     lengtharray := None;
     index := 0;
     frag_start := false;
     frag_type := BINARY;
     frag_buffer := None;
     frag_decoder := [];
     closed := false;
     sendq := [];
     state := HEADERB1;
     maxheader := MAXHEADER;
     maxpayload := MAXPAYLOAD;
     hooks := [] |}.

(** The three hooks. *)
Definition handle (self : t) : t := set_hooks (hooks self ++ [Handle (data self)]) self.
Definition connected (self : t) : t := set_hooks (hooks self ++ [Connected]) self.
Definition handle_close (self : t) : t := set_hooks (hooks self ++ [HandleClose]) self.

(** The length field of a frame header, after the first byte. *)
Definition length_field (length_ : Z) : option (list Z) :=
  if length_ <=? 125 then Some [length_]
  else if (126 <=? length_) && (length_ <=? 65535) then
    option_map (fun p => 126 :: p) (Struct.pack_H length_)
  else
    option_map (fun p => 127 :: p) (Struct.pack_Q length_).

(** The bytes [_send_message] builds: [None] when [bytearray.append]
    or [struct.pack] refuses a value. *)
Definition encode_frame (fin_ : bool) (opcode_ : Z) (body : list Z) : option (list Z) :=
  let b1 := if negb fin_ then 0x80 else 0 in     (* if fin is False: b1 |= 0x80 *)
  let b1 := Z.lor b1 opcode_ in
  let length_ := len body in
  if negb ((0 <=? b1) && (b1 <? 256)) then None
  else
    match length_field length_ with
    | None => None
    | Some lf => Some (b1 :: lf ++ (if length_ >? 0 then body else []))
    end.

Definition _send_message (fin_ : bool) (opcode_ : Z) (data_ : pydata) (self : t)
  : result unit :=
  match (match data_ with
         | Str s => Utf8.encode s            (* data.encode('utf-8') *)
         | Bytes b => Some b
         end) with
  | None => Raise UnicodeError self
  | Some body =>
    match encode_frame fin_ opcode_ body with
    | None =>
      (* bytearray.append(b1) raises ValueError, struct.pack struct.error *)
      let b1 := Z.lor (if negb fin_ then 0x80 else 0) opcode_ in
      Raise (if (0 <=? b1) && (b1 <? 256) then StructError else ValueError) self
    | Some payload => Ok tt (set_sendq (sendq self ++ [(opcode_, payload)]) self)
    end
  end.

Definition send_fragment_start (data_ : pydata) (self : t) : result unit :=
  let opcode_ := match data_ with Str _ => TEXT | Bytes _ => BINARY end in
  _send_message true opcode_ data_ self.

Definition send_fragment (data_ : pydata) (self : t) : result unit :=
  _send_message true STREAM data_ self.

Definition send_fragment_end (data_ : pydata) (self : t) : result unit :=
  _send_message false STREAM data_ self.

Definition send_message (data_ : pydata) (self : t) : result unit :=
  let opcode_ := match data_ with Str _ => TEXT | Bytes _ => BINARY end in
  _send_message false opcode_ data_ self.

(** [close(status, reason)]: the body runs under [try], and [finally]
    sets [closed]. *)
Definition close (status : Z) (reason : pydata) (self : t) : result unit :=
  finally
    (if negb (closed self) then
       match Struct.pack_H status with
       | None => Raise StructError self
       | Some sb =>
         match (match reason with
                | Str s => Utf8.encode s       (* _check_unicode(reason) *)
                | Bytes b => Some b
                end) with
         | None => Raise UnicodeError self
         | Some rb => _send_message false CLOSE (Bytes (sb ++ rb)) self
         end
       end
     else Ok tt self)
    (set_closed true).

(** [self.frag_decoder.decode(input, final)]: the incremental decoder
    keeps the bytes of a sequence cut short by the end of the input. *)
Definition frag_decode (input : list Z) (final : bool) (self : t) : result (list Z) :=
  match Utf8.decode final (frag_decoder self ++ input) with
  | None => Raise UnicodeError self
  | Some (s, rest) => Ok s (set_frag_decoder rest self)
  end.

Definition is_nil {A : Type} (l : list A) : bool :=
  match l with
  | [] => true
  | _ :: _ => false
  end.

(** The status and reason a received Close frame is answered with. *)
Definition close_reply (payload : list Z) : option (Z * pydata) :=
  let status := 1000 in
  let reason := Str [] in
  let length_ := len payload in
  if length_ =? 0 then Some (status, reason)
  else if length_ >=? 2 then
    match Struct.unpack_from_H (slice_to 2 payload) with
    | None => None
    | Some status =>
      let reason := slice_from 2 payload in
      let status := if negb (py_in status _VALID_STATUS_CODES) then 1002 else status in
      if negb (is_nil reason) then
        match Utf8.decode_strict reason with
        | Some s => Some (status, Str s)
        | None => Some (1002, Bytes reason)    (* except: status = 1002 *)
        end
      else Some (status, Bytes reason)
    end
  else Some (1002, reason).

Definition _handle_packet (self : t) : result unit :=
  let op := opcode self in
  let check : option exn :=
    if op =? CLOSE then None
    else if op =? STREAM then None
    else if op =? TEXT then None
    else if op =? BINARY then None
    else if (op =? PONG) || (op =? PING) then
      if data_len (data self) >? 125
      then Some (Exception "control frame length can not be > 125")
      else None
    else Some (Exception "unknown opcode") in
  match check with
  | Some e => Raise e self
  | None =>
    match data self with
    | Str _ => Raise TypeError self     (* the frame paths below work on a bytearray *)
    | Bytes d =>
      if op =? CLOSE then
        match close_reply d with
        | None => Raise StructError self
        | Some (status, reason) => close status reason self
        end
      else if fin self =? 0 then
        if negb (op =? STREAM) then
          if (op =? PING) || (op =? PONG) then
            Raise (Exception "control messages can not be fragmented") self
          else
            let self := set_frag_type op self in
            let self := set_frag_start true self in
            let self := set_frag_decoder [] self in          (* reset() *)
            if frag_type self =? TEXT then
              let self := set_frag_buffer (Some (FragText [])) self in
              bind (frag_decode d false self) (fun utf_str self =>
                if negb (is_nil utf_str)
                then Ok tt (set_frag_buffer (Some (FragText [utf_str])) self)
                else Ok tt self)
            else
              Ok tt (set_frag_buffer (Some (FragBytes ([] ++ d))) self)
        else
          if negb (frag_start self) then
            Raise (Exception "fragmentation protocol error") self
          else if frag_type self =? TEXT then
            bind (frag_decode d false self) (fun utf_str self =>
              if negb (is_nil utf_str) then
                match frag_buffer self with
                | Some (FragText parts) =>
                  Ok tt (set_frag_buffer (Some (FragText (parts ++ [utf_str]))) self)
                | _ => Raise TypeError self
                end
              else Ok tt self)
          else
            match frag_buffer self with
            | Some (FragBytes b) => Ok tt (set_frag_buffer (Some (FragBytes (b ++ d))) self)
            | _ => Raise TypeError self
            end
      else
        if op =? STREAM then
          if negb (frag_start self) then
            Raise (Exception "fragmentation protocol error") self
          else
            let assembled : result unit :=
              if frag_type self =? TEXT then
                bind (frag_decode d true self) (fun utf_str self =>
                  match frag_buffer self with
                  | Some (FragText parts) =>
                    let parts := parts ++ [utf_str] in
                    let self := set_frag_buffer (Some (FragText parts)) self in
                    Ok tt (set_data (Str (List.concat parts)) self)
                  | _ => Raise TypeError self
                  end)
              else
                match frag_buffer self with
                | Some (FragBytes b) =>
                  let self := set_frag_buffer (Some (FragBytes (b ++ d))) self in
                  Ok tt (set_data (Bytes (b ++ d)) self)
                | _ => Raise TypeError self
                end in
            bind assembled (fun _ self =>
              let self := handle self in
              let self := set_frag_decoder [] self in
              let self := set_frag_type BINARY self in
              let self := set_frag_start false self in
              Ok tt (set_frag_buffer None self))
        else if op =? PING then
          _send_message false PONG (Bytes d) self
        else if op =? PONG then
          Ok tt self
        else
          if frag_start self then
            Raise (Exception "fragmentation protocol error") self
          else if op =? TEXT then
            match Utf8.decode_strict d with
            | None => Raise (Exception "invalid utf-8 payload") self
            | Some s => Ok tt (handle (set_data (Str s) self))
            end
          else Ok tt (handle self)
    end
  end.

(** The tail shared by the states that complete the length: go on to
    the mask, dispatch an empty frame, or go on to the payload. *)
Definition dispatch (self : t) : result unit :=
  (* try: self._handle_packet()  finally: state = HEADERB1; data = bytearray() *)
  finally (_handle_packet self) (fun self => set_data (Bytes []) (set_state HEADERB1 self)).

Definition after_length (self : t) : result unit :=
  if hasmask self then
    Ok tt (set_state MASK (set_maskarray (Some []) self))
  else if length self <=? 0 then dispatch self
  else Ok tt (set_state PAYLOAD (set_data (Bytes []) self)).

Definition _parse_message (byte : Z) (self : t) : result unit :=
  if state self =? HEADERB1 then
    let self := set_fin (Z.land byte 0x80) self in
    let self := set_opcode (Z.land byte 0x0F) self in
    let self := set_state HEADERB2 self in
    let self := set_index 0 self in
    let self := set_length 0 self in
    let self := set_lengtharray (Some []) self in
    let self := set_data (Bytes []) self in
    let rsv := Z.land byte 0x70 in
    if negb (rsv =? 0) then Raise (Exception "RSV bit must be 0") self
    else Ok tt self
  else if state self =? HEADERB2 then
    let mask := Z.land byte 0x80 in
    let length_ := Z.land byte 0x7F in
    if (opcode self =? PING) && (length_ >? 125) then
      Raise (Exception "ping packet is too large") self
    else
      let self := set_hasmask (mask =? 128) self in
      if length_ <=? 125 then after_length (set_length length_ self)
      else if length_ =? 126 then
        Ok tt (set_state LENGTHSHORT (set_lengtharray (Some []) self))
      else if length_ =? 127 then
        Ok tt (set_state LENGTHLONG (set_lengtharray (Some []) self))
      else Ok tt self
  else if state self =? LENGTHSHORT then
    match lengtharray self with
    | None => Raise AttributeError self
    | Some la =>
      let la := la ++ [byte] in
      let self := set_lengtharray (Some la) self in
      if len la >? 2 then Raise (Exception "short length exceeded allowable size") self
      else if len la =? 2 then
        match Struct.unpack_from_H la with
        | None => Raise StructError self
        | Some v => after_length (set_length v self)
        end
      else Ok tt self
    end
  else if state self =? LENGTHLONG then
    match lengtharray self with
    | None => Raise AttributeError self
    | Some la =>
      let la := la ++ [byte] in
      let self := set_lengtharray (Some la) self in
      if len la >? 8 then Raise (Exception "long length exceeded allowable size") self
      else if len la =? 8 then
        match Struct.unpack_from_Q la with
        | None => Raise StructError self
        | Some v => after_length (set_length v self)
        end
      else Ok tt self
    end
  else if state self =? MASK then
    match maskarray self with
    | None => Raise AttributeError self
    | Some ma =>
      let ma := ma ++ [byte] in
      let self := set_maskarray (Some ma) self in
      if len ma >? 4 then Raise (Exception "mask exceeded allowable size") self
      else if len ma =? 4 then
        if length self <=? 0 then dispatch self
        else Ok tt (set_state PAYLOAD (set_data (Bytes []) self))
      else Ok tt self
    end
  else if state self =? PAYLOAD then
    match data self with
    | Str _ => Raise AttributeError self
    | Bytes d =>
      let appended : option (list Z) :=
        if hasmask self then
          match maskarray self with
          | None => None
          | Some ma =>
            match nth_error ma (Z.to_nat (index self mod 4)) with
            | None => None
            | Some m => Some (d ++ [Z.lxor byte m])
            end
          end
        else Some (d ++ [byte]) in
      match appended with
      | None => Raise IndexError self
      | Some d =>
        let self := set_data (Bytes d) self in
        if len d >=? maxpayload self then
          Raise (Exception "payload exceeded allowable size") self
        else if index self + 1 =? length self then dispatch self
        else Ok tt (set_index (index self + 1) self)
      end
    end
  else Ok tt self.

(** [for d in items: body(d)], left at the first exception. *)
Fixpoint for_each {A : Type} (body : A -> t -> result unit) (items : list A) (self : t)
  : result unit :=
  match items with
  | [] => Ok tt self
  | d :: items' => bind (body d self) (fun _ self => for_each body items' self)
  end.

(** The loop of [_send_buffer]; each turn makes one call of [send]. *)
Inductive send_status : Type :=
| Returned (remaining : option (list Z))
| Failed (e : exn).

Fixpoint _send_buffer_loop (scr : list send_event) (w buff : list Z) (send_all : bool)
    (already_sent tosend : Z) : send_status * list Z * list send_event :=
  if tosend >? 0 then
    match scr with
    | [] =>
      if send_all then (Failed Hang, w, [])
      else (Returned (Some (slice_from already_sent buff)), w, [])
    | Room n :: scr' =>
      let chunk := slice_from already_sent buff in
      let sent := Z.min (Z.of_nat n) (len chunk) in
      if sent =? 0 then (Failed (RuntimeError "socket connection broken"), w, scr')
      else _send_buffer_loop scr' (w ++ slice_to sent chunk) buff send_all
             (already_sent + sent) (tosend - sent)
    | WouldBlock :: scr' | SSLWant :: scr' =>
      if send_all then _send_buffer_loop scr' w buff send_all already_sent tosend
      else (Returned (Some (slice_from already_sent buff)), w, scr')
    | Broken :: scr' => (Failed SocketError, w, scr')
    end
  else (Returned None, w, scr).

Definition _send_buffer (buff : list Z) (send_all : bool) (self : t)
  : result (option (list Z)) :=
  let sock := client self in
  let '(status, w, scr) :=
    _send_buffer_loop (script sock) (wire sock) buff send_all 0 (len buff) in
  let self := set_client (Socket w scr (sock_closed sock)) self in
  match status with
  | Returned remaining => Ok remaining self
  | Failed e => Raise e self
  end.

Definition CRLFCRLF : list Z := str_of (CRLF ++ CRLF).

(** [self.client.close()]. *)
Definition client_close (self : t) : t :=
  set_client (Socket (wire (client self)) (script (client self)) true) self.

(** The accept token of a key: base64 of the SHA-1 of key and GUID. *)
Definition accept_token (key_ascii : list Z) : list Z :=
  Base64.b64encode (Sha1.digest (key_ascii ++ GUID_STR)).

(** The body of the [try] of the opening handshake. *)
Definition handshake (key : option (list Z)) (self : t) : result unit :=
  match key with
  | None => Raise AttributeError self            (* None.encode *)
  | Some key =>
    match encode_ascii key with
    | None => Raise UnicodeError self
    | Some k0 =>
      let k_s := accept_token k0 in
      let hs := HANDSHAKE_STR k_s in
      let self := set_sendq (sendq self ++ [(BINARY, hs)]) self in
      let self := set_handshaked true self in
      Ok tt (connected self)
    end
  end.

(** [format(e)] for the exception [e] that the [try] of the handshake
    raised: [None.encode], or [key.encode('ascii')]. *)
Definition handshake_error_text (key : option (list Z)) : string :=
  match key with
  | None => "'NoneType' object has no attribute 'encode'"
  | Some key => ascii_error_text key
  end.

(** [_handle_data], given what [recv] returns and the request parser. *)
Definition _handle_data (http : list Z -> http_request) (r : recv_outcome) (self : t)
  : result unit :=
  if negb (handshaked self) then
    match r with
    | RecvWant => Ok tt self
    | RecvError => Raise SocketError self
    | Recv data_ =>
      if is_nil data_ then Raise (Exception "remote socket closed") self
      else
        let self := set_headerbuffer (headerbuffer self ++ data_) self in
        if len (headerbuffer self) >=? maxheader self then
          Raise (Exception "header exceeded allowable size") self
        else if bytes_contains CRLFCRLF (headerbuffer self) then
          match http (headerbuffer self) with
          | BadRequest => Raise AttributeError self
          | Headers key =>
            match handshake key self with
            | Ok v self => Ok v self
            | Raise _ self =>
              match _send_buffer FAILED_HANDSHAKE_STR true self with
              | Raise e self => Raise e self
              | Ok _ self =>
                (* raise Exception('handshake failed: {}'.format(e)) *)
                Raise (Exception (String.append "handshake failed: "
                                    (handshake_error_text key)))
                      (client_close self)
              end
            end
          end
        else Ok tt self
    end
  else
    match r with
    | RecvWant => Ok tt self
    | RecvError => Raise SocketError self
    | Recv data_ =>
      if is_nil data_ then Raise (Exception "remote socket closed") self
      else
        bind
          (for_each (fun d self =>                    (* self._parse_message(d) *)
                       match as_int d with
                       | Some byte => _parse_message byte self
                       | None => Raise TypeError self
                       end)
                    (iter_bytes data_) self)
          (fun _ self =>
             for_each (fun d self =>                  (* self._parse_message(ord(d)) *)
                         match ord d with
                         | Some byte => _parse_message byte self
                         | None => Raise TypeError self
                         end)
                      (iter_bytes data_) self)
    end.

End WebSocket.

(** ** class WebSocketServer, for one of its connections *)
Module WebSocketServer.
Import WebSocket.

(** An entry of [self.connections], or what is left of a client once
    it was deleted from the table: its socket is closed and nothing
    reads or writes it any more. *)
Inductive slot : Type :=
| Live (c : WebSocket.t)
| Evicted (c : WebSocket.t).

Definition _handle_close (c : WebSocket.t) : WebSocket.t :=
  let c := client_close c in
  if handshaked c then handle_close c else c.

(** The [while client.sendq] loop of a writable client. *)
Fixpoint flush_loop (q : list (Z * list Z)) (c : WebSocket.t) : result unit :=
  match q with
  | [] => Ok tt c
  | (opcode_, payload) :: rest =>
    let c := set_sendq rest c in                                   (* popleft *)
    match _send_buffer payload false c with
    | Raise e c => Raise e c
    | Ok (Some remaining) c =>
      Ok tt (set_sendq ((opcode_, remaining) :: sendq c) c)          (* appendleft; break *)
    | Ok None c =>
      if opcode_ =? CLOSE then Raise (Exception "received client close") c
      else flush_loop rest c
    end
  end.

Definition flush (c : WebSocket.t) : result unit := flush_loop (sendq c) c.

(** One turn of [handle_request] for a client in [w_list]; [scr] is
    what its transport does during this turn. *)
Definition writable (scr : list send_event) (s : slot) : slot :=
  match s with
  | Evicted c => Evicted c
  | Live c =>
    let sock := client c in
    let c := set_client (Socket (wire sock) scr (sock_closed sock)) c in
    match flush c with
    | Ok _ c => Live c
    | Raise _ c => Evicted (_handle_close c)
    end
  end.

(** One turn of [handle_request] for a client in [r_list]. *)
Definition readable (http : list Z -> http_request) (r : recv_outcome) (s : slot) : slot :=
  match s with
  | Evicted c => Evicted c              (* if ready not in self.connections: continue *)
  | Live c =>
    match _handle_data http r c with
    | Ok _ c => Live c
    | Raise _ c => Evicted (_handle_close c)
    end
  end.

(** Successive turns in which the client is writable. *)
Fixpoint writable_turns (scrs : list (list send_event)) (s : slot) : slot :=
  match scrs with
  | [] => s
  | scr :: scrs' => writable_turns scrs' (writable scr s)
  end.

End WebSocketServer.

(** ** Vocabulary of the properties *)

Import WebSocket.

(** The object a method leaves, whether it returned or raised. *)
Definition state_of {V : Type} (r : result V) : t :=
  match r with
  | Ok _ self => self
  | Raise _ self => self
  end.

(** [for d in bs: self._parse_message(d)]: the decoder fed byte by byte. *)
Definition feed (bs : list Z) (self : t) : result unit := for_each _parse_message bs self.

(** Masking of RFC 6455, section 5.3, from position [i] on. *)
Fixpoint xor_mask (key : list Z) (i : Z) (w : list Z) : list Z :=
  match w with
  | [] => []
  | b :: w' => Z.lxor b (nth (Z.to_nat (i mod 4)) key 0) :: xor_mask key (i + 1) w'
  end.

(** The payload a frame carries once unmasked. *)
Definition unmasked (key : option (list Z)) (w : list Z) : list Z :=
  match key with
  | Some k => xor_mask k 0 w
  | None => w
  end.

(** The bytes of a received frame: first byte, length field with the
    mask bit, mask key when there is one, payload as transmitted. *)
Definition wire_frame (b1 : Z) (key : option (list Z)) (w : list Z) : option (list Z) :=
  match length_field (len w) with
  | Some (l7 :: ext) =>
    match key with
    | Some k => Some (b1 :: (0x80 + l7) :: ext ++ k ++ w)
    | None => Some (b1 :: l7 :: ext ++ w)
    end
  | _ => None
  end.

(** The connection as [_handle_packet] finds it once the decoder has
    read the frame [wire_frame b1 key w]. *)
Definition frame_read (b1 : Z) (key : option (list Z)) (w : list Z) (self : t) : t :=
  {| client := client self;
     handshaked := handshaked self;
     headerbuffer := headerbuffer self;
     headertoread := headertoread self;
     fin := Z.land b1 0x80;
     data := Bytes (unmasked key w);
     opcode := Z.land b1 0x0F;
     hasmask := match key with Some _ => true | None => false end;
     maskarray := match key with Some k => Some k | None => maskarray self end;
     length := len w;
     lengtharray := option_map (@tl Z) (length_field (len w));
     index := Z.max 0 (len w - 1);
     frag_start := frag_start self;
     frag_type := frag_type self;
     frag_buffer := frag_buffer self;
     frag_decoder := frag_decoder self;
     closed := closed self;
     sendq := sendq self;
     state := if len w =? 0
              then match key with Some _ => MASK | None => HEADERB2 end
              else PAYLOAD;
     maxheader := maxheader self;
     maxpayload := maxpayload self;
     hooks := hooks self |}.

(** Everything of the connection apart from the decoder's own registers. *)
Definition same_connection (a b : t) : Prop :=
  client a = client b /\ handshaked a = handshaked b
  /\ headerbuffer a = headerbuffer b
  /\ frag_start a = frag_start b /\ frag_type a = frag_type b
  /\ frag_buffer a = frag_buffer b /\ frag_decoder a = frag_decoder b
  /\ closed a = closed b /\ sendq a = sendq b
  /\ maxheader a = maxheader b /\ maxpayload a = maxpayload b
  /\ hooks a = hooks b.

(** The bytes of a send queue, in queue order. *)
Definition pending (q : list (Z * list Z)) : list Z := List.concat (map snd q).

(** The bytes of the queue up to the end of its first Close frame. *)
Fixpoint until_close (q : list (Z * list Z)) : list Z :=
  match q with
  | [] => []
  | (op, payload) :: rest =>
    if op =? CLOSE then payload else payload ++ until_close rest
  end.

Definition has_close (q : list (Z * list Z)) : bool :=
  existsb (fun f => fst f =? CLOSE) q.

(** Bytes and frames still to leave. *)
Definition backlog (q : list (Z * list Z)) : nat :=
  fold_right (fun f n => (S (List.length (snd f)) + n)%nat) O q.

(** A transport that takes at least one byte in a turn and never fails. *)
Definition sound_event (ev : send_event) : bool :=
  match ev with
  | Room (S _) => true
  | WouldBlock => true
  | SSLWant => true
  | _ => false
  end.

Definition willing (scr : list send_event) : bool :=
  match scr with
  | Room (S _) :: _ => forallb sound_event scr
  | _ => false
  end.

Definition wire_of (s : WebSocketServer.slot) : list Z :=
  match s with
  | WebSocketServer.Live c => wire (client c)
  | WebSocketServer.Evicted c => wire (client c)
  end.

(** The payload bytes as the decoder stores them, from position [i]. *)
Definition stored (key : option (list Z)) (i : Z) (w : list Z) : list Z :=
  match key with
  | Some k => xor_mask k i w
  | None => w
  end.

Definition keyed (key : option (list Z)) (self : t) : Prop :=
  match key with
  | Some k => hasmask self = true /\ maskarray self = Some k /\ List.length k = 4%nat
  | None => hasmask self = false
  end.

(** The bytes [close] appends for a reason given as [str] or as bytes. *)
Definition reason_bytes (reason : pydata) : option (list Z) :=
  match reason with
  | Str s => Utf8.encode s
  | Bytes b => Some b
  end.

(** A connection whose size limits were set to other values than the
    defaults [MAXHEADER] and [MAXPAYLOAD]. *)
Definition with_limits (mh mp : Z) (self : t) : t :=
  Build (client self) (handshaked self) (headerbuffer self) (headertoread self)
    (fin self) (data self) (opcode self) (hasmask self) (maskarray self) (length self)
    (lengtharray self) (index self) (frag_start self) (frag_type self)
    (frag_buffer self) (frag_decoder self) (closed self) (sendq self) (state self)
    mh mp (hooks self).

(** A connection right after the opening handshake, for the examples. *)
Definition conn0 : t := set_handshaked true (init (Socket [] [] false)).

(** ** Further vocabulary *)

(** Decoding goes on from what a first piece left undecoded. *)
Definition resume (final : bool) (y : list Z) (first : option (list Z * list Z))
  : option (list Z * list Z) :=
  match first with
  | None => None
  | Some (s1, r1) =>
    match Utf8.decode final (r1 ++ y) with
    | None => None
    | Some (s2, r) => Some (s1 ++ s2, r)
    end
  end.

(** What the [finally] of a dispatch leaves of the decoder. *)
Definition rearm (s : t) : t := set_data (Bytes []) (set_state HEADERB1 s).

(** The status a Close frame with payload [p] is answered with, as
    [_handle_packet] works it out before it calls [close]. *)
Definition reply_status (p : list Z) : Z :=
  if len p =? 0 then 1000
  else if len p =? 1 then 1002
  else
    let status := Struct.be_int (firstn 2 p) in
    match Utf8.decode_strict (slice_from 2 p) with
    | Some _ => if py_in status _VALID_STATUS_CODES then status else 1002
    | None => 1002
    end.

(** A frame as its sender builds it: the mask key, when there is one,
    and the payload as transmitted. *)
Definition fragment : Type := (option (list Z) * list Z)%type.

(** Its bytes on the wire after the first byte [b1]; a payload of
    2^64 bytes or more has no length field and no frame. *)
Definition frame_bytes (b1 : Z) (f : fragment) : list Z :=
  match wire_frame b1 (fst f) (snd f) with
  | Some bytes => bytes
  | None => []
  end.

(** The payload a fragment carries. *)
Definition carried (f : fragment) : list Z := unmasked (fst f) (snd f).

(** A frame the decoder of [self] reads to its end. *)
Definition readable_by (self : t) (f : fragment) : Prop :=
  (forall k, fst f = Some k -> List.length k = 4%nat)
  /\ len (snd f) < maxpayload self
  /\ len (snd f) < 2 ^ 64.

(** A fragmented message: first frame with the opcode of the message,
    continuation frames, final continuation frame. *)
Definition fragmented (op : Z) (first : fragment) (mids : list fragment) (last : fragment)
  : list Z :=
  frame_bytes op first ++ List.concat (map (frame_bytes 0x00) mids)
    ++ frame_bytes 0x80 last.

(** The payloads of its frames put end to end. *)
Definition message (first : fragment) (mids : list fragment) (last : fragment) : list Z :=
  carried first ++ List.concat (map carried mids) ++ carried last.

(** The connection while a binary message is being put together. *)
Definition gathering (self : t) (acc : list Z) (s : t) : Prop :=
  state s = HEADERB1 /\ frag_start s = true /\ frag_type s = BINARY
  /\ frag_buffer s = Some (FragBytes acc)
  /\ hooks s = hooks self /\ sendq s = sendq self /\ closed s = closed self
  /\ maxpayload s = maxpayload self.

(** The connection while a text message is being put together, [seen]
    being the payload bytes received so far. *)
Definition gathering_text (self : t) (seen : list Z) (s : t) : Prop :=
  state s = HEADERB1 /\ frag_start s = true /\ frag_type s = TEXT
  /\ (exists parts,
        frag_buffer s = Some (FragText parts)
        /\ Utf8.decode false seen = Some (List.concat parts, frag_decoder s))
  /\ hooks s = hooks self /\ sendq s = sendq self /\ closed s = closed self
  /\ maxpayload s = maxpayload self.

(** The bytes [_send_message] puts in a frame for [data]. *)
Definition body_of (data_ : pydata) : option (list Z) :=
  match data_ with
  | Str s => Utf8.encode s
  | Bytes b => Some b
  end.

(** The opcode [send_message] and [send_fragment_start] choose. *)
Definition opcode_of (data_ : pydata) : Z :=
  match data_ with
  | Str _ => TEXT
  | Bytes _ => BINARY
  end.

(** A message sent in pieces: [send_fragment_start], [send_fragment]
    for each piece between, [send_fragment_end]. *)
Definition send_in_fragments (first : pydata) (mids : list pydata) (last : pydata)
  (self : t) : result unit :=
  bind (send_fragment_start first self) (fun _ self =>
  bind (for_each send_fragment mids self) (fun _ self =>
  send_fragment_end last self)).

(** A frame as [_send_message] builds it: no mask. *)
Definition unmasked_fragment (b : list Z) : fragment := (None, b).

(** The Close frames of a queue. *)
Definition closes (q : list (Z * list Z)) : nat :=
  List.length (filter (fun f => fst f =? CLOSE) q).

(** What the frame decoder may do to a connection: [s'] differs from [s]
    in the decoder's registers and the fragment buffer, in calls of
    [handle] added, in pongs and at most one Close frame queued, and in
    [closed], which is set when the Close frame is queued and never
    cleared. *)
Definition decoded (s s' : t) : Prop :=
  client s' = client s /\ handshaked s' = handshaked s
  /\ headerbuffer s' = headerbuffer s /\ headertoread s' = headertoread s
  /\ maxheader s' = maxheader s /\ maxpayload s' = maxpayload s
  /\ (exists hs, hooks s' = hooks s ++ hs /\ Forall (fun h => exists d, h = Handle d) hs)
  /\ (exists q,
        sendq s' = sendq s ++ q
        /\ Forall (fun f => fst f = PONG \/ fst f = CLOSE) q
        /\ (closes q <= 1)%nat
        /\ (closed s = true -> closes q = 0%nat)
        /\ (closes q = 1%nat -> closed s' = true))
  /\ (closed s = true -> closed s' = true).

(** The bytes a transport takes over the turns of a script. *)
Definition room (scr : list send_event) : Z :=
  fold_right (fun ev n => match ev with Room k => Z.of_nat k + n | _ => n end) 0 scr.

(** The payload buffer of a result stays within the limit: below it when
    the call returned, at most at it when it raised. *)
Definition bounded (limit : Z) (r : result unit) : Prop :=
  match r with
  | Ok _ s => data_len (data s) < limit /\ maxpayload s = limit
  | Raise _ s => data_len (data s) <= limit /\ maxpayload s = limit
  end.

(** [WebSocketServer.close], for one of the connections of its loop:
    [conn.close()], then [self._handle_close(conn)]. *)
Definition server_close (c : t) : result unit :=
  bind (close 1000 (Str []) c) (fun _ c => Ok tt (WebSocketServer._handle_close c)).

(** The connection once the header of a frame with a payload of [n]
    bytes has been read. *)
Definition awaiting_payload (self : t) (key : option (list Z)) (n : Z) (s : t) : Prop :=
  state s = PAYLOAD /\ data s = Bytes [] /\ keyed key s /\ index s = 0 /\ length s = n
  /\ maxpayload s = maxpayload self /\ hooks s = hooks self /\ sendq s = sendq self.

(** The bytes of a frame before its payload. *)
Definition header_bytes (b1 : Z) (key : option (list Z)) (n : Z) : option (list Z) :=
  match length_field n with
  | Some (l7 :: ext) =>
    match key with
    | Some k => Some (b1 :: (0x80 + l7) :: ext ++ k)
    | None => Some (b1 :: l7 :: ext)
    end
  | _ => None
  end.

(** * Properties *)

(** ** Tactics for the record of attributes *)

Ltac setters :=
  cbv [set_client set_handshaked set_headerbuffer set_fin set_data set_opcode
       set_hasmask set_maskarray set_length set_lengtharray set_index set_frag_start
       set_frag_type set_frag_buffer set_frag_decoder set_closed set_sendq set_state
       set_hooks
       client handshaked headerbuffer headertoread fin data opcode hasmask maskarray
       length lengtharray index frag_start frag_type frag_buffer frag_decoder closed
       sendq state maxheader maxpayload hooks].

Ltac fields :=
  cbn [set_client set_handshaked set_headerbuffer set_fin set_data set_opcode
       set_hasmask set_maskarray set_length set_lengtharray set_index set_frag_start
       set_frag_type set_frag_buffer set_frag_decoder set_closed set_sendq set_state
       set_hooks
       client handshaked headerbuffer headertoread fin data opcode hasmask maskarray
       length lengtharray index frag_start frag_type frag_buffer frag_decoder closed
       sendq state maxheader maxpayload hooks] in *.

Ltac open_record s := destruct s; fields; subst; setters.

Ltac state_is S :=
  match goal with
  | H : state ?s = S |- _ =>
    unfold _parse_message; rewrite H;
    repeat match goal with
           | |- context [S =? ?c] =>
             let b := eval vm_compute in (S =? c) in change (S =? c) with b; cbv iota
           end
  end.

(** ** Arithmetic of bytes *)

Lemma len_app : forall (A : Type) (a b : list A), len (a ++ b) = len a + len b.
Proof.
  intros. unfold len. rewrite length_app. lia.
Qed.

Lemma len_nonneg : forall (A : Type) (a : list A), 0 <= len a.
Proof.
  intros. unfold len. lia.
Qed.

Lemma len_cons : forall (A : Type) (x : A) (a : list A), len (x :: a) = 1 + len a.
Proof.
  intros. unfold len. simpl List.length. lia.
Qed.

(** A property of small numbers checked on each of them. *)
Lemma below_cases : forall (P : Z -> bool) (n : nat),
  forallb P (map Z.of_nat (seq 0 n)) = true ->
  forall x, 0 <= x < Z.of_nat n -> P x = true.
Proof.
  intros P n H x Hx.
  rewrite forallb_forall in H. apply H.
  apply in_map_iff. exists (Z.to_nat x). split.
  - lia.
  - apply in_seq. lia.
Qed.

Lemma be_int_snoc : forall bs b, Struct.be_int (bs ++ [b]) = Struct.be_int bs * 256 + b.
Proof.
  intros. unfold Struct.be_int. rewrite fold_left_app. reflexivity.
Qed.

Lemma be_int_be_bytes : forall n v, 0 <= v ->
  Struct.be_int (Struct.be_bytes n v) = v mod 256 ^ Z.of_nat n.
Proof.
  induction n as [|n IH]; intros v Hv.
  - simpl. rewrite Z.mod_1_r. reflexivity.
  - cbn [Struct.be_bytes]. rewrite be_int_snoc.
    rewrite IH by (apply Z.div_pos; lia).
    rewrite Nat2Z.inj_succ, Z.pow_succ_r by lia.
    rewrite (Z.rem_mul_r v 256 (256 ^ Z.of_nat n)) by lia.
    lia.
Qed.

Lemma be_bytes_length : forall n v, List.length (Struct.be_bytes n v) = n.
Proof.
  induction n as [|n IH]; intros v.
  - reflexivity.
  - cbn [Struct.be_bytes]. rewrite length_app, IH. simpl. lia.
Qed.

(** ** The decoder, state by state *)

Lemma feed_app : forall a b self,
  feed (a ++ b) self = bind (feed a self) (fun _ s => feed b s).
Proof.
  induction a as [|x a IH]; intros b self.
  - reflexivity.
  - unfold feed in *. cbn [app for_each].
    destruct (_parse_message x self) as [[] s|e s]; cbn [bind].
    + apply IH.
    + reflexivity.
Qed.

Lemma bind_ret : forall (r : result unit), bind r (fun _ s => Ok tt s) = r.
Proof. intros [[] s|e s]; reflexivity. Qed.

Lemma feed_one : forall x self, feed [x] self = _parse_message x self.
Proof. intros. unfold feed. cbn [for_each]. apply bind_ret. Qed.

Lemma feed_cons : forall x bs self,
  feed (x :: bs) self = bind (_parse_message x self) (fun _ s => feed bs s).
Proof. reflexivity. Qed.

Lemma step_header1 : forall b1 self,
  state self = HEADERB1 -> Z.land b1 0x70 = 0 ->
  _parse_message b1 self
  = Ok tt (set_data (Bytes []) (set_lengtharray (Some []) (set_length 0 (set_index 0
      (set_state HEADERB2 (set_opcode (Z.land b1 0x0F) (set_fin (Z.land b1 0x80) self))))))).
Proof.
  intros b1 self Hs Hr. unfold _parse_message. rewrite Hs, Hr. reflexivity.
Qed.

Lemma land_byte2 : forall l7, 0 <= l7 < 128 ->
  Z.land l7 0x80 = 0 /\ Z.land l7 0x7F = l7
  /\ Z.land (0x80 + l7) 0x80 = 128 /\ Z.land (0x80 + l7) 0x7F = l7.
Proof.
  intros l7 H.
  pose proof (@below_cases
    (fun x => (Z.land x 0x80 =? 0) && (Z.land x 0x7F =? x)
              && (Z.land (0x80 + x) 0x80 =? 128) && (Z.land (0x80 + x) 0x7F =? x))
    128 eq_refl l7 H) as E.
  cbv beta in E.
  repeat (apply andb_prop in E; destruct E as [E ?]).
  repeat split; apply Z.eqb_eq; assumption.
Qed.

Lemma step_header2 : forall b2 self,
  state self = HEADERB2 ->
  (opcode self =? PING) && (Z.land b2 0x7F >? 125) = false ->
  _parse_message b2 self
  = let self := set_hasmask (Z.land b2 0x80 =? 128) self in
    let l7 := Z.land b2 0x7F in
    if l7 <=? 125 then after_length (set_length l7 self)
    else if l7 =? 126 then Ok tt (set_state LENGTHSHORT (set_lengtharray (Some []) self))
    else if l7 =? 127 then Ok tt (set_state LENGTHLONG (set_lengtharray (Some []) self))
    else Ok tt self.
Proof.
  intros b2 self Hs Hp. unfold _parse_message. rewrite Hs.
  change (HEADERB2 =? HEADERB1) with false. change (HEADERB2 =? HEADERB2) with true.
  cbv iota. cbv zeta. rewrite Hp. reflexivity.
Qed.


Lemma len_snoc_lt : forall (la : list Z) (b : Z) n, len la + 1 < n ->
  (len (la ++ [b]) >? n) = false /\ (len (la ++ [b]) =? n) = false.
Proof.
  intros. rewrite len_app, len_cons. change (len (@nil Z)) with 0. split; lia.
Qed.

Lemma len_snoc_eq : forall (la : list Z) (b : Z) n, len la + 1 = n ->
  (len (la ++ [b]) >? n) = false /\ (len (la ++ [b]) =? n) = true.
Proof.
  intros. rewrite len_app, len_cons. change (len (@nil Z)) with 0. split; lia.
Qed.

Lemma feed_short_partial : forall bs self la,
  state self = LENGTHSHORT -> lengtharray self = Some la ->
  len la + len bs < 2 ->
  feed bs self = Ok tt (set_lengtharray (Some (la ++ bs)) self).
Proof.
  induction bs as [|b bs IH]; intros self la Hs Hl Hn.
  - destruct self; simpl in *; subst. rewrite app_nil_r. reflexivity.
  - rewrite len_cons in Hn. pose proof (len_nonneg bs).
    rewrite feed_cons. state_is LENGTHSHORT. rewrite Hl. cbv zeta.
    destruct (@len_snoc_lt la b 2 ltac:(lia)) as [E1 E2]. rewrite E1, E2.
    cbn [bind]. rewrite (IH _ (la ++ [b])).
    + rewrite <- app_assoc. reflexivity.
    + exact Hs.
    + reflexivity.
    + rewrite len_app, len_cons. change (len (@nil Z)) with 0. lia.
Qed.

Lemma step_short_last : forall b self la,
  state self = LENGTHSHORT -> lengtharray self = Some la ->
  len la + 1 = 2 ->
  _parse_message b self
  = after_length (set_length (Struct.be_int (la ++ [b]))
                    (set_lengtharray (Some (la ++ [b])) self)).
Proof.
  intros b self la Hs Hl Hn. state_is LENGTHSHORT. rewrite Hl. cbv zeta.
  destruct (@len_snoc_eq la b 2 Hn) as [E1 E2]. rewrite E1, E2.
  unfold Struct.unpack_from_H.
  apply Z.eqb_eq in E2. rewrite E2. change (2 <? 2) with false. cbv iota.
  rewrite firstn_all2; [reflexivity|].
  unfold len in E2. lia.
Qed.

Lemma feed_long_partial : forall bs self la,
  state self = LENGTHLONG -> lengtharray self = Some la ->
  len la + len bs < 8 ->
  feed bs self = Ok tt (set_lengtharray (Some (la ++ bs)) self).
Proof.
  induction bs as [|b bs IH]; intros self la Hs Hl Hn.
  - destruct self; simpl in *; subst. rewrite app_nil_r. reflexivity.
  - rewrite len_cons in Hn. pose proof (len_nonneg bs).
    rewrite feed_cons. state_is LENGTHLONG. rewrite Hl. cbv zeta.
    destruct (@len_snoc_lt la b 8 ltac:(lia)) as [E1 E2]. rewrite E1, E2.
    cbn [bind]. rewrite (IH _ (la ++ [b])).
    + rewrite <- app_assoc. reflexivity.
    + exact Hs.
    + reflexivity.
    + rewrite len_app, len_cons. change (len (@nil Z)) with 0. lia.
Qed.

Lemma step_long_last : forall b self la,
  state self = LENGTHLONG -> lengtharray self = Some la ->
  len la + 1 = 8 ->
  _parse_message b self
  = after_length (set_length (Struct.be_int (la ++ [b]))
                    (set_lengtharray (Some (la ++ [b])) self)).
Proof.
  intros b self la Hs Hl Hn. state_is LENGTHLONG. rewrite Hl. cbv zeta.
  destruct (@len_snoc_eq la b 8 Hn) as [E1 E2]. rewrite E1, E2.
  unfold Struct.unpack_from_Q.
  apply Z.eqb_eq in E2. rewrite E2. change (8 <? 8) with false. cbv iota.
  rewrite firstn_all2; [reflexivity|].
  unfold len in E2. lia.
Qed.

Lemma feed_mask_partial : forall bs self ma,
  state self = MASK -> maskarray self = Some ma ->
  len ma + len bs < 4 ->
  feed bs self = Ok tt (set_maskarray (Some (ma ++ bs)) self).
Proof.
  induction bs as [|b bs IH]; intros self ma Hs Hl Hn.
  - destruct self; simpl in *; subst. rewrite app_nil_r. reflexivity.
  - rewrite len_cons in Hn. pose proof (len_nonneg bs).
    rewrite feed_cons. state_is MASK. rewrite Hl. cbv zeta.
    destruct (@len_snoc_lt ma b 4 ltac:(lia)) as [E1 E2]. rewrite E1, E2.
    cbn [bind]. rewrite (IH _ (ma ++ [b])).
    + rewrite <- app_assoc. reflexivity.
    + exact Hs.
    + reflexivity.
    + rewrite len_app, len_cons. change (len (@nil Z)) with 0. lia.
Qed.

Lemma step_mask_last : forall b self ma,
  state self = MASK -> maskarray self = Some ma ->
  len ma + 1 = 4 ->
  _parse_message b self
  = let self := set_maskarray (Some (ma ++ [b])) self in
    if length self <=? 0 then dispatch self
    else Ok tt (set_state PAYLOAD (set_data (Bytes []) self)).
Proof.
  intros b self ma Hs Hl Hn. state_is MASK. rewrite Hl. cbv zeta.
  destruct (@len_snoc_eq ma b 4 Hn) as [E1 E2]. rewrite E1, E2.
  reflexivity.
Qed.

(** Splitting a list at its last element. *)
Lemma snoc_split : forall (A : Type) (l : list A) n,
  List.length l = S n -> exists l' x, l = l' ++ [x] /\ List.length l' = n.
Proof.
  intros A l n H. destruct (@exists_last _ l) as [l' [x E]].
  - intro E. subst. discriminate.
  - exists l', x. split; [exact E|]. subst. rewrite length_app in H. simpl in H. lia.
Qed.

Lemma feed_long : forall bs self,
  state self = LENGTHLONG -> lengtharray self = Some [] ->
  List.length bs = 8%nat ->
  feed bs self
  = after_length (set_length (Struct.be_int bs) (set_lengtharray (Some bs) self)).
Proof.
  intros bs self Hs Hl Hn.
  destruct (@snoc_split _ bs _ Hn) as [l' [x [E Hl']]]. subst bs.
  rewrite feed_app, (@feed_long_partial l' self []); try assumption.
  - cbn [bind]. rewrite feed_one.
    rewrite (@step_long_last x _ l').
    + reflexivity.
    + exact Hs.
    + reflexivity.
    + unfold len. lia.
  - unfold len. simpl. lia.
Qed.

Lemma feed_short : forall bs self,
  state self = LENGTHSHORT -> lengtharray self = Some [] ->
  List.length bs = 2%nat ->
  feed bs self
  = after_length (set_length (Struct.be_int bs) (set_lengtharray (Some bs) self)).
Proof.
  intros bs self Hs Hl Hn.
  destruct (@snoc_split _ bs _ Hn) as [l' [x [E Hl']]]. subst bs.
  rewrite feed_app, (@feed_short_partial l' self []); try assumption.
  - cbn [bind]. rewrite feed_one.
    rewrite (@step_short_last x _ l').
    + reflexivity.
    + exact Hs.
    + reflexivity.
    + unfold len. lia.
  - unfold len. simpl. lia.
Qed.

Lemma feed_mask : forall k self,
  state self = MASK -> maskarray self = Some [] ->
  List.length k = 4%nat ->
  feed k self
  = let self := set_maskarray (Some k) self in
    if length self <=? 0 then dispatch self
    else Ok tt (set_state PAYLOAD (set_data (Bytes []) self)).
Proof.
  intros bs self Hs Hl Hn.
  destruct (@snoc_split _ bs _ Hn) as [l' [x [E Hl']]]. subst bs.
  rewrite feed_app, (@feed_mask_partial l' self []); try assumption.
  - cbn [bind]. rewrite feed_one.
    rewrite (@step_mask_last x _ l').
    + reflexivity.
    + exact Hs.
    + reflexivity.
    + unfold len. lia.
  - unfold len. simpl. lia.
Qed.

Lemma stored_cons : forall key i b w,
  stored key i (b :: w) = stored key i [b] ++ stored key (i + 1) w.
Proof. intros [k|] i b w; reflexivity. Qed.

Lemma step_payload : forall key b self d,
  state self = PAYLOAD -> data self = Bytes d -> keyed key self ->
  0 <= index self ->
  _parse_message b self
  = let d' := d ++ stored key (index self) [b] in
    let self := set_data (Bytes d') self in
    if len d' >=? maxpayload self then
      Raise (Exception "payload exceeded allowable size") self
    else if index self + 1 =? length self then dispatch self
    else Ok tt (set_index (index self + 1) self).
Proof.
  intros key b self d Hs Hd Hk Hi. state_is PAYLOAD. rewrite Hd.
  destruct key as [k|]; cbn [keyed] in Hk.
  - destruct Hk as [Hm [Ha Hl]]. rewrite Hm, Ha.
    rewrite (@nth_error_nth' _ k (Z.to_nat (index self mod 4)) 0).
    + reflexivity.
    + rewrite Hl. pose proof (Z.mod_pos_bound (index self) 4). lia.
  - rewrite Hk. reflexivity.
Qed.

Lemma feed_payload_partial : forall key w self d,
  state self = PAYLOAD -> data self = Bytes d -> keyed key self ->
  0 <= index self -> index self + len w < length self ->
  len d + len w < maxpayload self ->
  feed w self
  = Ok tt (set_index (index self + len w)
             (set_data (Bytes (d ++ stored key (index self) w)) self)).
Proof.
  intros key w. induction w as [|b w IH]; intros self d Hs Hd Hk Hi Hn Hm.
  - destruct self; simpl in *; subst.
    replace (stored key index0 []) with (@nil Z) by (destruct key; reflexivity).
    rewrite app_nil_r. change (len (@nil Z)) with 0. rewrite Z.add_0_r. reflexivity.
  - rewrite len_cons in Hn, Hm. pose proof (len_nonneg w).
    rewrite feed_cons, (@step_payload key b self d Hs Hd Hk Hi). cbv zeta.
    assert (L1 : len (stored key (index self) [b]) = 1) by (destruct key; reflexivity).
    replace (len (d ++ stored key (index self) [b]) >=? _) with false
      by (rewrite len_app, L1; cbn; symmetry; rewrite Z.geb_leb; apply Z.leb_gt; lia).
    replace (index _ + 1 =? length _) with false by (symmetry; apply Z.eqb_neq; cbn; lia).
    cbn [bind].
    rewrite (IH _ (d ++ stored key (index self) [b])).
    + rewrite (stored_cons key (index self) b w), len_cons, <- app_assoc.
      replace (index self + (1 + len w)) with (index self + 1 + len w) by lia.
      reflexivity.
    + exact Hs.
    + reflexivity.
    + destruct key as [k|]; cbn [keyed] in *; exact Hk.
    + cbn. lia.
    + cbn. lia.
    + rewrite len_app, L1. cbn. lia.
Qed.

Lemma stored_app : forall key a i b,
  stored key i (a ++ b) = stored key i a ++ stored key (i + len a) b.
Proof.
  intros [k|] a; cbn [stored]; [|reflexivity].
  induction a as [|x a IH]; intros i b.
  - cbn [app xor_mask]. change (len (@nil Z)) with 0. rewrite Z.add_0_r. reflexivity.
  - cbn [app xor_mask]. rewrite IH, len_cons.
    replace (i + (1 + len a)) with (i + 1 + len a) by lia. reflexivity.
Qed.

Lemma feed_payload : forall key w self,
  state self = PAYLOAD -> data self = Bytes [] -> keyed key self -> index self = 0 ->
  w <> [] -> len w = length self -> len w < maxpayload self ->
  feed w self
  = dispatch (set_index (len w - 1) (set_data (Bytes (stored key 0 w)) self)).
Proof.
  intros key w self Hs Hd Hk Hi Hw Hl Hm.
  destruct (@exists_last _ w Hw) as [w' [x E]]. subst w.
  rewrite len_app, len_cons in Hl, Hm. change (len (@nil Z)) with 0 in Hl, Hm.
  pose proof (len_nonneg w').
  rewrite feed_app, (@feed_payload_partial key w' self []);
    try assumption; try lia; [|change (len (@nil Z)) with 0; lia].
  cbn [bind]. rewrite feed_one.
  rewrite (@step_payload key x _ (stored key 0 w')).
  - cbv zeta.
    assert (L1 : forall i, len (stored key i [x]) = 1) by (intro; destruct key; reflexivity).
    assert (Lw : len (stored key 0 w') = len w').
    { clear. generalize 0. destruct key as [k|]; cbn [stored]; [|reflexivity].
      induction w' as [|a w' IH]; intro i; [reflexivity|].
      cbn [xor_mask]. rewrite !len_cons, IH. reflexivity. }
    replace (len (stored key 0 w' ++ stored key _ [x]) >=? _) with false
      by (rewrite len_app, L1, Lw; cbn; symmetry; rewrite Z.geb_leb; apply Z.leb_gt; lia).
    replace (index _ + 1 =? length _) with true by (symmetry; apply Z.eqb_eq; cbn; lia).
    f_equal. rewrite stored_app, len_app, len_cons. change (len (@nil Z)) with 0.
    open_record self. f_equal. lia.
  - exact Hs.
  - rewrite Hi. reflexivity.
  - destruct key as [k|]; cbn [keyed] in *; exact Hk.
  - cbn. lia.
Qed.

Lemma length_field_cases : forall n l7 ext,
  0 <= n -> length_field n = Some (l7 :: ext) ->
  (n <= 125 /\ l7 = n /\ ext = [])
  \/ (126 <= n <= 65535 /\ l7 = 126 /\ ext = Struct.be_bytes 2 n)
  \/ (65535 < n < 2 ^ 64 /\ l7 = 127 /\ ext = Struct.be_bytes 8 n).
Proof.
  intros n l7 ext Hn H. unfold length_field, Struct.pack_H, Struct.pack_Q in H.
  destruct (Z.leb_spec n 125).
  - left. inversion H. subst. repeat split; first [lia | reflexivity].
  - destruct (Z.leb_spec 126 n); [|lia].
    destruct (Z.leb_spec n 65535); cbn [andb] in H.
    + right; left. destruct (Z.leb_spec 0 n); [|lia]. cbn in H.
      inversion H. subst. repeat split; first [lia | reflexivity].
    + right; right. destruct (Z.leb_spec 0 n); [|lia].
      destruct (Z.ltb_spec n (2 ^ 64)); cbn [andb option_map] in H; [|discriminate].
      inversion H. subst. repeat split; first [lia | reflexivity].
Qed.

(** From the end of the length field to the dispatch of the frame. *)
Lemma feed_body : forall key w s,
  hasmask s = match key with Some _ => true | None => false end ->
  (forall k, key = Some k -> List.length k = 4%nat) ->
  data s = Bytes [] -> index s = 0 -> length s = len w -> len w < maxpayload s ->
  bind (after_length s)
       (fun _ s' => feed (match key with Some k => k ++ w | None => w end) s')
  = dispatch
      (set_state (if len w =? 0
                  then match key with Some _ => MASK | None => state s end
                  else PAYLOAD)
         (set_index (Z.max 0 (len w - 1))
            (set_data (Bytes (unmasked key w))
               (set_maskarray (match key with Some k => Some k | None => maskarray s end)
                  s)))).
Proof.
  intros key w s Hh Hk Hd Hi Hl Hm. unfold after_length. rewrite Hh.
  pose proof (len_nonneg w) as Hw0.
  destruct key as [k|].
  - specialize (Hk k eq_refl). cbn [bind]. rewrite feed_app, feed_mask.
    + cbv zeta. replace (length _) with (len w) by (symmetry; exact Hl).
      destruct w as [|b w].
      * cbn [bind]. change (len (@nil Z) <=? 0) with true. cbv iota.
        rewrite bind_ret. f_equal.
        open_record s. reflexivity.
      * replace (len (b :: w) <=? 0) with false
          by (symmetry; apply Z.leb_gt; rewrite len_cons; pose proof (len_nonneg w); lia).
        cbn [bind]. rewrite (@feed_payload (Some k)).
        -- f_equal. replace (len (b :: w) =? 0) with false
             by (symmetry; apply Z.eqb_neq; rewrite len_cons; pose proof (len_nonneg w); lia).
           open_record s. f_equal.
           rewrite len_cons. pose proof (len_nonneg w). lia.
        -- reflexivity.
        -- reflexivity.
        -- cbn. auto.
        -- exact Hi.
        -- discriminate.
        -- symmetry. exact Hl.
        -- exact Hm.
    + reflexivity.
    + reflexivity.
    + exact Hk.
  - rewrite Hl. destruct w as [|b w].
    + change (len (@nil Z) <=? 0) with true. cbv iota.
      change (feed []) with (fun s : t => Ok tt s). rewrite bind_ret. f_equal.
      open_record s. reflexivity.
    + replace (len (b :: w) <=? 0) with false
        by (symmetry; apply Z.leb_gt; rewrite len_cons; pose proof (len_nonneg w); lia).
      cbn [bind]. rewrite (@feed_payload None).
      * f_equal. replace (len (b :: w) =? 0) with false
          by (symmetry; apply Z.eqb_neq; rewrite len_cons; pose proof (len_nonneg w); lia).
        open_record s. f_equal.
        rewrite len_cons. pose proof (len_nonneg w). lia.
      * reflexivity.
      * reflexivity.
      * exact Hh.
      * exact Hi.
      * discriminate.
      * symmetry. exact Hl.
      * exact Hm.
Qed.

(** The decoder fed the bytes of a frame, from its first byte on, hands
    the frame to [_handle_packet] and returns to its initial state. *)
Lemma feed_wire_frame : forall self b1 key w bytes,
  state self = HEADERB1 ->
  Z.land b1 0x70 = 0 ->
  (forall k, key = Some k -> List.length k = 4%nat) ->
  wire_frame b1 key w = Some bytes ->
  (Z.land b1 0x0F =? PING) && (len w >? 125) = false ->
  len w < maxpayload self ->
  feed bytes self = dispatch (frame_read b1 key w self).
Proof.
  intros self b1 key w bytes Hs Hr Hk Hw Hp Hm.
  pose proof (len_nonneg w) as Hw0.
  unfold wire_frame in Hw.
  destruct (length_field (len w)) as [[|l7 ext]|] eqn:LF; try discriminate.
  destruct (length_field_cases Hw0 LF) as [[Hn [E1 E2]]|[[Hn [E1 E2]]|[Hn [E1 E2]]]];
    subst l7 ext.
  - (* the length fits the second byte *)
    destruct (@land_byte2 (len w) ltac:(lia)) as [A1 [A2 [A3 A4]]].
    assert (E : bytes = b1 :: (match key with Some _ => 0x80 + len w | None => len w end)
                          :: match key with Some k => k ++ w | None => w end)
      by (destruct key; inversion Hw; reflexivity).
    subst bytes. clear Hw.
    rewrite feed_cons, (@step_header1 b1 self Hs Hr). cbn [bind].
    rewrite feed_cons, step_header2; [|reflexivity|].
    + cbv zeta.
      replace (Z.land _ 0x7F) with (len w) by (destruct key; symmetry; assumption).
      replace (len w <=? 125) with true by (symmetry; apply Z.leb_le; lia).
      rewrite feed_body.
      * f_equal. unfold frame_read. rewrite LF.
        open_record self.
        destruct key; [rewrite A3|rewrite A1]; reflexivity.
      * fields. destruct key; [rewrite A3|rewrite A1]; reflexivity.
      * exact Hk.
      * reflexivity.
      * reflexivity.
      * reflexivity.
      * exact Hm.
    + change (opcode _) with (Z.land b1 0x0F).
      replace (Z.land _ 0x7F) with (len w) by (destruct key; symmetry; assumption).
      exact Hp.
  - (* a 16-bit length follows *)
    destruct (@land_byte2 126 ltac:(lia)) as [A1 [A2 [A3 A4]]].
    assert (E : bytes = b1 :: (match key with Some _ => 0x80 + 126 | None => 126 end)
                          :: Struct.be_bytes 2 (len w)
                             ++ match key with Some k => k ++ w | None => w end)
      by (destruct key; inversion Hw; reflexivity).
    subst bytes. clear Hw.
    assert (Hop : (Z.land b1 0x0F =? PING) = false).
    { apply andb_false_iff in Hp. destruct Hp as [Hp|Hp]; [exact Hp|].
      rewrite Z.gtb_ltb in Hp. apply Z.ltb_ge in Hp. lia. }
    rewrite feed_cons, (@step_header1 b1 self Hs Hr). cbn [bind].
    rewrite feed_cons, step_header2; [|reflexivity|].
    + cbv zeta.
      replace (Z.land _ 0x7F) with 126 by (destruct key; symmetry; assumption).
      change (126 <=? 125) with false. change (126 =? 126) with true. cbv iota.
      cbn [bind]. rewrite feed_app, feed_short; [|reflexivity|reflexivity|apply be_bytes_length].
      rewrite be_int_be_bytes by lia.
      change (256 ^ Z.of_nat 2) with 65536. rewrite Z.mod_small by lia.
      rewrite feed_body.
      * f_equal. unfold frame_read. rewrite LF.
        replace (len w =? 0) with false by (symmetry; apply Z.eqb_neq; lia).
        open_record self.
        destruct key; [rewrite A3|rewrite A1]; reflexivity.
      * fields. destruct key; [rewrite A3|rewrite A1]; reflexivity.
      * exact Hk.
      * reflexivity.
      * reflexivity.
      * reflexivity.
      * exact Hm.
    + change (opcode _) with (Z.land b1 0x0F). rewrite Hop. reflexivity.
  - (* a 64-bit length follows *)
    destruct (@land_byte2 127 ltac:(lia)) as [A1 [A2 [A3 A4]]].
    assert (E : bytes = b1 :: (match key with Some _ => 0x80 + 127 | None => 127 end)
                          :: Struct.be_bytes 8 (len w)
                             ++ match key with Some k => k ++ w | None => w end)
      by (destruct key; inversion Hw; reflexivity).
    subst bytes. clear Hw.
    assert (Hop : (Z.land b1 0x0F =? PING) = false).
    { apply andb_false_iff in Hp. destruct Hp as [Hp|Hp]; [exact Hp|].
      rewrite Z.gtb_ltb in Hp. apply Z.ltb_ge in Hp. lia. }
    rewrite feed_cons, (@step_header1 b1 self Hs Hr). cbn [bind].
    rewrite feed_cons, step_header2; [|reflexivity|].
    + cbv zeta.
      replace (Z.land _ 0x7F) with 127 by (destruct key; symmetry; assumption).
      change (127 <=? 125) with false. change (127 =? 126) with false.
      change (127 =? 127) with true. cbv iota.
      cbn [bind]. rewrite feed_app, feed_long; [|reflexivity|reflexivity|apply be_bytes_length].
      rewrite be_int_be_bytes by lia.
      change (256 ^ Z.of_nat 8) with (2 ^ 64). rewrite Z.mod_small by lia.
      rewrite feed_body.
      * f_equal. unfold frame_read. rewrite LF.
        replace (len w =? 0) with false by (symmetry; apply Z.eqb_neq; lia).
        open_record self.
        destruct key; [rewrite A3|rewrite A1]; reflexivity.
      * fields. destruct key; [rewrite A3|rewrite A1]; reflexivity.
      * exact Hk.
      * reflexivity.
      * reflexivity.
      * reflexivity.
      * exact Hm.
    + change (opcode _) with (Z.land b1 0x0F). rewrite Hop. reflexivity.
Qed.

(** ** Frames *)

Lemma len_xor_mask : forall k w i, len (xor_mask k i w) = len w.
Proof.
  intros k w. induction w as [|b w IH]; intro i; [reflexivity|].
  cbn [xor_mask]. rewrite !len_cons, IH. reflexivity.
Qed.

Lemma len_unmasked : forall key w, len (unmasked key w) = len w.
Proof.
  intros [k|] w; [apply len_xor_mask|reflexivity].
Qed.

Lemma nth_xor_mask : forall k w i j, 0 <= j -> (i < List.length w)%nat ->
  nth i (xor_mask k j w) 0
  = Z.lxor (nth i w 0) (nth (Z.to_nat ((j + Z.of_nat i) mod 4)) k 0).
Proof.
  intros k w. induction w as [|b w IH]; intros i j Hj Hi; [simpl in Hi; lia|].
  destruct i as [|i]; cbn [xor_mask nth].
  - rewrite Z.add_0_r. reflexivity.
  - rewrite IH by (simpl in Hi; lia).
    replace (j + Z.of_nat (S i)) with (j + 1 + Z.of_nat i) by lia. reflexivity.
Qed.

Lemma length_field_some : forall n, 0 <= n < 2 ^ 64 ->
  exists l7 ext, length_field n = Some (l7 :: ext).
Proof.
  intros n Hn. unfold length_field, Struct.pack_H, Struct.pack_Q.
  destruct (Z.leb_spec n 125); [eauto|].
  destruct (Z.leb_spec 126 n); [|lia].
  destruct (Z.leb_spec 0 n); [|lia].
  destruct (Z.leb_spec n 65535); cbn [andb option_map]; [eauto|].
  destruct (Z.ltb_spec n (2 ^ 64)); [|lia]. cbn [option_map]. eauto.
Qed.

(** The frames [_send_message] builds are frames without a mask. *)
Lemma encode_frame_wire : forall fin_ op body,
  let b1 := Z.lor (if negb fin_ then 0x80 else 0) op in
  0 <= b1 < 256 ->
  encode_frame fin_ op body = wire_frame b1 None body.
Proof.
  intros fin_ op body b1 Hb. unfold encode_frame, wire_frame. fold b1.
  replace ((0 <=? b1) && (b1 <? 256)) with true
    by (symmetry; apply andb_true_iff; split; [apply Z.leb_le|apply Z.ltb_lt]; lia).
  cbn [negb].
  pose proof (len_nonneg body) as H0.
  destruct (length_field (len body)) as [lf|] eqn:LF; [|reflexivity].
  destruct lf as [|l7 ext].
  - exfalso. unfold length_field in LF.
    destruct (len body <=? 125); [discriminate|].
    destruct ((126 <=? len body) && (len body <=? 65535)).
    + destruct (Struct.pack_H (len body)); discriminate.
    + destruct (Struct.pack_Q (len body)); discriminate.
  - destruct body as [|x body]; [|reflexivity].
    destruct (length_field_cases H0 LF) as [[_ [_ E]]|[[Hn _]|[Hn _]]];
      [|change (len (@nil Z)) with 0 in Hn; lia..].
    subst ext. reflexivity.
Qed.

(** The first byte [_send_message] builds for a four-bit opcode. *)
Lemma first_byte : forall fin_ op, 0 <= op < 16 ->
  let b1 := Z.lor (if negb fin_ then 0x80 else 0) op in
  0 <= b1 < 256 /\ Z.land b1 0x70 = 0 /\ Z.land b1 0x0F = op
  /\ Z.land b1 0x80 = (if fin_ then 0 else 0x80).
Proof.
  intros fin_ op H.
  pose proof (@below_cases
    (fun x => forallb (fun f : bool =>
       let b1 := Z.lor (if negb f then 0x80 else 0) x in
       (0 <=? b1) && (b1 <? 256) && (Z.land b1 0x70 =? 0) && (Z.land b1 0x0F =? x)
       && (Z.land b1 0x80 =? (if f then 0 else 0x80))) [true; false])
    16 eq_refl op H) as E.
  cbv beta in E. rewrite forallb_forall in E.
  specialize (E fin_ ltac:(destruct fin_; simpl; auto)). cbv zeta in E.
  repeat (apply andb_prop in E; destruct E as [E ?]).
  cbv zeta. repeat split; try (apply Z.eqb_eq; assumption).
  - apply Z.leb_le; assumption.
  - apply Z.ltb_lt; assumption.
Qed.

(** C8. A masked frame is dispatched with each payload byte XOR-ed with
    the mask byte at its position modulo 4; the frame with mask key
    01 02 03 04 and payload 00 00 00 00 is handled as 01 02 03 04. *)
Theorem masked_payload_unmasked : forall self b1 k w,
  state self = HEADERB1 ->
  Z.land b1 0x70 = 0 ->
  List.length k = 4%nat ->
  (Z.land b1 0x0F =? PING) && (len w >? 125) = false ->
  len w < maxpayload self ->
  len w < 2 ^ 64 ->
  (exists bytes d,
      wire_frame b1 (Some k) w = Some bytes
      /\ feed bytes self = dispatch d
      /\ fin d = Z.land b1 0x80 /\ opcode d = Z.land b1 0x0F
      /\ data d = Bytes (xor_mask k 0 w)
      /\ same_connection d self)
  /\ List.length (xor_mask k 0 w) = List.length w
  /\ (forall i, (i < List.length w)%nat ->
        nth i (xor_mask k 0 w) 0 = Z.lxor (nth i w 0) (nth (i mod 4) k 0))
  /\ hooks (state_of (feed [0x82; 0x84; 1; 2; 3; 4; 0; 0; 0; 0] conn0))
     = [Handle (Bytes [1; 2; 3; 4])].
Proof.
  intros self b1 k w Hs Hr Hk Hp Hm H64.
  pose proof (len_nonneg w) as H0.
  repeat split.
  - destruct (@length_field_some (len w) ltac:(lia)) as [l7 [ext LF]].
    exists (b1 :: (0x80 + l7) :: ext ++ k ++ w), (frame_read b1 (Some k) w self).
    assert (W : wire_frame b1 (Some k) w = Some (b1 :: (0x80 + l7) :: ext ++ k ++ w))
      by (unfold wire_frame; rewrite LF; reflexivity).
    split; [exact W|]. split.
    + apply feed_wire_frame; try assumption.
      intros k' E. inversion E. subst. exact Hk.
    + repeat split.
  - pose proof (len_xor_mask k w 0) as E. unfold len in E. lia.
  - intros i Hi. rewrite nth_xor_mask by (lia || assumption).
    rewrite Z.add_0_l.
    change 4 with (Z.of_nat 4). rewrite <- Nat2Z.inj_mod, Nat2Z.id. reflexivity.
Qed.

(** The frame of the example: key 01 02 03 04 over four zero bytes. *)
Lemma masked_payload_unmasked_witness :
  exists bytes d,
    wire_frame 0x82 (Some [1; 2; 3; 4]) [0; 0; 0; 0] = Some bytes
    /\ feed bytes conn0 = dispatch d
    /\ fin d = 0x80 /\ opcode d = BINARY
    /\ data d = Bytes [1; 2; 3; 4]
    /\ same_connection d conn0.
Proof.
  apply (@masked_payload_unmasked conn0 0x82 [1; 2; 3; 4] [0; 0; 0; 0]);
    first [reflexivity | vm_compute; reflexivity].
Defined.

(** C4 as stated fails: a ping of 126 bytes is encoded, and the decoder
    rejects the encoded frame at its second byte instead of dispatching it. *)
Lemma roundtrip_fails_for_long_ping :
  exists frame s,
    encode_frame false PING (repeat 0 126) = Some frame
    /\ feed frame conn0 = Raise (Exception "ping packet is too large") s
    /\ sendq s = [] /\ hooks s = [].
Proof.
  eexists. eexists. split; [vm_compute; reflexivity|].
  split; [vm_compute; reflexivity|]. split; reflexivity.
Qed.

(** C4, amended. For a four-bit opcode and a payload below the payload
    limit, a ping of more than 125 bytes excepted, [_send_message] emits
    the first byte (0x80 when called with fin = False, the final frame)
    | opcode, then the length itself up to 125, 126 and 16 bits up to
    65535, 127 and 64 bits above, then the payload; and the decoder fed
    these bytes one by one dispatches a frame with that fin bit, opcode
    and payload. The lengths 0, 125, 126, 65535 and 65536 take the
    encodings expected. *)
Theorem encode_decode_roundtrip : forall self fin_ op body,
  state self = HEADERB1 ->
  0 <= op < 16 ->
  (op = PING -> len body <= 125) ->
  len body < maxpayload self ->
  len body < 2 ^ 64 ->
  let b1 := Z.lor (if negb fin_ then 0x80 else 0) op in
  (exists frame,
      encode_frame fin_ op body = Some frame
      /\ (len body <= 125 -> frame = b1 :: len body :: body)
      /\ (126 <= len body <= 65535 ->
          frame = b1 :: 126 :: Struct.be_bytes 2 (len body) ++ body)
      /\ (65535 < len body ->
          frame = b1 :: 127 :: Struct.be_bytes 8 (len body) ++ body)
      /\ exists d,
          feed frame self = dispatch d
          /\ fin d = (if fin_ then 0 else 0x80) /\ opcode d = op
          /\ data d = Bytes body
          /\ same_connection d self)
  /\ length_field 0 = Some [0]
  /\ length_field 125 = Some [125]
  /\ length_field 126 = Some [126; 0; 126]
  /\ length_field 65535 = Some [126; 255; 255]
  /\ length_field 65536 = Some [127; 0; 0; 0; 0; 0; 1; 0; 0].
Proof.
  intros self fin_ op body Hs Hop Hping Hm H64 b1.
  split; [|repeat split].
  pose proof (len_nonneg body) as H0.
  destruct (@first_byte fin_ op Hop) as [Hb [Hr [Ho Hf]]]. fold b1 in Hb, Hr, Ho, Hf.
  destruct (@length_field_some (len body) ltac:(lia)) as [l7 [ext LF]].
  exists (b1 :: l7 :: ext ++ body).
  assert (W : wire_frame b1 None body = Some (b1 :: l7 :: ext ++ body))
    by (unfold wire_frame; rewrite LF; reflexivity).
  split; [rewrite encode_frame_wire by exact Hb; exact W|].
  destruct (length_field_cases H0 LF) as [[Hn [E1 E2]]|[[Hn [E1 E2]]|[Hn [E1 E2]]]];
    subst l7 ext; (repeat split; [try reflexivity; intros; lia..|]).
  all: exists (frame_read b1 None body self); split;
    [apply feed_wire_frame; try assumption; [discriminate|]
    |unfold frame_read; cbn [fin opcode data]; rewrite Ho, Hf; repeat split].
  all: rewrite Ho; apply andb_false_iff;
    destruct (Z.eq_dec op PING) as [E|E];
    [right; specialize (Hping E); rewrite Z.gtb_ltb; apply Z.ltb_ge; lia
    |left; apply Z.eqb_neq; exact E].
Qed.

(** A final binary frame of three bytes. *)
Lemma encode_decode_roundtrip_witness :
  exists frame,
    encode_frame false BINARY [1; 2; 3] = Some frame
    /\ (len [1; 2; 3] <= 125 -> frame = 0x82 :: len [1; 2; 3] :: [1; 2; 3])
    /\ (126 <= len [1; 2; 3] <= 65535 ->
        frame = 0x82 :: 126 :: Struct.be_bytes 2 (len [1; 2; 3]) ++ [1; 2; 3])
    /\ (65535 < len [1; 2; 3] ->
        frame = 0x82 :: 127 :: Struct.be_bytes 8 (len [1; 2; 3]) ++ [1; 2; 3])
    /\ exists d,
        feed frame conn0 = dispatch d
        /\ fin d = 0x80 /\ opcode d = BINARY
        /\ data d = Bytes [1; 2; 3]
        /\ same_connection d conn0.
Proof.
  apply (@encode_decode_roundtrip conn0 false BINARY [1; 2; 3]);
    first [reflexivity | vm_compute; intuition discriminate].
Defined.

(** C6 as stated fails: a ping frame without the FIN bit, here with no
    payload at all, is refused and no pong is queued. *)
Lemma ping_without_fin_rejected :
  exists s,
    feed [0x09; 0x00] conn0
    = Raise (Exception "control messages can not be fragmented") s
    /\ sendq s = [].
Proof.
  eexists. split; [vm_compute; reflexivity|reflexivity].
Qed.

(** What [_handle_packet] does with a final ping of at most 125 bytes. *)
Lemma dispatch_ping : forall d p,
  opcode d = PING -> fin d = 0x80 -> data d = Bytes p -> len p <= 125 ->
  dispatch d
  = Ok tt (set_data (Bytes []) (set_state HEADERB1
             (set_sendq (sendq d ++ [(PONG, 0x8A :: len p :: p)]) d))).
Proof.
  intros d p Ho Hf Hd Hl. pose proof (len_nonneg p) as H0.
  unfold dispatch, _handle_packet. rewrite Ho, Hf, Hd.
  change (PING =? CLOSE) with false. change (PING =? STREAM) with false.
  change (PING =? TEXT) with false. change (PING =? BINARY) with false.
  change (PING =? PONG) with false. change (PING =? PING) with true.
  cbn [orb data_len]. replace (len p >? 125) with false
    by (symmetry; rewrite Z.gtb_ltb; apply Z.ltb_ge; lia).
  change (0x80 =? 0) with false. cbv iota.
  unfold _send_message, encode_frame. cbn [negb].
  change ((0 <=? Z.lor 0x80 PONG) && (Z.lor 0x80 PONG <? 256)) with true. cbn [negb].
  unfold length_field. replace (len p <=? 125) with true by (symmetry; apply Z.leb_le; lia).
  change (Z.lor 0x80 PONG) with 0x8A.
  destruct p as [|x p]; reflexivity.
Qed.

(** C6, amended. For a ping frame with the FIN bit set and the reserved
    bits clear (first byte 0x89), masked or not: with a payload of at
    most 125 bytes the frame is accepted and a pong with the same
    payload is queued; and whatever its first byte, a ping whose 7-bit
    length field exceeds 125 fails the connection, nothing being queued. *)
Theorem ping_is_echoed_or_rejected : forall self key w,
  state self = HEADERB1 ->
  (forall k, key = Some k -> List.length k = 4%nat) ->
  len w < maxpayload self ->
  (len w <= 125 ->
   exists bytes s,
     wire_frame 0x89 key w = Some bytes
     /\ feed bytes self = Ok tt s
     /\ sendq s = sendq self ++ [(PONG, 0x8A :: len w :: unmasked key w)]
     /\ state s = HEADERB1)
  /\ (forall b1 b2 rest,
        Z.land b1 0x0F = PING -> Z.land b2 0x7F > 125 ->
        exists e s, feed (b1 :: b2 :: rest) self = Raise e s /\ sendq s = sendq self).
Proof.
  intros self key w Hs Hk Hm. pose proof (len_nonneg w) as H0. split.
  - intro Hl.
    destruct (@length_field_some (len w) ltac:(lia)) as [l7 [ext LF]].
    assert (W : exists bytes, wire_frame 0x89 key w = Some bytes)
      by (unfold wire_frame; rewrite LF; destruct key; eauto).
    destruct W as [bytes W]. exists bytes.
    rewrite (@feed_wire_frame self 0x89 key w bytes Hs eq_refl Hk W); [|idtac|exact Hm].
    + rewrite (@dispatch_ping _ (unmasked key w));
        [|reflexivity|reflexivity|reflexivity|rewrite len_unmasked; exact Hl].
      eexists. split; [exact W|]. split; [reflexivity|].
      rewrite len_unmasked. split; reflexivity.
    + change (Z.land 0x89 0x0F =? PING) with true. cbn [andb].
      rewrite Z.gtb_ltb. apply Z.ltb_ge. lia.
  - intros b1 b2 rest Hop Hlen. rewrite feed_cons.
    unfold _parse_message at 1. rewrite Hs. change (HEADERB1 =? HEADERB1) with true.
    cbv iota zeta.
    destruct (Z.land b1 0x70 =? 0) eqn:Hr; cbn [negb bind].
    + rewrite feed_cons. unfold _parse_message at 1. fields.
      change (HEADERB2 =? HEADERB1) with false. change (HEADERB2 =? HEADERB2) with true.
      cbv iota zeta. rewrite Hop. change (PING =? PING) with true.
      replace (Z.land b2 0x7F >? 125) with true
        by (symmetry; rewrite Z.gtb_ltb; apply Z.ltb_lt; lia).
      cbn [andb bind]. eexists. eexists. split; reflexivity.
    + eexists. eexists. split; reflexivity.
Qed.

(** A masked ping of three bytes on a fresh connection. *)
Lemma ping_is_echoed_or_rejected_witness :
  (exists bytes s,
     wire_frame 0x89 (Some [1; 2; 3; 4]) [7; 7; 7] = Some bytes
     /\ feed bytes conn0 = Ok tt s
     /\ sendq s = sendq conn0
                  ++ [(PONG, 0x8A :: len [7; 7; 7] :: unmasked (Some [1; 2; 3; 4]) [7; 7; 7])]
     /\ state s = HEADERB1)
  /\ (forall b1 b2 rest,
        Z.land b1 0x0F = PING -> Z.land b2 0x7F > 125 ->
        exists e s, feed (b1 :: b2 :: rest) conn0 = Raise e s /\ sendq s = sendq conn0).
Proof.
  destruct (@ping_is_echoed_or_rejected conn0 (Some [1; 2; 3; 4]) [7; 7; 7]) as [A B].
  - reflexivity.
  - intros k E. inversion E. reflexivity.
  - reflexivity.
  - split; [apply A; vm_compute; discriminate|exact B].
Defined.

(** ** The close handshake *)

(** C2. The status table lists the bounds 3000, 3999, 4000 and 4999 and
    not the ranges between them: a Close frame with status 3500 or 4500
    is answered with status 1002 (0x03EA). *)
Theorem close_status_inside_range_normalized :
  py_in 3500 _VALID_STATUS_CODES = false
  /\ py_in 4500 _VALID_STATUS_CODES = false
  /\ close_reply [0x0D; 0xAC] = Some (1002, Bytes [])
  /\ sendq (state_of (feed [0x88; 0x02; 0x0D; 0xAC] conn0))
     = [(CLOSE, [0x88; 0x02; 0x03; 0xEA])]
  /\ sendq (state_of (feed [0x88; 0x02; 0x11; 0x94] conn0))
     = [(CLOSE, [0x88; 0x02; 0x03; 0xEA])]
  /\ sendq (state_of (feed [0x88; 0x02; 0x0B; 0xB8] conn0))
     = [(CLOSE, [0x88; 0x02; 0x0B; 0xB8])].
Proof.
  repeat split; vm_compute; reflexivity.
Qed.

(** The reason byte FF, which is not UTF-8, comes back in the Close
    frame that answers, after the status 1002. *)
Lemma invalid_reason_is_echoed :
  Utf8.decode_strict [0xFF] = None
  /\ exists s,
      feed [0x88; 0x03; 0x03; 0xE8; 0xFF] conn0 = Ok tt s
      /\ sendq s = [(CLOSE, [0x88; 0x03; 0x03; 0xEA; 0xFF])].
Proof.
  split; [reflexivity|]. eexists. split; [vm_compute; reflexivity|reflexivity].
Qed.

Lemma close_reply_invalid_reason : forall p,
  2 <= len p -> Utf8.decode_strict (slice_from 2 p) = None ->
  close_reply p = Some (1002, Bytes (slice_from 2 p)).
Proof.
  intros p Hl Hu. unfold close_reply.
  replace (len p =? 0) with false by (symmetry; apply Z.eqb_neq; lia).
  replace (len p >=? 2) with true by (symmetry; rewrite Z.geb_leb; apply Z.leb_le; lia).
  assert (L2 : len (slice_to 2 p) = 2).
  { unfold slice_to, len in *. rewrite length_firstn. lia. }
  unfold Struct.unpack_from_H. rewrite L2. change (2 <? 2) with false. cbv iota.
  destruct (slice_from 2 p) as [|x r] eqn:E; [discriminate|].
  cbn [is_nil negb]. rewrite Hu. reflexivity.
Qed.

(** C3. The code does not leave the invalid reason out. A Close frame
    of at least 2 bytes whose reason is not strict UTF-8, received on a
    connection that has not sent its Close frame yet, is answered with a
    Close frame that carries status 1002 followed by the reason bytes as
    they were received: when the decoding fails [_handle_packet] sets
    the status and leaves the raw bytes in [reason], which [close] then
    appends, so the reply holds the bytes that were just found invalid. *)
Theorem close_invalid_reason : forall self b1 key w bytes,
  state self = HEADERB1 ->
  Z.land b1 0x70 = 0 ->
  Z.land b1 0x0F = CLOSE ->
  (forall k, key = Some k -> List.length k = 4%nat) ->
  wire_frame b1 key w = Some bytes ->
  len w < maxpayload self ->
  closed self = false ->
  2 <= len w ->
  Utf8.decode_strict (slice_from 2 (unmasked key w)) = None ->
  exists s frame,
    feed bytes self = Ok tt s
    /\ encode_frame false CLOSE ([0x03; 0xEA] ++ slice_from 2 (unmasked key w)) = Some frame
    /\ sendq s = sendq self ++ [(CLOSE, frame)]
    /\ closed s = true.
Proof.
  intros self b1 key w bytes Hs Hr Ho Hk W Hm Hc Hl Hu.
  rewrite (@feed_wire_frame self b1 key w bytes Hs Hr Hk W); [|idtac|exact Hm].
  - set (reason := slice_from 2 (unmasked key w)) in *.
    assert (E : exists frame, encode_frame false CLOSE ([0x03; 0xEA] ++ reason) = Some frame).
    { rewrite encode_frame_wire by (vm_compute; intuition discriminate).
      unfold wire_frame.
      assert (L : len ([0x03; 0xEA] ++ reason) = len w).
      { unfold reason, slice_from. rewrite <- (len_unmasked key w) in *.
        unfold len in *. rewrite length_app, length_skipn. simpl List.length. lia. }
      rewrite L. unfold wire_frame in W.
      destruct (length_field (len w)) as [[|l7 ext]|]; try discriminate. eauto. }
    destruct E as [frame E].
    exists (set_data (Bytes []) (set_state HEADERB1
              (set_closed true (set_sendq (sendq self ++ [(CLOSE, frame)])
                 (frame_read b1 key w self))))), frame.
    split; [|split; [exact E|split; reflexivity]].
    unfold dispatch, _handle_packet.
    change (opcode (frame_read b1 key w self)) with (Z.land b1 0x0F). rewrite Ho.
    change (CLOSE =? CLOSE) with true. cbv iota.
    change (data (frame_read b1 key w self)) with (Bytes (unmasked key w)). cbv iota.
    rewrite close_reply_invalid_reason by (rewrite ?len_unmasked; assumption).
    unfold close. change (closed (frame_read b1 key w self)) with (closed self).
    rewrite Hc. cbn [negb]. change (Struct.pack_H 1002) with (Some [0x03; 0xEA]).
    cbv iota. fold reason. unfold _send_message. rewrite E. reflexivity.
  - rewrite Ho. reflexivity.
Qed.

(** Status 1000 followed by the byte FF. *)
Lemma close_invalid_reason_witness :
  exists s frame,
    feed [0x88; 0x03; 0x03; 0xE8; 0xFF] conn0 = Ok tt s
    /\ encode_frame false CLOSE ([0x03; 0xEA] ++ slice_from 2 (unmasked None [0x03; 0xE8; 0xFF]))
       = Some frame
    /\ sendq s = sendq conn0 ++ [(CLOSE, frame)]
    /\ closed s = true.
Proof.
  apply (@close_invalid_reason conn0 0x88 None [0x03; 0xE8; 0xFF]);
    first [reflexivity | discriminate | vm_compute; discriminate].
Defined.

(** C10. The first [close] on a connection that is not closed sets
    [closed] whatever happens. With a status that fits 16 bits and a
    reason that is bytes or an encodable string it returns and has
    appended exactly one Close frame to the send queue: the byte 0x88,
    the length of status and reason in the form their size asks for, the
    status in network order and the reason. With a status that does not
    fit, or a string that cannot be encoded, it raises and queues
    nothing. Every later [close], whatever its arguments, returns with
    the connection, its send queue included, as it was: no second Close
    frame is queued. *)
Theorem close_idempotent : forall self status reason,
  closed self = false ->
  let r := close status reason self in
  closed (state_of r) = true
  /\ (forall rb,
        0 <= status <= 65535 -> reason_bytes reason = Some rb -> len rb + 2 < 2 ^ 64 ->
        let body := Struct.be_bytes 2 status ++ rb in
        exists frame,
          r = Ok tt (set_closed true (set_sendq (sendq self ++ [(CLOSE, frame)]) self))
          /\ (len rb <= 123 -> frame = 0x88 :: (2 + len rb) :: body)
          /\ (124 <= len rb <= 65533 ->
              frame = 0x88 :: 126 :: Struct.be_bytes 2 (2 + len rb) ++ body)
          /\ (65533 < len rb ->
              frame = 0x88 :: 127 :: Struct.be_bytes 8 (2 + len rb) ++ body))
  /\ (status < 0 \/ 65535 < status -> r = Raise StructError (set_closed true self))
  /\ (0 <= status <= 65535 -> reason_bytes reason = None ->
      r = Raise UnicodeError (set_closed true self))
  /\ match r with
     | Ok _ s1 =>
       exists sb rb frame,
         Struct.pack_H status = Some sb
         /\ reason_bytes reason = Some rb
         /\ encode_frame false CLOSE (sb ++ rb) = Some frame
         /\ sendq s1 = sendq self ++ [(CLOSE, frame)]
     | Raise _ s1 => sendq s1 = sendq self
     end
  /\ forall status' reason',
       close status' reason' (state_of r) = Ok tt (state_of r).
Proof.
  intros self status reason Hc r. subst r. unfold close. rewrite Hc. cbn [negb].
  fold (reason_bytes reason). unfold Struct.pack_H.
  destruct (Z.leb_spec 0 status) as [H0|H0]; cbn [andb].
  2:{ cbn [finally state_of]. split; [reflexivity|].
      split; [intros; lia|]. split; [reflexivity|]. split; [intros; lia|].
      split; [reflexivity|intros; reflexivity]. }
  destruct (Z.leb_spec status 65535) as [H1|H1].
  2:{ cbn [finally state_of]. split; [reflexivity|].
      split; [intros; lia|]. split; [reflexivity|]. split; [intros; lia|].
      split; [reflexivity|intros; reflexivity]. }
  destruct (reason_bytes reason) as [rb|] eqn:E2.
  2:{ cbn [finally state_of]. split; [reflexivity|].
      split; [intros; discriminate|]. split; [intros; lia|].
      split; [reflexivity|]. split; [reflexivity|intros; reflexivity]. }
  unfold _send_message.
  assert (Lb : len (Struct.be_bytes 2 status ++ rb) = 2 + len rb).
  { rewrite len_app. unfold len at 1. rewrite be_bytes_length. reflexivity. }
  pose proof (len_nonneg rb) as Lr.
  destruct (encode_frame false CLOSE (Struct.be_bytes 2 status ++ rb)) as [frame|] eqn:E3.
  - cbn [finally state_of]. split; [reflexivity|].
    split; [|split; [intros; lia|split; [intros; discriminate|split]]].
    + intros rb' _ E Hl. cbv zeta. injection E as E. subst rb'.
      exists frame. split; [reflexivity|].
      rewrite encode_frame_wire in E3 by (vm_compute; intuition discriminate).
      change (Z.lor (if negb false then 0x80 else 0) CLOSE) with 0x88 in E3.
      unfold wire_frame in E3. rewrite Lb in E3.
      destruct (length_field (2 + len rb)) as [[|l7 ext]|] eqn:LF; try discriminate E3.
      injection E3 as E3. subst frame.
      destruct (@length_field_cases (2 + len rb) l7 ext ltac:(lia) LF)
        as [[Hn [E1 E4]]|[[Hn [E1 E4]]|[Hn [E1 E4]]]];
        subst l7 ext; repeat split; intros; try lia; reflexivity.
    + exists (Struct.be_bytes 2 status), rb, frame.
      split; [|repeat split; assumption].
      replace ((0 <=? status) && (status <=? 65535)) with true
        by (symmetry; apply andb_true_iff; split; apply Z.leb_le; lia).
      reflexivity.
    + intros; reflexivity.
  - cbn [finally state_of]. split; [reflexivity|].
    split; [|split; [intros; lia|split; [intros; discriminate|split;
                                          [reflexivity|intros; reflexivity]]]].
    intros rb' _ E Hl. injection E as E. subst rb'. exfalso.
    rewrite encode_frame_wire in E3 by (vm_compute; intuition discriminate).
    unfold wire_frame in E3. rewrite Lb in E3.
    destruct (@length_field_some (2 + len rb) ltac:(lia)) as [l7 [ext LF]].
    rewrite LF in E3. discriminate E3.
Qed.

(** Two calls of [close] on a fresh connection leave one Close frame. *)
Lemma close_idempotent_witness :
  close 1000 (Str []) conn0
  = Ok tt (set_closed true (set_sendq [(CLOSE, [0x88; 0x02; 0x03; 0xE8])] conn0))
  /\ closed (state_of (close 1000 (Str []) conn0)) = true
  /\ sendq (state_of (close 1001 (Bytes [1]) (state_of (close 1000 (Str []) conn0))))
     = [(CLOSE, [0x88; 0x02; 0x03; 0xE8])].
Proof.
  destruct (@close_idempotent conn0 1000 (Str []) eq_refl) as [A [B [_ [_ [_ C]]]]].
  destruct (B [] ltac:(lia) eq_refl eq_refl) as [frame [E [F _]]].
  rewrite (F ltac:(discriminate)) in E.
  split; [exact E|]. split; [exact A|]. rewrite C. reflexivity.
Defined.

(** ** The opening handshake *)

(** C9. When the request carries an ASCII Sec-WebSocket-Key, the 101
    response queued has for Sec-WebSocket-Accept the base64 of the SHA-1
    of the key followed by the GUID; the key of RFC 6455 gives
    s3pPLMBiTxaQ9kYGzzhZRbK+xOo=. *)
Theorem handshake_accept_token : forall http self chunk key,
  handshaked self = false ->
  chunk <> [] ->
  len (headerbuffer self ++ chunk) < maxheader self ->
  bytes_contains CRLFCRLF (headerbuffer self ++ chunk) = true ->
  http (headerbuffer self ++ chunk) = Headers (Some key) ->
  encode_ascii key = Some key ->
  (exists s,
      _handle_data http (Recv chunk) self = Ok tt s
      /\ handshaked s = true
      /\ sendq s
         = sendq self
           ++ [(BINARY,
                str_of ("HTTP/1.1 101 Switching Protocols" ++ CRLF
                        ++ "Upgrade: WebSocket" ++ CRLF
                        ++ "Connection: Upgrade" ++ CRLF
                        ++ "Sec-WebSocket-Accept: ")
                  ++ Base64.b64encode (Sha1.digest (key ++ GUID_STR))
                  ++ str_of (CRLF ++ CRLF))])
  /\ Base64.b64encode (Sha1.digest (str_of "dGhlIHNhbXBsZSBub25jZQ==" ++ GUID_STR))
     = str_of "s3pPLMBiTxaQ9kYGzzhZRbK+xOo=".
Proof.
  intros http self chunk key Hh Hc Hl Hb Hk Ha.
  split; [|vm_compute; reflexivity].
  unfold _handle_data. rewrite Hh. cbn [negb].
  destruct chunk as [|c chunk]; [congruence|]. cbn [is_nil].
  cbv zeta. fields.
  replace (len (headerbuffer self ++ c :: chunk) >=? maxheader self) with false
    by (symmetry; rewrite Z.geb_leb; apply Z.leb_gt; exact Hl).
  rewrite Hb, Hk. unfold handshake. rewrite Ha.
  eexists. split; [reflexivity|]. split; reflexivity.
Qed.

(** The request of RFC 6455, section 1.3, reduced to its key. *)
Lemma handshake_accept_token_witness :
  exists s,
    _handle_data (fun _ => Headers (Some (str_of "dGhlIHNhbXBsZSBub25jZQ==")))
      (Recv (str_of ("GET /chat HTTP/1.1" ++ CRLF
                     ++ "Sec-WebSocket-Key: dGhlIHNhbXBsZSBub25jZQ==" ++ CRLF ++ CRLF)))
      (init (Socket [] [] false))
    = Ok tt s
    /\ handshaked s = true
    /\ sendq s
       = [(BINARY,
           str_of ("HTTP/1.1 101 Switching Protocols" ++ CRLF
                   ++ "Upgrade: WebSocket" ++ CRLF
                   ++ "Connection: Upgrade" ++ CRLF
                   ++ "Sec-WebSocket-Accept: s3pPLMBiTxaQ9kYGzzhZRbK+xOo="
                   ++ CRLF ++ CRLF))].
Proof.
  destruct (@handshake_accept_token
              (fun _ => Headers (Some (str_of "dGhlIHNhbXBsZSBub25jZQ==")))
              (init (Socket [] [] false))
              (str_of ("GET /chat HTTP/1.1" ++ CRLF
                       ++ "Sec-WebSocket-Key: dGhlIHNhbXBsZSBub25jZQ==" ++ CRLF ++ CRLF))
              (str_of "dGhlIHNhbXBsZSBub25jZQ=="))
    as [[s [A [B C]]] _];
    try (vm_compute; first [reflexivity | discriminate]).
  exists s. split; [exact A|]. split; [exact B|]. rewrite C. vm_compute. reflexivity.
Defined.

(** ** Reading after the handshake *)

Lemma first_pass_is_feed : forall data_ self,
  for_each (fun d self => match as_int d with
                          | Some byte => _parse_message byte self
                          | None => Raise TypeError self
                          end) (iter_bytes data_) self
  = feed data_ self.
Proof.
  induction data_ as [|d data_ IH]; intro self; [reflexivity|].
  unfold feed. cbn [iter_bytes map for_each as_int].
  destruct (_parse_message d self) as [[] s|e s]; cbn [bind]; [apply IH|reflexivity].
Qed.

(** C1. After the handshake, a read of a non-empty chunk leaves the
    connection exactly as one pass of the decoder over the chunk leaves
    it, each byte given to [_parse_message] once and in the order
    received: no byte is parsed a second time. The second loop of the
    read stops at its first byte, where [ord] is applied to an [int] and
    raises before [_parse_message] is entered, so the read itself ends
    with [TypeError] when the pass returned, and with the exception of
    the pass otherwise. *)
Theorem chunk_parsed_once : forall http data_ self,
  handshaked self = true ->
  data_ <> [] ->
  state_of (_handle_data http (Recv data_) self) = state_of (feed data_ self)
  /\ _handle_data http (Recv data_) self
     = match feed data_ self with
       | Ok _ s => Raise TypeError s
       | Raise e s => Raise e s
       end.
Proof.
  intros http data_ self Hh Hd. unfold _handle_data. rewrite Hh. cbn [negb].
  destruct data_ as [|d data_]; [congruence|]. cbn [is_nil].
  rewrite first_pass_is_feed.
  destruct (feed (d :: data_) self) as [[] s|e s]; split; reflexivity.
Qed.

(** An empty final text frame: [handle] is called once, as in one pass. *)
Lemma chunk_parsed_once_witness :
  (exists s, feed [0x81; 0x00] conn0 = Ok tt s /\ hooks s = [Handle (Str [])])
  /\ state_of (_handle_data (fun _ => BadRequest) (Recv [0x81; 0x00]) conn0)
     = state_of (feed [0x81; 0x00] conn0)
  /\ hooks (state_of (_handle_data (fun _ => BadRequest) (Recv [0x81; 0x00]) conn0))
     = [Handle (Str [])].
Proof.
  split; [eexists; split; [vm_compute; reflexivity|reflexivity]|].
  destruct (@chunk_parsed_once (fun _ => BadRequest) [0x81; 0x00] conn0 eq_refl
              ltac:(discriminate)) as [A _].
  split; [exact A|]. rewrite A. vm_compute. reflexivity.
Defined.

(** ** Size limits *)

(** C7. Both limits are tested with [>=]: a header that reaches exactly
    [maxheader] bytes, and a payload that reaches exactly [maxpayload]
    bytes, fail although neither exceeds its limit. *)
Theorem size_limit_reached_fails : forall http hs chunk ps d b,
  handshaked hs = false ->
  chunk <> [] ->
  len (headerbuffer hs ++ chunk) = maxheader hs ->
  state ps = PAYLOAD ->
  data ps = Bytes d ->
  hasmask ps = false ->
  len d + 1 = maxpayload ps ->
  _handle_data http (Recv chunk) hs
  = Raise (Exception "header exceeded allowable size")
          (set_headerbuffer (headerbuffer hs ++ chunk) hs)
  /\ _parse_message b ps
     = Raise (Exception "payload exceeded allowable size")
             (set_data (Bytes (d ++ [b])) ps).
Proof.
  intros http hs chunk ps d b Hh Hc Hl Hs Hd Hm Hp. split.
  - unfold _handle_data. rewrite Hh. cbn [negb].
    destruct chunk as [|c chunk]; [congruence|]. cbn [is_nil]. cbv zeta. fields.
    replace (len (headerbuffer hs ++ c :: chunk) >=? maxheader hs) with true
      by (symmetry; rewrite Z.geb_leb; apply Z.leb_le; lia).
    reflexivity.
  - state_is PAYLOAD. rewrite Hd, Hm. cbv zeta. fields.
    replace (len (d ++ [b]) >=? maxpayload ps) with true
      by (symmetry; rewrite Z.geb_leb; apply Z.leb_le; rewrite len_app, len_cons;
          change (len (@nil Z)) with 0; lia).
    reflexivity.
Qed.

(** A header of exactly [MAXHEADER] bytes, and a payload of four bytes
    under a payload limit of four. *)
Lemma size_limit_reached_fails_witness :
  len (repeat 65 (Z.to_nat 65532) ++ CRLFCRLF) = MAXHEADER
  /\ (exists s,
        _handle_data (fun _ => Headers (Some (str_of "dGhlIHNhbXBsZSBub25jZQ==")))
          (Recv CRLFCRLF)
          (set_headerbuffer (repeat 65 (Z.to_nat 65532)) (init (Socket [] [] false)))
        = Raise (Exception "header exceeded allowable size") s)
  /\ (exists s,
        feed [0x82; 0x04; 1; 2; 3; 4] (with_limits MAXHEADER 4 conn0)
        = Raise (Exception "payload exceeded allowable size") s).
Proof.
  pose (ps := state_of (feed [0x82; 0x04; 1; 2; 3] (with_limits MAXHEADER 4 conn0))).
  assert (L : len (repeat 65 (Z.to_nat 65532) ++ CRLFCRLF) = MAXHEADER)
    by (vm_compute; reflexivity).
  destruct (@size_limit_reached_fails
              (fun _ => Headers (Some (str_of "dGhlIHNhbXBsZSBub25jZQ==")))
              (set_headerbuffer (repeat 65 (Z.to_nat 65532)) (init (Socket [] [] false)))
              CRLFCRLF ps [1; 2; 3] 4
              eq_refl ltac:(discriminate) L eq_refl eq_refl eq_refl eq_refl) as [A B].
  split; [exact L|]. split.
  - eexists. exact A.
  - eexists. change [0x82; 0x04; 1; 2; 3; 4] with ([0x82; 0x04; 1; 2; 3] ++ [4]).
    rewrite feed_app.
    replace (feed [0x82; 0x04; 1; 2; 3] (with_limits MAXHEADER 4 conn0)) with (Ok tt ps)
      by (vm_compute; reflexivity).
    cbn [bind]. rewrite feed_one. exact B.
Defined.

(** ** The send queue *)

Lemma slice_from_add : forall (a k : Z) (l : list Z), 0 <= a -> 0 <= k ->
  slice_from (a + k) l = slice_from k (slice_from a l).
Proof.
  intros a k l Ha Hk. unfold slice_from.
  rewrite skipn_skipn, Z2Nat.inj_add by lia. f_equal. lia.
Qed.

Lemma slice_split : forall (k : Z) (l : list Z),
  l = slice_to k l ++ slice_from k l.
Proof.
  intros. unfold slice_to, slice_from. symmetry. apply firstn_skipn.
Qed.

Lemma len_slice_from : forall (k : Z) (l : list Z), 0 <= k <= len l ->
  len (slice_from k l) = len l - k.
Proof.
  intros k l H. unfold slice_from, len in *. rewrite length_skipn. lia.
Qed.

Lemma len_zero_nil : forall (l : list Z), len l <= 0 -> l = [].
Proof.
  intros [|x l] H; [reflexivity|]. rewrite len_cons in H. pose proof (len_nonneg l). lia.
Qed.

(** What the loop of [_send_buffer] leaves, without [send_all]: the wire
    grew by a prefix of the bytes that were to be sent, and what is
    returned is the rest. *)
Lemma send_loop_spec : forall scr w buff a t status w' scr',
  0 <= a -> t = len (slice_from a buff) ->
  _send_buffer_loop scr w buff false a t = (status, w', scr') ->
  exists sent,
    w' = w ++ sent
    /\ match status with
       | Returned None => sent = slice_from a buff
       | Returned (Some rem) => slice_from a buff = sent ++ rem /\ rem <> []
       | Failed _ => exists rest, slice_from a buff = sent ++ rest
       end
    /\ (forallb sound_event scr = true ->
        forallb sound_event scr' = true /\ forall e, status <> Failed e)
    /\ (willing scr = true -> slice_from a buff <> [] -> sent <> []).
Proof.
  induction scr as [|ev scr IH]; intros w buff a t status w' scr' Ha Ht H.
  - cbn [_send_buffer_loop] in H.
    destruct (t >? 0) eqn:Et; inversion H; subst; clear H.
    + exists []. rewrite app_nil_r. repeat split; try discriminate.
      intro E. rewrite E in Et. discriminate Et.
    + exists []. rewrite app_nil_r.
      assert (E : slice_from a buff = []) by (apply len_zero_nil; lia).
      rewrite E. repeat split; try discriminate.
  - cbn [_send_buffer_loop] in H.
    destruct (t >? 0) eqn:Et.
    2:{ inversion H; subst; clear H. exists []. rewrite app_nil_r.
        assert (E : slice_from a buff = []) by (apply len_zero_nil; lia).
        rewrite E. repeat split; try discriminate; try assumption.
        intros _ C. congruence. }
    assert (Hne : slice_from a buff <> []).
    { intro E. rewrite E in Ht. change (len (@nil Z)) with 0 in Ht. lia. }
    destruct ev as [n| | |].
    + (* the transport takes up to n bytes *)
      set (chunk := slice_from a buff) in *.
      set (k := Z.min (Z.of_nat n) (len chunk)) in *.
      pose proof (len_nonneg chunk) as Hc.
      destruct (k =? 0) eqn:Ek.
      * inversion H; subst; clear H. exists []. rewrite app_nil_r.
        split; [reflexivity|]. split; [exists chunk; reflexivity|].
        split.
        -- intro S. cbn [forallb sound_event] in S.
           destruct n as [|n]; [discriminate|]. exfalso.
           apply Z.eqb_eq in Ek. unfold k in Ek. lia.
        -- intros Wl _. cbn [willing] in Wl. destruct n as [|n]; [discriminate|].
           exfalso. apply Z.eqb_eq in Ek. unfold k in Ek. lia.
      * apply Z.eqb_neq in Ek.
        assert (Hk : 0 < k <= len chunk) by (unfold k in *; lia).
        apply IH in H; [|lia|].
        2:{ rewrite slice_from_add by lia. fold chunk.
            rewrite len_slice_from by lia. lia. }
        destruct H as [sent [E1 [E2 [E3 _]]]].
        rewrite slice_from_add in E2 by lia. fold chunk in E2.
        exists (slice_to k chunk ++ sent).
        split; [rewrite E1, app_assoc; reflexivity|].
        split.
        -- destruct status as [[rem|]|e].
           ++ destruct E2 as [E2 Er]. split; [|exact Er].
              rewrite <- app_assoc, <- E2. apply slice_split.
           ++ rewrite E2. symmetry. apply slice_split.
           ++ destruct E2 as [rest E2]. exists rest.
              rewrite <- app_assoc, <- E2. apply slice_split.
        -- split.
           ++ intro S. cbn [forallb] in S. apply andb_prop in S. apply E3, S.
           ++ intros _ _ C. apply app_eq_nil in C. destruct C as [C _].
              assert (L : len (slice_to k chunk) = k).
              { unfold slice_to, len in *. rewrite length_firstn. lia. }
              rewrite C in L. change (len (@nil Z)) with 0 in L. lia.
    + inversion H; subst; clear H. exists []. rewrite app_nil_r.
      split; [reflexivity|]. split; [split; [reflexivity|exact Hne]|]. split.
      * intro S. cbn [forallb] in S. apply andb_prop in S. split; [apply S|discriminate].
      * intros Wl. discriminate Wl.
    + inversion H; subst; clear H. exists []. rewrite app_nil_r.
      split; [reflexivity|]. split; [split; [reflexivity|exact Hne]|]. split.
      * intro S. cbn [forallb] in S. apply andb_prop in S. split; [apply S|discriminate].
      * intros Wl. discriminate Wl.
    + inversion H; subst; clear H. exists []. rewrite app_nil_r.
      split; [reflexivity|]. split; [eexists; reflexivity|]. split.
      * intro S. discriminate S.
      * intros Wl. discriminate Wl.
Qed.

Lemma send_buffer_spec : forall buff c,
  match _send_buffer buff false c with
  | Ok r c' =>
    exists sent,
      wire (client c') = wire (client c) ++ sent
      /\ match r with
         | None => sent = buff
         | Some rem => buff = sent ++ rem /\ rem <> []
         end
      /\ sendq c' = sendq c
      /\ (forallb sound_event (script (client c)) = true ->
          forallb sound_event (script (client c')) = true)
      /\ (willing (script (client c)) = true -> buff <> [] -> sent <> [])
  | Raise e c' =>
    (exists sent rest, wire (client c') = wire (client c) ++ sent /\ buff = sent ++ rest)
    /\ forallb sound_event (script (client c)) = false
  end.
Proof.
  intros buff c. unfold _send_buffer.
  destruct (_send_buffer_loop (script (client c)) (wire (client c)) buff false 0 (len buff))
    as [[status w'] scr'] eqn:E.
  apply send_loop_spec in E; [|lia|reflexivity].
  change (slice_from 0 buff) with buff in E.
  destruct E as [sent [E1 [E2 [E3 E4]]]].
  destruct status as [r|e]; fields.
  - exists sent. split; [exact E1|]. split; [exact E2|]. split; [reflexivity|].
    split; [|exact E4]. intro S. apply E3, S.
  - split.
    + destruct E2 as [rest E2]. exists sent, rest. split; assumption.
    + destruct (forallb sound_event (script (client c))); [|reflexivity].
      exfalso. destruct (E3 eq_refl) as [_ C]. apply (C e). reflexivity.
Qed.

Lemma pending_cons : forall op p q, pending ((op, p) :: q) = p ++ pending q.
Proof. reflexivity. Qed.

Lemma backlog_cons : forall op p q,
  backlog ((op, p) :: q) = (S (List.length p) + backlog q)%nat.
Proof. reflexivity. Qed.

Lemma has_close_cons : forall op p q,
  has_close ((op, p) :: q) = (op =? CLOSE) || has_close q.
Proof. reflexivity. Qed.

Lemma until_close_cons : forall op p q,
  until_close ((op, p) :: q) = if op =? CLOSE then p else p ++ until_close q.
Proof. reflexivity. Qed.

Lemma flush_loop_spec : forall q c,
  sendq c = q ->
  match WebSocketServer.flush_loop q c with
  | Ok _ c' =>
    wire (client c') ++ pending (sendq c') = wire (client c) ++ pending q
    /\ wire (client c') ++ until_close (sendq c') = wire (client c) ++ until_close q
    /\ has_close (sendq c') = has_close q
    /\ (backlog (sendq c') <= backlog q)%nat
    /\ (willing (script (client c)) = true -> q <> [] ->
        (backlog (sendq c') < backlog q)%nat)
  | Raise e c' =>
    (exists rest, wire (client c') ++ rest = wire (client c) ++ pending q)
    /\ (forallb sound_event (script (client c)) = true ->
        wire (client c') = wire (client c) ++ until_close q /\ has_close q = true)
  end.
Proof.
  induction q as [|[op payload] rest IH]; intros c Hq.
  - cbn [WebSocketServer.flush_loop]. rewrite Hq.
    repeat split; try reflexivity; try lia. intros _ C. congruence.
  - cbn [WebSocketServer.flush_loop].
    pose proof (send_buffer_spec payload (set_sendq rest c)) as S.
    destruct (_send_buffer payload false (set_sendq rest c)) as [[rem|] c1|e c1];
      fields.
    + (* part of the frame was taken: its rest goes back to the head *)
      destruct S as [sent [W [[E Er] [Q [_ P]]]]]. rewrite Q. fields.
      rewrite !pending_cons.
      rewrite !backlog_cons, !until_close_cons, !has_close_cons.
      rewrite W, E, <- !app_assoc.
      repeat split.
      * destruct (op =? CLOSE); rewrite <- ?app_assoc; reflexivity.
      * rewrite length_app. lia.
      * intros Wl _.
        assert (Hs : sent <> []).
        { apply P; [exact Wl|]. intro C. rewrite E in C. apply app_eq_nil in C. apply Er, C. }
        rewrite length_app. destruct sent; [congruence|]. simpl. lia.
    + (* the frame left completely *)
      destruct S as [sent [W [E [Q [Sd _]]]]]. subst sent.
      destruct (op =? CLOSE) eqn:Eo.
      * split.
        -- exists (pending rest). rewrite W, pending_cons, app_assoc. reflexivity.
        -- intros _. rewrite !until_close_cons, !has_close_cons. rewrite Eo, W.
           split; reflexivity.
      * specialize (IH c1 Q).
        destruct (WebSocketServer.flush_loop rest c1) as [[] c2|e c2].
        -- destruct IH as [I1 [I2 [I3 [I4 _]]]].
           rewrite pending_cons.
           rewrite !backlog_cons, !until_close_cons, !has_close_cons.
           rewrite Eo, I1, I2, I3, W, <- !app_assoc. cbn [orb].
           repeat split; intros; lia.
        -- destruct IH as [[rest' I1] I2]. split.
           ++ exists rest'. rewrite I1, W, pending_cons, app_assoc. reflexivity.
           ++ intro Sc. destruct (I2 (Sd Sc)) as [I3 I4].
              rewrite !until_close_cons, !has_close_cons. rewrite Eo, I3, I4, W, app_assoc.
              split; reflexivity.
    + (* the transport failed *)
      destruct S as [[sent [rest' [W E]]] U]. split.
      * exists (rest' ++ pending rest).
        rewrite W, pending_cons, E, <- !app_assoc. reflexivity.
      * intro Sc. rewrite Sc in U. discriminate U.
Qed.

Lemma handle_close_wire : forall c,
  wire (client (WebSocketServer._handle_close c)) = wire (client c).
Proof.
  intro c. unfold WebSocketServer._handle_close, client_close, handle_close.
  fields. destruct (handshaked c); reflexivity.
Qed.

Lemma writable_spec : forall scr c,
  match WebSocketServer.writable scr (WebSocketServer.Live c) with
  | WebSocketServer.Live c' =>
    wire (client c') ++ pending (sendq c') = wire (client c) ++ pending (sendq c)
    /\ wire (client c') ++ until_close (sendq c')
       = wire (client c) ++ until_close (sendq c)
    /\ has_close (sendq c') = has_close (sendq c)
    /\ (backlog (sendq c') <= backlog (sendq c))%nat
    /\ (willing scr = true -> sendq c <> [] ->
        (backlog (sendq c') < backlog (sendq c))%nat)
  | WebSocketServer.Evicted c' =>
    (exists rest, wire (client c') ++ rest = wire (client c) ++ pending (sendq c))
    /\ (forallb sound_event scr = true ->
        wire (client c') = wire (client c) ++ until_close (sendq c)
        /\ has_close (sendq c) = true)
  end.
Proof.
  intros scr c. cbn [WebSocketServer.writable]. cbv zeta.
  unfold WebSocketServer.flush.
  set (c0 := set_client (Socket (wire (client c)) scr (sock_closed (client c))) c).
  pose proof (@flush_loop_spec (sendq c0) c0 eq_refl) as S.
  destruct (WebSocketServer.flush_loop (sendq c0) c0) as [[] c1|e c1].
  - exact S.
  - rewrite handle_close_wire. exact S.
Qed.

Lemma evicted_stays : forall scrs c,
  WebSocketServer.writable_turns scrs (WebSocketServer.Evicted c)
  = WebSocketServer.Evicted c.
Proof.
  induction scrs as [|scr scrs IH]; intro c; [reflexivity|].
  cbn [WebSocketServer.writable_turns WebSocketServer.writable]. apply IH.
Qed.

Lemma willing_sound : forall scr, willing scr = true -> forallb sound_event scr = true.
Proof.
  intros [|[[|n]| | |] scr] H; try discriminate H. exact H.
Qed.

Lemma until_close_prefix : forall q, exists rest, until_close q ++ rest = pending q.
Proof.
  induction q as [|[op p] q [rest IH]]; [exists []; reflexivity|].
  rewrite until_close_cons, pending_cons. destruct (op =? CLOSE).
  - exists (pending q). reflexivity.
  - exists rest. rewrite <- app_assoc, IH. reflexivity.
Qed.

Lemma until_close_all : forall q, has_close q = false -> until_close q = pending q.
Proof.
  induction q as [|[op p] q IH]; intro H; [reflexivity|].
  rewrite has_close_cons in H. apply orb_false_iff in H. destruct H as [H1 H2].
  rewrite until_close_cons, pending_cons, H1, IH by exact H2. reflexivity.
Qed.

Lemma backlog_zero : forall q, backlog q = O -> q = [].
Proof.
  intros [|[op p] q] H; [reflexivity|]. rewrite backlog_cons in H. discriminate H.
Qed.

(** Whatever the transport does, what has reached the wire is a prefix
    of what was on the wire followed by the queue in its order. *)
Lemma wire_is_prefix : forall scrs c,
  exists rest,
    wire_of (WebSocketServer.writable_turns scrs (WebSocketServer.Live c)) ++ rest
    = wire (client c) ++ pending (sendq c).
Proof.
  induction scrs as [|scr scrs IH]; intro c.
  - exists (pending (sendq c)). reflexivity.
  - cbn [WebSocketServer.writable_turns].
    pose proof (writable_spec scr c) as S.
    destruct (WebSocketServer.writable scr (WebSocketServer.Live c)) as [c1|c1].
    + destruct S as [S _]. destruct (IH c1) as [rest E]. exists rest.
      rewrite E. exact S.
    + rewrite evicted_stays. destruct S as [S _]. exact S.
Qed.

(** With a transport that takes at least a byte in every turn and never
    fails, the queue up to the end of its first Close frame reaches the
    wire within as many turns as there are bytes and frames to send. *)
Lemma queue_is_delivered : forall scrs c,
  Forall (fun scr => willing scr = true) scrs ->
  (backlog (sendq c) <= List.length scrs)%nat ->
  let s := WebSocketServer.writable_turns scrs (WebSocketServer.Live c) in
  wire_of s = wire (client c) ++ until_close (sendq c)
  /\ (has_close (sendq c) = false ->
      exists c', s = WebSocketServer.Live c' /\ sendq c' = [])
  /\ (has_close (sendq c) = true -> exists c', s = WebSocketServer.Evicted c').
Proof.
  induction scrs as [|scr scrs IH]; intros c Hw Hb s; subst s.
  - simpl in Hb. assert (E : sendq c = []) by (apply backlog_zero; lia).
    cbn [WebSocketServer.writable_turns wire_of]. rewrite E.
    split; [rewrite app_nil_r; reflexivity|]. split; [eauto|discriminate].
  - inversion Hw as [|? ? Hw1 Hw2]; subst.
    cbn [WebSocketServer.writable_turns].
    pose proof (writable_spec scr c) as S.
    destruct (WebSocketServer.writable scr (WebSocketServer.Live c)) as [c1|c1].
    + destruct S as [_ [S2 [S3 [S4 S5]]]].
      assert (Hb1 : (backlog (sendq c1) <= List.length scrs)%nat).
      { destruct (sendq c) as [|f q] eqn:Eq.
        - simpl in S4. lia.
        - specialize (S5 Hw1 ltac:(discriminate)). simpl List.length in Hb. lia. }
      destruct (IH c1 Hw2 Hb1) as [I1 [I2 I3]].
      rewrite I1, S2, <- S3. repeat split; assumption.
    + rewrite evicted_stays. cbn [wire_of].
      destruct S as [_ S]. destruct (S (willing_sound _ Hw1)) as [S1 S2].
      rewrite S1, S2. split; [reflexivity|]. split; [discriminate|eauto].
Qed.

Lemma send_loop_partial : forall k scr' w payload,
  (0 < k < List.length payload)%nat ->
  _send_buffer_loop (Room k :: WouldBlock :: scr') w payload false 0 (len payload)
  = (Returned (Some (skipn k payload)), w ++ firstn k payload, scr').
Proof.
  intros k scr' w payload Hk. cbn [_send_buffer_loop].
  assert (L : len payload = Z.of_nat (List.length payload)) by reflexivity.
  replace (len payload >? 0) with true by (symmetry; rewrite Z.gtb_ltb; apply Z.ltb_lt; lia).
  change (slice_from 0 payload) with payload.
  replace (Z.min (Z.of_nat k) (len payload)) with (Z.of_nat k) by lia.
  replace (Z.of_nat k =? 0) with false by (symmetry; apply Z.eqb_neq; lia).
  replace (len payload - Z.of_nat k >? 0) with true
    by (symmetry; rewrite Z.gtb_ltb; apply Z.ltb_lt; lia).
  unfold slice_from, slice_to. rewrite Z.add_0_l, Nat2Z.id. reflexivity.
Qed.

(** A turn in which the transport takes [k] bytes of the head frame and
    then blocks. *)
Lemma partial_write : forall c op payload rest k scr',
  sendq c = (op, payload) :: rest ->
  (0 < k < List.length payload)%nat ->
  exists c',
    WebSocketServer.writable (Room k :: WouldBlock :: scr') (WebSocketServer.Live c)
    = WebSocketServer.Live c'
    /\ sendq c' = (op, skipn k payload) :: rest
    /\ wire (client c') = wire (client c) ++ firstn k payload.
Proof.
  intros c op payload rest k scr' Hq Hk.
  cbn [WebSocketServer.writable]. cbv zeta. unfold WebSocketServer.flush. fields.
  rewrite Hq. cbn [WebSocketServer.flush_loop]. unfold _send_buffer. fields.
  cbn [wire script sock_closed]. rewrite send_loop_partial by exact Hk.
  eexists. split; [reflexivity|]. split; reflexivity.
Qed.

(** C5 as stated fails: a text frame queued behind a Close frame never
    reaches the wire; once the Close frame has left, the connection is
    evicted. *)
Lemma frame_behind_close_is_dropped :
  let c := state_of (send_message (Str (str_of "a"))
                       (state_of (close 1000 (Str []) conn0))) in
  sendq c = [(CLOSE, [0x88; 0x02; 0x03; 0xE8]); (TEXT, [0x81; 0x01; 0x61])]
  /\ exists c',
       WebSocketServer.writable_turns [[Room 100]; [Room 100]; [Room 100]]
         (WebSocketServer.Live c)
       = WebSocketServer.Evicted c'
       /\ wire (client c') = [0x88; 0x02; 0x03; 0xE8].
Proof.
  split; [reflexivity|]. eexists. split; [vm_compute; reflexivity|reflexivity].
Qed.

(** C5, amended. The send queue is FIFO over (opcode, frame bytes). In a
    turn where the transport takes only a prefix of the head frame and
    then blocks, the rest of the frame goes back to the head of the queue
    and the turn stops. Whatever the transport does, what has reached the
    wire is a prefix of the queued frames in queue order. With a transport
    that takes at least one byte per turn and never fails, every frame up
    to and including the first Close frame is delivered, byte for byte
    and in order; the connection is evicted once a Close frame has left,
    and frames queued behind it are not sent. *)
Theorem send_queue_fifo : forall c scrs,
  Forall (fun scr => willing scr = true) scrs ->
  (backlog (sendq c) <= List.length scrs)%nat ->
  let s := WebSocketServer.writable_turns scrs (WebSocketServer.Live c) in
  wire_of s = wire (client c) ++ until_close (sendq c)
  /\ (has_close (sendq c) = false ->
      until_close (sendq c) = pending (sendq c)
      /\ exists c', s = WebSocketServer.Live c' /\ sendq c' = [])
  /\ (has_close (sendq c) = true -> exists c', s = WebSocketServer.Evicted c')
  /\ (forall op payload rest k scr',
        sendq c = (op, payload) :: rest ->
        (0 < k < List.length payload)%nat ->
        exists c',
          WebSocketServer.writable (Room k :: WouldBlock :: scr') (WebSocketServer.Live c)
          = WebSocketServer.Live c'
          /\ sendq c' = (op, skipn k payload) :: rest
          /\ wire (client c') = wire (client c) ++ firstn k payload)
  /\ (forall scrs', exists rest,
        wire_of (WebSocketServer.writable_turns scrs' (WebSocketServer.Live c)) ++ rest
        = wire (client c) ++ pending (sendq c)).
Proof.
  intros c scrs Hw Hb s.
  destruct (queue_is_delivered c Hw Hb) as [A [B C]]. fold s in A, B, C.
  split; [exact A|]. split.
  - intro H. split; [apply until_close_all, H|apply B, H].
  - split; [exact C|]. split.
    + intros. apply partial_write; assumption.
    + intro scrs'. apply wire_is_prefix.
Qed.

(** Two frames against a transport that takes two bytes in a turn. *)
Lemma send_queue_fifo_witness :
  let c := state_of (send_message (Str (str_of "b"))
                       (state_of (send_message (Bytes [1; 2; 3]) conn0))) in
  wire_of (WebSocketServer.writable_turns (repeat [Room 2; WouldBlock] 10)
             (WebSocketServer.Live c))
  = [0x82; 0x03; 1; 2; 3; 0x81; 0x01; 0x62].
Proof.
  intro c.
  destruct (@send_queue_fifo c (repeat [Room 2; WouldBlock] 10)) as [A _].
  - apply Forall_forall. intros x Hx. apply repeat_spec in Hx. subst x. reflexivity.
  - vm_compute. lia.
  - rewrite A. reflexivity.
Defined.

(** A frame of 10 KiB against a transport that takes 4 KiB in a turn:
    three turns deliver the frame and nothing else, the frame queued
    after it follows in the fourth. *)
Lemma ten_kib_frame_in_three_turns :
  let big := repeat 7 (Z.to_nat 10240) in
  let c := state_of (send_message (Bytes [1; 2; 3])
                       (state_of (send_message (Bytes big) conn0))) in
  let turn := [Room 4096; WouldBlock] in
  wire_of (WebSocketServer.writable_turns [turn; turn] (WebSocketServer.Live c))
  = firstn (Z.to_nat 8192) ([0x82; 126; 0x28; 0x00] ++ big)
  /\ wire_of (WebSocketServer.writable_turns [turn; turn; turn] (WebSocketServer.Live c))
     = [0x82; 126; 0x28; 0x00] ++ big
  /\ wire_of (WebSocketServer.writable_turns [turn; turn; turn; turn]
                (WebSocketServer.Live c))
     = [0x82; 126; 0x28; 0x00] ++ big ++ [0x82; 0x03; 1; 2; 3].
Proof.
  split; [|split]; vm_compute; reflexivity.
Qed.

(** * Further properties *)

(** ** Strict UTF-8, decoded in pieces *)

Lemma resume_push : forall final y c d,
  resume final y (Utf8.push c d) = Utf8.push c (resume final y d).
Proof.
  intros final y c [[s1 r1]|]; [|reflexivity]. cbn [Utf8.push resume].
  destruct (Utf8.decode final (r1 ++ y)) as [[s2 r]|]; reflexivity.
Qed.

Lemma resume_cut_short : forall final y bs,
  resume final y (Utf8.cut_short false bs) = Utf8.decode final (bs ++ y).
Proof.
  intros. cbn [Utf8.cut_short resume].
  destruct (Utf8.decode final (bs ++ y)) as [[s2 r]|]; reflexivity.
Qed.

Lemma bad_second_cases : forall final b0 b1 r1 bs,
  Utf8.bad_second final b0 b1 r1 bs
  = if negb final && (b0 =? 0xED) && Utf8.within 0xA0 0xBF b1
       && match r1 with [] => true | _ :: _ => false end
    then Some ([], bs) else None.
Proof. reflexivity. Qed.

Lemma resume_bad_second : forall final y b0 b1 r1,
  resume final y (Utf8.bad_second false b0 b1 r1 (b0 :: b1 :: r1))
  = Utf8.bad_second final b0 b1 (r1 ++ y) (b0 :: b1 :: r1 ++ y).
Proof.
  intros final y b0 b1 r1. rewrite !bad_second_cases. cbn [negb andb].
  destruct (b0 =? 0xED) eqn:EB;
    [|cbn [andb resume]; rewrite andb_false_r; reflexivity].
  destruct (Utf8.within 0xA0 0xBF b1) eqn:EW;
    [|cbn [andb resume]; rewrite andb_false_r; reflexivity].
  destruct r1 as [|b2 r2];
    [|cbn [andb app resume]; rewrite andb_false_r; reflexivity].
  apply Z.eqb_eq in EB. subst b0. cbn [andb app resume].
  destruct y as [|c y].
  - cbn [Utf8.decode]. change (Utf8.within 0 127 237) with false.
    change (Utf8.lead_class 237) with (Some (2, 0x80, 0x9F)). cbv iota.
    assert (EN : negb (Utf8.within 0x80 0x9F b1) = true).
    { unfold Utf8.within in *. apply andb_prop in EW. destruct EW as [A B].
      apply Z.leb_le in A. apply negb_true_iff, andb_false_iff. right.
      apply Z.leb_gt. lia. }
    rewrite EN, bad_second_cases, EW. change (237 =? 237) with true.
    rewrite andb_true_r. destruct final; reflexivity.
  - cbn [Utf8.decode]. change (Utf8.within 0 127 237) with false.
    change (Utf8.lead_class 237) with (Some (2, 0x80, 0x9F)). cbv iota.
    assert (EN : negb (Utf8.within 0x80 0x9F b1) = true).
    { unfold Utf8.within in *. apply andb_prop in EW. destruct EW as [A B].
      apply Z.leb_le in A. apply negb_true_iff, andb_false_iff. right.
      apply Z.leb_gt. lia. }
    rewrite EN, bad_second_cases. rewrite !andb_false_r. reflexivity.
Qed.

Lemma decode_app_bounded : forall n final x y,
  (List.length x <= n)%nat ->
  Utf8.decode final (x ++ y) = resume final y (Utf8.decode false x).
Proof.
  induction n as [|n IH]; intros final x y Hn.
  - destruct x; [|simpl in Hn; lia]. cbn [app Utf8.decode resume].
    destruct (Utf8.decode final y) as [[s2 r]|]; reflexivity.
  - destruct x as [|b0 r0].
    { cbn [app Utf8.decode resume].
      destruct (Utf8.decode final y) as [[s2 r]|]; reflexivity. }
    simpl in Hn.
    cbn [app Utf8.decode].
    destruct (Utf8.within 0 127 b0) eqn:E0.
    { rewrite resume_push, IH by lia. reflexivity. }
    destruct (Utf8.lead_class b0) as [[[k lo] hi]|] eqn:EL; [|reflexivity].
    destruct r0 as [|b1 r1].
    { rewrite resume_cut_short. cbn [app Utf8.decode]. rewrite E0, EL. reflexivity. }
    cbn [app]. simpl in Hn.
    destruct (negb (Utf8.within lo hi b1)) eqn:E1;
      [rewrite resume_bad_second; reflexivity|].
    destruct (k =? 1) eqn:K1.
    { rewrite resume_push, IH by lia. reflexivity. }
    destruct r1 as [|b2 r2].
    { rewrite resume_cut_short. cbn [app Utf8.decode]. rewrite E0, EL, E1, K1.
      reflexivity. }
    cbn [app]. simpl in Hn.
    destruct (negb (Utf8.is_cont b2)) eqn:E2; [reflexivity|].
    destruct (k =? 2) eqn:K2.
    { rewrite resume_push, IH by lia. reflexivity. }
    destruct r2 as [|b3 r3].
    { rewrite resume_cut_short. cbn [app Utf8.decode]. rewrite E0, EL, E1, K1, E2, K2.
      reflexivity. }
    cbn [app]. simpl in Hn.
    destruct (negb (Utf8.is_cont b3)) eqn:E3; [reflexivity|].
    rewrite resume_push, IH by lia. reflexivity.
Qed.

(** Decoding a string is decoding its first piece, without taking it
    for the end, and going on with what was left and the rest. *)
Lemma decode_app : forall final x y,
  Utf8.decode final (x ++ y) = resume final y (Utf8.decode false x).
Proof.
  intros. apply decode_app_bounded with (n := List.length x). lia.
Qed.

(** ** Strict UTF-8, encoded back *)

Ltac zbool :=
  repeat match goal with
         | |- context [?a <=? ?b] =>
           first [ replace (a <=? b) with true by (symmetry; apply Z.leb_le; lia)
                 | replace (a <=? b) with false by (symmetry; apply Z.leb_gt; lia) ]
         | |- context [?a <? ?b] =>
           first [ replace (a <? b) with true by (symmetry; apply Z.ltb_lt; lia)
                 | replace (a <? b) with false by (symmetry; apply Z.ltb_ge; lia) ]
         | |- context [?a =? ?b] =>
           first [ replace (a =? b) with true by (symmetry; apply Z.eqb_eq; lia)
                 | replace (a =? b) with false by (symmetry; apply Z.eqb_neq; lia) ]
         end.

Lemma within_spec : forall lo hi b, Utf8.within lo hi b = true <-> lo <= b <= hi.
Proof.
  intros. unfold Utf8.within. rewrite andb_true_iff, Z.leb_le, Z.leb_le. tauto.
Qed.

Lemma is_cont_spec : forall b, Utf8.is_cont b = true <-> 0x80 <= b <= 0xBF.
Proof.
  intros. unfold Utf8.is_cont. rewrite andb_true_iff, Z.leb_le, Z.leb_le. tauto.
Qed.

(** The lead bytes and what may follow each. *)
Lemma lead_class_spec : forall b0 k lo hi,
  Utf8.lead_class b0 = Some (k, lo, hi) ->
  (k = 1 /\ 0xC2 <= b0 <= 0xDF /\ lo = 0x80 /\ hi = 0xBF)
  \/ (k = 2 /\ 0xE0 <= b0 <= 0xEF /\ 0x80 <= lo /\ hi <= 0xBF
      /\ (b0 = 0xE0 -> lo = 0xA0) /\ (b0 = 0xED -> hi = 0x9F))
  \/ (k = 3 /\ 0xF0 <= b0 <= 0xF4 /\ 0x80 <= lo /\ hi <= 0xBF
      /\ (b0 = 0xF0 -> lo = 0x90) /\ (b0 = 0xF4 -> hi = 0x8F)).
Proof.
  intros b0 k lo hi H. unfold Utf8.lead_class, Utf8.within in H.
  repeat match type of H with
         | (if ?c then _ else _) = _ => destruct c eqn:?
         end;
    inversion H; subst; clear H;
    repeat match goal with
           | E : (_ && _) = true |- _ => apply andb_prop in E; destruct E
           | E : (_ && _) = false |- _ => apply andb_false_iff in E
           | E : (_ <=? _) = true |- _ => apply Z.leb_le in E
           | E : (_ <=? _) = false |- _ => apply Z.leb_gt in E
           | E : (_ =? _) = true |- _ => apply Z.eqb_eq in E
           | E : (_ =? _) = false |- _ => apply Z.eqb_neq in E
           end;
    lia.
Qed.

Lemma encode_cp_2 : forall b0 b1,
  0xC2 <= b0 <= 0xDF -> 0x80 <= b1 <= 0xBF ->
  Utf8.encode_cp ((b0 - 0xC0) * 64 + (b1 - 0x80)) = Some [b0; b1].
Proof.
  intros b0 b1 H0 H1. unfold Utf8.encode_cp, Utf8.within.
  set (c := (b0 - 0xC0) * 64 + (b1 - 0x80)).
  assert (Hc : 0x80 <= c < 0x800) by (unfold c; lia).
  assert (D : c / 64 = b0 - 0xC0 /\ c mod 64 = b1 - 0x80).
  { unfold c. split.
    - symmetry. apply Z.div_unique with (r := b1 - 0x80); lia.
    - symmetry. apply Z.mod_unique with (q := b0 - 0xC0); lia. }
  destruct D as [D1 D2]. rewrite D1, D2. clearbody c. zbool.
  do 3 f_equal; lia.
Qed.

Lemma encode_cp_3 : forall b0 b1 b2,
  0xE0 <= b0 <= 0xEF -> 0x80 <= b1 <= 0xBF -> 0x80 <= b2 <= 0xBF ->
  (b0 = 0xE0 -> 0xA0 <= b1) -> (b0 = 0xED -> b1 <= 0x9F) ->
  Utf8.encode_cp ((b0 - 0xE0) * 4096 + (b1 - 0x80) * 64 + (b2 - 0x80))
  = Some [b0; b1; b2].
Proof.
  intros b0 b1 b2 H0 H1 H2 Ha Hb. unfold Utf8.encode_cp, Utf8.within.
  set (c := (b0 - 0xE0) * 4096 + (b1 - 0x80) * 64 + (b2 - 0x80)).
  assert (Hc : 0x800 <= c < 0x10000) by (unfold c; lia).
  assert (D0 : c / 4096 = b0 - 0xE0).
  { unfold c. symmetry.
    apply Z.div_unique with (r := (b1 - 0x80) * 64 + (b2 - 0x80)); lia. }
  assert (D1 : c / 64 = (b0 - 0xE0) * 64 + (b1 - 0x80)).
  { unfold c. symmetry. apply Z.div_unique with (r := b2 - 0x80); lia. }
  assert (D2 : c mod 64 = b2 - 0x80).
  { unfold c. symmetry.
    apply Z.mod_unique with (q := (b0 - 0xE0) * 64 + (b1 - 0x80)); lia. }
  assert (D3 : (c / 64) mod 64 = b1 - 0x80).
  { rewrite D1. symmetry. apply Z.mod_unique with (q := b0 - 0xE0); lia. }
  assert (Hs : c < 0xD800 \/ 0xDFFF < c) by (unfold c; lia).
  rewrite D0, D2, D3. clearbody c.
  destruct Hs; zbool; cbn [andb]; do 4 f_equal; lia.
Qed.

Lemma encode_cp_4 : forall b0 b1 b2 b3,
  0xF0 <= b0 <= 0xF4 -> 0x80 <= b1 <= 0xBF -> 0x80 <= b2 <= 0xBF -> 0x80 <= b3 <= 0xBF ->
  (b0 = 0xF0 -> 0x90 <= b1) -> (b0 = 0xF4 -> b1 <= 0x8F) ->
  Utf8.encode_cp ((b0 - 0xF0) * 262144 + (b1 - 0x80) * 4096 + (b2 - 0x80) * 64
                  + (b3 - 0x80))
  = Some [b0; b1; b2; b3].
Proof.
  intros b0 b1 b2 b3 H0 H1 H2 H3 Ha Hb. unfold Utf8.encode_cp, Utf8.within.
  set (c := (b0 - 0xF0) * 262144 + (b1 - 0x80) * 4096 + (b2 - 0x80) * 64 + (b3 - 0x80)).
  assert (Hc : 0x10000 <= c < 0x110000) by (unfold c; lia).
  assert (D0 : c / 262144 = b0 - 0xF0).
  { unfold c. symmetry.
    apply Z.div_unique
      with (r := (b1 - 0x80) * 4096 + (b2 - 0x80) * 64 + (b3 - 0x80)); lia. }
  assert (D1 : c / 4096 = (b0 - 0xF0) * 64 + (b1 - 0x80)).
  { unfold c. symmetry.
    apply Z.div_unique with (r := (b2 - 0x80) * 64 + (b3 - 0x80)); lia. }
  assert (D2 : c / 64 = (b0 - 0xF0) * 4096 + (b1 - 0x80) * 64 + (b2 - 0x80)).
  { unfold c. symmetry. apply Z.div_unique with (r := b3 - 0x80); lia. }
  assert (D3 : c mod 64 = b3 - 0x80).
  { unfold c. symmetry.
    apply Z.mod_unique
      with (q := (b0 - 0xF0) * 4096 + (b1 - 0x80) * 64 + (b2 - 0x80)); lia. }
  assert (D4 : (c / 64) mod 64 = b2 - 0x80).
  { rewrite D2. symmetry.
    apply Z.mod_unique with (q := (b0 - 0xF0) * 64 + (b1 - 0x80)); lia. }
  assert (D5 : (c / 4096) mod 64 = b1 - 0x80).
  { rewrite D1. symmetry. apply Z.mod_unique with (q := b0 - 0xF0); lia. }
  rewrite D0, D3, D4, D5. clearbody c. zbool. cbn [andb].
  do 5 f_equal; lia.
Qed.

Lemma encode_push : forall (Q : list Z -> Prop) c b r d,
  Utf8.encode_cp c = Some b ->
  (forall s' r', d = Some (s', r') ->
     (exists enc, Utf8.encode s' = Some enc /\ r = enc ++ r') /\ Q r') ->
  forall s0 r0, Utf8.push c d = Some (s0, r0) ->
  (exists enc, Utf8.encode s0 = Some enc /\ b ++ r = enc ++ r0) /\ Q r0.
Proof.
  intros Q c b r d Hc Hd s0 r0 H. destruct d as [[s' r']|]; [|discriminate].
  cbn [Utf8.push] in H. inversion H; subst.
  destruct (Hd _ _ eq_refl) as [[enc [E1 E2]] HQ]. split; [|exact HQ].
  exists (b ++ enc). cbn [Utf8.encode]. rewrite Hc, E1. split; [reflexivity|].
  rewrite E2, app_assoc. reflexivity.
Qed.

(** What was decoded encodes back to the bytes that were consumed, and
    a final decoding consumes them all. *)
Lemma encode_decode_bounded : forall n final bs s r,
  (List.length bs <= n)%nat ->
  Utf8.decode final bs = Some (s, r) ->
  (exists enc, Utf8.encode s = Some enc /\ bs = enc ++ r)
  /\ (final = true -> r = []).
Proof.
  induction n as [|n IH]; intros final bs s r Hn H.
  - destruct bs; [|simpl in Hn; lia]. inversion H; subst.
    split; [exists []; split; reflexivity|reflexivity].
  - destruct bs as [|b0 r0].
    { inversion H; subst. split; [exists []; split; reflexivity|reflexivity]. }
    simpl in Hn. cbn [Utf8.decode] in H.
    destruct (Utf8.within 0 127 b0) eqn:E0.
    { apply within_spec in E0.
      apply (@encode_push (fun r' => final = true -> r' = []) b0 [b0] r0
               (Utf8.decode final r0)) in H; [exact H| |].
      - unfold Utf8.encode_cp. zbool. reflexivity.
      - intros s' r' E. apply (IH final); [lia|exact E]. }
    destruct (Utf8.lead_class b0) as [[[k lo] hi]|] eqn:EL; [|discriminate].
    apply lead_class_spec in EL.
    assert (Cut : forall x, Utf8.cut_short final x = Some (s, r) ->
                            (exists enc, Utf8.encode s = Some enc /\ x = enc ++ r)
                            /\ (final = true -> r = [])).
    { intros x Hx. unfold Utf8.cut_short in Hx. destruct final; [discriminate|].
      inversion Hx. split; [exists []; split; reflexivity|discriminate]. }
    destruct r0 as [|b1 r1]; [apply Cut, H|].
    simpl in Hn.
    destruct (negb (Utf8.within lo hi b1)) eqn:E1.
    { rewrite bad_second_cases in H.
      destruct final; cbn [negb andb] in H; [discriminate H|].
      destruct ((b0 =? 237) && Utf8.within 160 191 b1
                && match r1 with [] => true | _ :: _ => false end);
        [|discriminate H].
      inversion H. split; [exists []; split; reflexivity|discriminate]. }
    apply negb_false_iff, within_spec in E1.
    destruct (k =? 1) eqn:K1.
    { apply Z.eqb_eq in K1.
      apply (@encode_push (fun r' => final = true -> r' = []) _ [b0; b1] r1
               (Utf8.decode final r1)) in H; [exact H| |].
      - apply encode_cp_2; lia.
      - intros s' r' E. apply (IH final); [lia|exact E]. }
    apply Z.eqb_neq in K1.
    destruct r1 as [|b2 r2]; [apply Cut, H|].
    simpl in Hn.
    destruct (negb (Utf8.is_cont b2)) eqn:E2; [discriminate|].
    apply negb_false_iff, is_cont_spec in E2.
    destruct (k =? 2) eqn:K2.
    { apply Z.eqb_eq in K2.
      apply (@encode_push (fun r' => final = true -> r' = []) _ [b0; b1; b2] r2
               (Utf8.decode final r2)) in H; [exact H| |].
      - apply encode_cp_3; lia.
      - intros s' r' E. apply (IH final); [lia|exact E]. }
    apply Z.eqb_neq in K2.
    destruct r2 as [|b3 r3]; [apply Cut, H|].
    simpl in Hn.
    destruct (negb (Utf8.is_cont b3)) eqn:E3; [discriminate|].
    apply negb_false_iff, is_cont_spec in E3.
    apply (@encode_push (fun r' => final = true -> r' = []) _ [b0; b1; b2; b3] r3
             (Utf8.decode final r3)) in H; [exact H| |].
    + apply encode_cp_4; lia.
    + intros s' r' E. apply (IH final); [lia|exact E].
Qed.

(** Bytes that decode strictly are the encoding of what they decode to. *)
Lemma encode_decode_strict : forall bs s,
  Utf8.decode_strict bs = Some s -> Utf8.encode s = Some bs.
Proof.
  intros bs s H. unfold Utf8.decode_strict in H.
  destruct (Utf8.decode true bs) as [[s' r]|] eqn:E; [|discriminate].
  inversion H; subst.
  destruct (@encode_decode_bounded (List.length bs) true bs s r (le_n _) E)
    as [[enc [E1 E2]] R].
  rewrite (R eq_refl), app_nil_r in E2. subst. exact E1.
Qed.

(** ** Strict UTF-8, decoded back *)

Ltac lead_tac :=
  intros; unfold Utf8.lead_class, Utf8.within;
  repeat match goal with
         | |- context [?a <=? ?b] => destruct (Z.leb_spec a b); try lia
         | |- context [?a =? ?b] => destruct (Z.eqb_spec a b); try lia
         end;
  cbn [andb]; try reflexivity; try lia.

Lemma lead_class_C : forall b0, 0xC2 <= b0 <= 0xDF ->
  Utf8.lead_class b0 = Some (1, 0x80, 0xBF).
Proof. lead_tac. Qed.

Lemma lead_class_E0 : Utf8.lead_class 0xE0 = Some (2, 0xA0, 0xBF).
Proof. reflexivity. Qed.

Lemma lead_class_E1 : forall b0, 0xE1 <= b0 <= 0xEC ->
  Utf8.lead_class b0 = Some (2, 0x80, 0xBF).
Proof. lead_tac. Qed.

Lemma lead_class_ED : Utf8.lead_class 0xED = Some (2, 0x80, 0x9F).
Proof. reflexivity. Qed.

Lemma lead_class_EE : forall b0, 0xEE <= b0 <= 0xEF ->
  Utf8.lead_class b0 = Some (2, 0x80, 0xBF).
Proof. lead_tac. Qed.

Lemma lead_class_F0 : Utf8.lead_class 0xF0 = Some (3, 0x90, 0xBF).
Proof. reflexivity. Qed.

Lemma lead_class_F1 : forall b0, 0xF1 <= b0 <= 0xF3 ->
  Utf8.lead_class b0 = Some (3, 0x80, 0xBF).
Proof. lead_tac. Qed.

Lemma lead_class_F4 : Utf8.lead_class 0xF4 = Some (3, 0x80, 0x8F).
Proof. reflexivity. Qed.

Lemma within_true : forall lo hi b, lo <= b <= hi -> Utf8.within lo hi b = true.
Proof. intros. apply within_spec. assumption. Qed.

Lemma within_false : forall lo hi b, b < lo \/ hi < b -> Utf8.within lo hi b = false.
Proof.
  intros lo hi b H. unfold Utf8.within. apply andb_false_iff.
  destruct H; [left|right]; apply Z.leb_gt; lia.
Qed.

Lemma is_cont_true : forall b, 0x80 <= b <= 0xBF -> Utf8.is_cont b = true.
Proof. intros. apply is_cont_spec. assumption. Qed.

(** The decoder on a lead byte [b0] of class [(k, lo, hi)] followed by
    continuation bytes in range. *)
Lemma decode_2 : forall final b0 b1 y,
  0xC2 <= b0 <= 0xDF -> 0x80 <= b1 <= 0xBF ->
  Utf8.decode final (b0 :: b1 :: y)
  = Utf8.push ((b0 - 0xC0) * 64 + (b1 - 0x80)) (Utf8.decode final y).
Proof.
  intros final b0 b1 y H0 H1. cbn [Utf8.decode].
  rewrite (@within_false 0 0x7F b0) by lia. rewrite lead_class_C by lia.
  rewrite (@within_true 0x80 0xBF b1) by lia. reflexivity.
Qed.

Lemma decode_3 : forall final b0 b1 b2 y,
  0xE0 <= b0 <= 0xEF -> 0x80 <= b1 <= 0xBF -> 0x80 <= b2 <= 0xBF ->
  (b0 = 0xE0 -> 0xA0 <= b1) -> (b0 = 0xED -> b1 <= 0x9F) ->
  Utf8.decode final (b0 :: b1 :: b2 :: y)
  = Utf8.push ((b0 - 0xE0) * 4096 + (b1 - 0x80) * 64 + (b2 - 0x80))
              (Utf8.decode final y).
Proof.
  intros final b0 b1 b2 y H0 H1 H2 Ha Hb. cbn [Utf8.decode].
  rewrite (@within_false 0 0x7F b0) by lia.
  assert (C : b0 = 0xE0 \/ 0xE1 <= b0 <= 0xEC \/ b0 = 0xED \/ 0xEE <= b0 <= 0xEF) by lia.
  destruct C as [C|[C|[C|C]]].
  - subst b0. rewrite lead_class_E0, (@within_true 0xA0 0xBF b1) by lia.
    rewrite is_cont_true by lia. reflexivity.
  - rewrite lead_class_E1, (@within_true 0x80 0xBF b1) by lia.
    rewrite is_cont_true by lia. reflexivity.
  - subst b0. rewrite lead_class_ED, (@within_true 0x80 0x9F b1) by lia.
    rewrite is_cont_true by lia. reflexivity.
  - rewrite lead_class_EE, (@within_true 0x80 0xBF b1) by lia.
    rewrite is_cont_true by lia. reflexivity.
Qed.

Lemma decode_4 : forall final b0 b1 b2 b3 y,
  0xF0 <= b0 <= 0xF4 -> 0x80 <= b1 <= 0xBF -> 0x80 <= b2 <= 0xBF -> 0x80 <= b3 <= 0xBF ->
  (b0 = 0xF0 -> 0x90 <= b1) -> (b0 = 0xF4 -> b1 <= 0x8F) ->
  Utf8.decode final (b0 :: b1 :: b2 :: b3 :: y)
  = Utf8.push ((b0 - 0xF0) * 262144 + (b1 - 0x80) * 4096 + (b2 - 0x80) * 64
               + (b3 - 0x80))
              (Utf8.decode final y).
Proof.
  intros final b0 b1 b2 b3 y H0 H1 H2 H3 Ha Hb. cbn [Utf8.decode].
  rewrite (@within_false 0 0x7F b0) by lia.
  assert (C : b0 = 0xF0 \/ 0xF1 <= b0 <= 0xF3 \/ b0 = 0xF4) by lia.
  destruct C as [C|[C|C]].
  - subst b0. rewrite lead_class_F0, (@within_true 0x90 0xBF b1) by lia.
    rewrite !is_cont_true by lia. reflexivity.
  - rewrite lead_class_F1, (@within_true 0x80 0xBF b1) by lia.
    rewrite !is_cont_true by lia. reflexivity.
  - subst b0. rewrite lead_class_F4, (@within_true 0x80 0x8F b1) by lia.
    rewrite !is_cont_true by lia. reflexivity.
Qed.

Lemma some_eq : forall (A : Type) (x y : A), Some x = Some y -> x = y.
Proof. intros A x y H. congruence. Qed.

Lemma decode_encode_cp : forall final c b y,
  Utf8.encode_cp c = Some b ->
  Utf8.decode final (b ++ y) = Utf8.push c (Utf8.decode final y).
Proof.
  intros final c b y H. unfold Utf8.encode_cp in H.
  destruct (Z.ltb_spec c 0); [discriminate|].
  destruct (Z.ltb_spec c 0x80).
  { apply some_eq in H. subst b. rewrite <- !app_comm_cons, app_nil_l.
    cbn [Utf8.decode]. rewrite (@within_true 0 0x7F c) by lia. reflexivity. }
  pose proof (Z.div_mod c 64 ltac:(lia)) as Dc.
  pose proof (Z.mod_pos_bound c 64 ltac:(lia)) as Mc.
  destruct (Z.ltb_spec c 0x800).
  { apply some_eq in H. subst b. rewrite <- !app_comm_cons, app_nil_l.
    set (q := c / 64) in *. set (m := c mod 64) in *. clearbody q m.
    rewrite decode_2 by lia. f_equal. lia. }
  pose proof (Z.div_mod (c / 64) 64 ltac:(lia)) as Dq.
  pose proof (Z.mod_pos_bound (c / 64) 64 ltac:(lia)) as Mq.
  assert (Q2 : c / 64 / 64 = c / 4096) by (rewrite Z.div_div by lia; reflexivity).
  rewrite Q2 in Dq.
  unfold Utf8.within in H.
  destruct (Z.ltb_spec c 0x10000).
  { assert (Hs : c < 0xD800 \/ 0xDFFF < c).
    { destruct (0xD800 <=? c) eqn:S1; [|apply Z.leb_gt in S1; lia].
      destruct (c <=? 0xDFFF) eqn:S2; [|apply Z.leb_gt in S2; lia].
      cbn [andb] in H. discriminate H. }
    replace ((0xD800 <=? c) && (c <=? 0xDFFF)) with false in H
      by (symmetry; apply andb_false_iff; destruct Hs;
          [left; apply Z.leb_gt|right; apply Z.leb_gt]; lia).
    apply some_eq in H. subst b. rewrite <- !app_comm_cons, app_nil_l.
    set (q := c / 64) in *. set (m := c mod 64) in *.
    set (q1 := c / 4096) in *. set (m1 := q mod 64) in *. clearbody q m q1 m1.
    rewrite decode_3 by lia. f_equal. lia. }
  replace ((0xD800 <=? c) && (c <=? 0xDFFF)) with false in H
    by (symmetry; apply andb_false_iff; right; apply Z.leb_gt; lia).
  destruct (Z.ltb_spec c 0x110000); [|discriminate].
  apply some_eq in H. subst b. rewrite <- !app_comm_cons, app_nil_l.
  pose proof (Z.div_mod (c / 4096) 64 ltac:(lia)) as Dr.
  pose proof (Z.mod_pos_bound (c / 4096) 64 ltac:(lia)) as Mr.
  assert (Q3 : c / 4096 / 64 = c / 262144) by (rewrite Z.div_div by lia; reflexivity).
  rewrite Q3 in Dr.
  set (q := c / 64) in *. set (m := c mod 64) in *.
  set (q1 := c / 4096) in *. set (m1 := q mod 64) in *.
  set (q2 := c / 262144) in *. set (m2 := q1 mod 64) in *.
  clearbody q m q1 m1 q2 m2.
  rewrite decode_4 by lia. f_equal. lia.
Qed.

(** The encoding of a string decodes strictly to the string. *)
Lemma decode_encode : forall s bs,
  Utf8.encode s = Some bs -> Utf8.decode_strict bs = Some s.
Proof.
  intros s bs H. unfold Utf8.decode_strict.
  assert (G : Utf8.decode true bs = Some (s, [])).
  { revert bs H. induction s as [|c s IH]; intros bs H.
    - inversion H; subst. reflexivity.
    - cbn [Utf8.encode] in H.
      destruct (Utf8.encode_cp c) as [b|] eqn:Ec; [|discriminate].
      destruct (Utf8.encode s) as [bs'|]; [|discriminate].
      inversion H; subst.
      rewrite (@decode_encode_cp true c b bs' Ec), (IH bs' eq_refl). reflexivity. }
  rewrite G. reflexivity.
Qed.

(** ** Frames handed to [_handle_packet] *)

Ltac zconst :=
  repeat match goal with
         | |- context [Z.eqb ?a ?b] =>
           let v := eval vm_compute in (Z.eqb a b) in
           lazymatch v with
           | true => change (Z.eqb a b) with true
           | false => change (Z.eqb a b) with false
           end
         end;
  cbn [orb andb negb]; cbv iota.

Ltac observe := unfold rearm, handle, frame_read; fields.

Lemma dispatch_rearm : forall d, dispatch d = finally (_handle_packet d) rearm.
Proof. reflexivity. Qed.

Lemma not_gt : forall a b, a <= b -> (a >? b) = false.
Proof. intros. rewrite Z.gtb_ltb. apply Z.ltb_ge. lia. Qed.

Lemma is_gt : forall a b, b < a -> (a >? b) = true.
Proof. intros. rewrite Z.gtb_ltb. apply Z.ltb_lt. lia. Qed.

Lemma handle_unknown : forall d,
  py_in (opcode d) [STREAM; TEXT; BINARY; CLOSE; PING; PONG] = false ->
  _handle_packet d = Raise (Exception "unknown opcode") d.
Proof.
  intros d H. unfold py_in in H. cbn [existsb] in H.
  repeat (apply orb_false_iff in H; destruct H as [? H]).
  unfold _handle_packet. cbv zeta.
  repeat match goal with E : (opcode d =? _) = false |- _ => rewrite E; clear E end.
  reflexivity.
Qed.

Lemma handle_pong : forall d p,
  opcode d = PONG -> fin d = 0x80 -> data d = Bytes p -> len p <= 125 ->
  _handle_packet d = Ok tt d.
Proof.
  intros d p Ho Hf Hd Hl. unfold _handle_packet. rewrite Ho, Hf, Hd. cbv zeta.
  zconst. cbn [data_len]. rewrite not_gt by exact Hl. reflexivity.
Qed.

Lemma handle_control_long : forall d p,
  opcode d = PONG \/ opcode d = PING -> data d = Bytes p -> 125 < len p ->
  _handle_packet d = Raise (Exception "control frame length can not be > 125") d.
Proof.
  intros d p Ho Hd Hl. unfold _handle_packet. cbv zeta. rewrite Hd.
  destruct Ho as [Ho|Ho]; rewrite Ho; zconst; cbn [data_len];
    rewrite is_gt by exact Hl; reflexivity.
Qed.

(** A data frame that is a message of its own. *)
Lemma handle_binary : forall d p,
  opcode d = BINARY -> fin d = 0x80 -> data d = Bytes p -> frag_start d = false ->
  _handle_packet d = Ok tt (handle d).
Proof.
  intros d p Ho Hf Hd Hs. unfold _handle_packet. rewrite Ho, Hf, Hd, Hs. cbv zeta.
  zconst. reflexivity.
Qed.

Lemma handle_text : forall d p,
  opcode d = TEXT -> fin d = 0x80 -> data d = Bytes p -> frag_start d = false ->
  _handle_packet d
  = match Utf8.decode_strict p with
    | None => Raise (Exception "invalid utf-8 payload") d
    | Some s => Ok tt (handle (set_data (Str s) d))
    end.
Proof.
  intros d p Ho Hf Hd Hs. unfold _handle_packet. rewrite Ho, Hf, Hd, Hs. cbv zeta.
  zconst. reflexivity.
Qed.

Lemma handle_data_interleaved : forall d p,
  opcode d = TEXT \/ opcode d = BINARY -> fin d = 0x80 -> data d = Bytes p ->
  frag_start d = true ->
  _handle_packet d = Raise (Exception "fragmentation protocol error") d.
Proof.
  intros d p Ho Hf Hd Hs. unfold _handle_packet. cbv zeta. rewrite Hf, Hd, Hs.
  destruct Ho as [Ho|Ho]; rewrite Ho; zconst; reflexivity.
Qed.

Lemma handle_continuation_alone : forall d p,
  opcode d = STREAM -> fin d = 0 \/ fin d = 0x80 -> data d = Bytes p ->
  frag_start d = false ->
  _handle_packet d = Raise (Exception "fragmentation protocol error") d.
Proof.
  intros d p Ho Hf Hd Hs. unfold _handle_packet. cbv zeta. rewrite Ho, Hd, Hs.
  destruct Hf as [Hf|Hf]; rewrite Hf; zconst; reflexivity.
Qed.

Lemma wire_frame_some : forall b1 key w, len w < 2 ^ 64 ->
  exists bytes, wire_frame b1 key w = Some bytes.
Proof.
  intros b1 key w H. pose proof (len_nonneg w).
  destruct (@length_field_some (len w) ltac:(lia)) as [l7 [ext LF]].
  unfold wire_frame. rewrite LF. destruct key; eauto.
Qed.

(** A well-formed frame is read up to its last byte and handed over. *)
Lemma read_frame : forall self b1 key w,
  state self = HEADERB1 ->
  Z.land b1 0x70 = 0 ->
  (forall k, key = Some k -> List.length k = 4%nat) ->
  (Z.land b1 0x0F =? PING) && (len w >? 125) = false ->
  len w < maxpayload self ->
  len w < 2 ^ 64 ->
  exists bytes,
    wire_frame b1 key w = Some bytes
    /\ feed bytes self = finally (_handle_packet (frame_read b1 key w self)) rearm.
Proof.
  intros self b1 key w Hs Hr Hk Hp Hm H64.
  destruct (@wire_frame_some b1 key w H64) as [bytes W]. exists bytes.
  split; [exact W|]. rewrite <- dispatch_rearm. apply feed_wire_frame; assumption.
Qed.

Lemma xor_mask_involutive : forall k p i, xor_mask k i (xor_mask k i p) = p.
Proof.
  intros k p. induction p as [|b p IH]; intro i; [reflexivity|].
  cbn [xor_mask]. rewrite IH, Z.lxor_assoc, Z.lxor_nilpotent, Z.lxor_0_r. reflexivity.
Qed.

Lemma unmasked_involutive : forall key p, unmasked key (unmasked key p) = p.
Proof.
  intros [k|] p; [apply xor_mask_involutive|reflexivity].
Qed.

(** X1. A final binary frame, masked by its sender or not, is handed to
    [handle] with the payload the sender masked. *)
Theorem binary_message_delivered : forall self key p,
  state self = HEADERB1 ->
  frag_start self = false ->
  (forall k, key = Some k -> List.length k = 4%nat) ->
  len p < maxpayload self ->
  len p < 2 ^ 64 ->
  exists bytes s,
    wire_frame 0x82 key (unmasked key p) = Some bytes
    /\ feed bytes self = Ok tt s
    /\ hooks s = hooks self ++ [Handle (Bytes p)]
    /\ state s = HEADERB1 /\ sendq s = sendq self /\ closed s = closed self.
Proof.
  intros self key p Hs Hf Hk Hm H64.
  destruct (@read_frame self 0x82 key (unmasked key p)) as [bytes [W F]];
    try assumption; try reflexivity; try (rewrite len_unmasked; assumption).
  exists bytes. eexists. split; [exact W|]. rewrite F.
  rewrite (@handle_binary _ (unmasked key (unmasked key p)));
    try reflexivity; try assumption.
  split; [reflexivity|]. cbn [finally]. observe.
  rewrite unmasked_involutive. repeat split.
Qed.

Lemma binary_message_delivered_witness :
  exists bytes s,
    wire_frame 0x82 (Some [9; 8; 7; 6]) (unmasked (Some [9; 8; 7; 6]) [1; 2; 3])
    = Some bytes
    /\ feed bytes conn0 = Ok tt s
    /\ hooks s = hooks conn0 ++ [Handle (Bytes [1; 2; 3])]
    /\ state s = HEADERB1 /\ sendq s = sendq conn0 /\ closed s = closed conn0.
Proof.
  apply (@binary_message_delivered conn0 (Some [9; 8; 7; 6]) [1; 2; 3]);
    try reflexivity.
  intros k E. inversion E. reflexivity.
Defined.

(** X2. A final text frame is handed to [handle] as the string its
    payload decodes to; a payload that is not strict UTF-8 fails the
    connection and [handle] is not called. *)
Theorem text_message_decoded : forall self key p,
  state self = HEADERB1 ->
  frag_start self = false ->
  (forall k, key = Some k -> List.length k = 4%nat) ->
  len p < maxpayload self ->
  len p < 2 ^ 64 ->
  exists bytes s,
    wire_frame 0x81 key (unmasked key p) = Some bytes
    /\ state s = HEADERB1 /\ sendq s = sendq self
    /\ match Utf8.decode_strict p with
       | Some text =>
         feed bytes self = Ok tt s /\ hooks s = hooks self ++ [Handle (Str text)]
       | None =>
         feed bytes self = Raise (Exception "invalid utf-8 payload") s
         /\ hooks s = hooks self
       end.
Proof.
  intros self key p Hs Hf Hk Hm H64.
  destruct (@read_frame self 0x81 key (unmasked key p)) as [bytes [W F]];
    try assumption; try reflexivity; try (rewrite len_unmasked; assumption).
  exists bytes. rewrite F.
  rewrite (@handle_text _ (unmasked key (unmasked key p)));
    try reflexivity; try assumption.
  rewrite unmasked_involutive.
  destruct (Utf8.decode_strict p) as [text|]; cbn [finally].
  - exists (rearm (handle (set_data (Str text)
                             (frame_read 0x81 key (unmasked key p) self)))).
    split; [exact W|]. repeat split.
  - exists (rearm (frame_read 0x81 key (unmasked key p) self)).
    split; [exact W|]. repeat split.
Qed.

Lemma text_message_decoded_witness :
  exists bytes s,
    wire_frame 0x81 None (unmasked None [0xE2; 0x82; 0xAC]) = Some bytes
    /\ state s = HEADERB1 /\ sendq s = sendq conn0
    /\ feed bytes conn0 = Ok tt s /\ hooks s = hooks conn0 ++ [Handle (Str [0x20AC])].
Proof.
  destruct (@text_message_decoded conn0 None [0xE2; 0x82; 0xAC])
    as [bytes [s [W [A [B C]]]]]; try reflexivity; try discriminate.
  exists bytes, s. repeat split; try assumption; apply C.
Defined.

(** X3. A frame whose opcode is none of 0, 1, 2, 8, 9, 10 is read to its
    last byte and then refused; nothing is queued and no hook is called. *)
Theorem reserved_opcode_refused : forall self b1 key w,
  state self = HEADERB1 ->
  Z.land b1 0x70 = 0 ->
  py_in (Z.land b1 0x0F) [STREAM; TEXT; BINARY; CLOSE; PING; PONG] = false ->
  (forall k, key = Some k -> List.length k = 4%nat) ->
  len w < maxpayload self ->
  len w < 2 ^ 64 ->
  exists bytes s,
    wire_frame b1 key w = Some bytes
    /\ feed bytes self = Raise (Exception "unknown opcode") s
    /\ same_connection s self.
Proof.
  intros self b1 key w Hs Hr Ho Hk Hm H64.
  destruct (@read_frame self b1 key w) as [bytes [W F]]; try assumption.
  { unfold py_in in Ho. cbn [existsb] in Ho.
    repeat (apply orb_false_iff in Ho; destruct Ho as [? Ho]).
    match goal with E : (_ =? PING) = false |- _ => rewrite E end. reflexivity. }
  exists bytes. eexists. split; [exact W|]. rewrite F, handle_unknown by exact Ho.
  split; [reflexivity|]. unfold same_connection. repeat split.
Qed.

Lemma reserved_opcode_refused_witness :
  exists bytes s,
    wire_frame 0x83 None [1; 2] = Some bytes
    /\ feed bytes conn0 = Raise (Exception "unknown opcode") s
    /\ same_connection s conn0.
Proof.
  apply (@reserved_opcode_refused conn0 0x83 None [1; 2]);
    try reflexivity; discriminate.
Defined.

(** X4. A pong of at most 125 bytes changes nothing of the connection;
    a longer pong, which the header does not refuse as it does a ping,
    is read to its last byte and then refused. *)
Theorem pong_ignored_or_refused : forall self key w,
  state self = HEADERB1 ->
  (forall k, key = Some k -> List.length k = 4%nat) ->
  len w < maxpayload self ->
  len w < 2 ^ 64 ->
  exists bytes s,
    wire_frame 0x8A key w = Some bytes
    /\ same_connection s self /\ state s = HEADERB1
    /\ feed bytes self
       = if len w <=? 125 then Ok tt s
         else Raise (Exception "control frame length can not be > 125") s.
Proof.
  intros self key w Hs Hk Hm H64.
  destruct (@read_frame self 0x8A key w) as [bytes [W F]];
    try assumption; try reflexivity.
  exists bytes. rewrite F.
  destruct (Z.leb_spec (len w) 125).
  - rewrite (@handle_pong _ (unmasked key w));
      try reflexivity; try (rewrite len_unmasked; assumption).
    exists (rearm (frame_read 0x8A key w self)).
    split; [exact W|]. unfold same_connection. repeat split.
  - rewrite (@handle_control_long _ (unmasked key w));
      try reflexivity; try (rewrite len_unmasked; assumption);
      [|left; reflexivity].
    exists (rearm (frame_read 0x8A key w self)).
    split; [exact W|]. unfold same_connection. repeat split.
Qed.

Lemma pong_ignored_or_refused_witness :
  exists bytes s,
    wire_frame 0x8A None [5] = Some bytes
    /\ same_connection s conn0 /\ state s = HEADERB1
    /\ feed bytes conn0 = Ok tt s.
Proof.
  apply (@pong_ignored_or_refused conn0 None [5]); try reflexivity; discriminate.
Defined.

(** X5. While a fragmented message is being received, a text or binary
    frame that is a message of its own is refused; and a continuation
    frame, final or not, is refused when no fragmented message was begun. *)
Theorem fragmentation_order_enforced : forall self b1 key w,
  state self = HEADERB1 ->
  (frag_start self = true /\ (b1 = 0x81 \/ b1 = 0x82))
  \/ (frag_start self = false /\ (b1 = 0x00 \/ b1 = 0x80)) ->
  (forall k, key = Some k -> List.length k = 4%nat) ->
  len w < maxpayload self ->
  len w < 2 ^ 64 ->
  exists bytes s,
    wire_frame b1 key w = Some bytes
    /\ feed bytes self = Raise (Exception "fragmentation protocol error") s
    /\ same_connection s self.
Proof.
  intros self b1 key w Hs Hc Hk Hm H64.
  assert (Hb : b1 = 0x81 \/ b1 = 0x82 \/ b1 = 0x00 \/ b1 = 0x80) by tauto.
  destruct (@read_frame self b1 key w) as [bytes [W F]]; try assumption.
  { destruct Hb as [E|[E|[E|E]]]; subst b1; reflexivity. }
  { destruct Hb as [E|[E|[E|E]]]; subst b1; reflexivity. }
  exists bytes. eexists. split; [exact W|]. rewrite F.
  destruct Hc as [[Hf Hc]|[Hf Hc]].
  - rewrite (@handle_data_interleaved _ (unmasked key w)); try exact Hf.
    + split; [reflexivity|]. unfold same_connection. repeat split.
    + destruct Hc; subst b1; [left|right]; reflexivity.
    + destruct Hc; subst b1; reflexivity.
    + reflexivity.
  - rewrite (@handle_continuation_alone _ (unmasked key w)); try exact Hf.
    + split; [reflexivity|]. unfold same_connection. repeat split.
    + destruct Hc; subst b1; reflexivity.
    + destruct Hc; subst b1; [left|right]; reflexivity.
    + reflexivity.
Qed.

Lemma fragmentation_order_enforced_witness :
  exists bytes s,
    wire_frame 0x80 None [1] = Some bytes
    /\ feed bytes conn0 = Raise (Exception "fragmentation protocol error") s
    /\ same_connection s conn0.
Proof.
  apply (@fragmentation_order_enforced conn0 0x80 None [1]);
    try reflexivity; try discriminate.
  right. split; [reflexivity|right; reflexivity].
Defined.

(** ** Close frames *)

Lemma handle_close_frame : forall d p,
  opcode d = CLOSE -> data d = Bytes p ->
  _handle_packet d
  = match close_reply p with
    | None => Raise StructError d
    | Some (status, reason) => close status reason d
    end.
Proof.
  intros d p Ho Hd. unfold _handle_packet. rewrite Ho, Hd. cbv zeta. zconst.
  destruct (close_reply p) as [[status reason]|]; reflexivity.
Qed.

Lemma close_reply_bytes : forall p,
  exists reason,
    close_reply p = Some (reply_status p, reason)
    /\ reason_bytes reason = Some (slice_from 2 p).
Proof.
  intro p. unfold close_reply, reply_status. cbv zeta.
  pose proof (len_nonneg p) as H0.
  destruct (Z.eqb_spec (len p) 0) as [E0|E0].
  { exists (Str []). split; [reflexivity|].
    rewrite (len_zero_nil p) by lia. reflexivity. }
  destruct (Z.eqb_spec (len p) 1) as [E1|E1].
  { replace (len p >=? 2) with false by (symmetry; rewrite Z.geb_leb; apply Z.leb_gt; lia).
    exists (Str []). split; [reflexivity|].
    destruct p as [|a [|b p]]; try reflexivity.
    rewrite !len_cons in E1. pose proof (len_nonneg p). lia. }
  replace (len p >=? 2) with true by (symmetry; rewrite Z.geb_leb; apply Z.leb_le; lia).
  assert (L2 : len (slice_to 2 p) = 2).
  { unfold slice_to, len in *. rewrite length_firstn. lia. }
  unfold Struct.unpack_from_H. rewrite L2. change (2 <? 2) with false. cbv iota.
  assert (F : firstn 2 (slice_to 2 p) = firstn 2 p).
  { unfold slice_to. change (Z.to_nat 2) with 2%nat. rewrite firstn_firstn. reflexivity. }
  rewrite F.
  destruct (slice_from 2 p) as [|x r] eqn:R.
  { cbn [is_nil negb]. change (Utf8.decode_strict []) with (Some (@nil Z)). cbv iota.
    exists (Bytes []). split; [|reflexivity].
    destruct (py_in _ _); reflexivity. }
  cbn [is_nil negb].
  destruct (Utf8.decode_strict (x :: r)) as [s|] eqn:U.
  - exists (Str s). split.
    + destruct (py_in _ _); reflexivity.
    + cbn [reason_bytes]. apply encode_decode_strict, U.
  - exists (Bytes (x :: r)). split; reflexivity.
Qed.

Lemma reply_status_range : forall p, 0 <= reply_status p <= 65535.
Proof.
  intro p. unfold reply_status. cbv zeta.
  destruct (len p =? 0); [lia|]. destruct (len p =? 1); [lia|].
  destruct (Utf8.decode_strict _); [|lia].
  destruct (py_in _ _) eqn:E; [|lia].
  unfold py_in, _VALID_STATUS_CODES in E. cbn [existsb] in E.
  repeat (apply orb_prop in E; destruct E as [E|E]; [apply Z.eqb_eq in E; lia|]).
  discriminate E.
Qed.

Lemma encode_frame_some : forall fin_ op body,
  0 <= op < 16 -> len body < 2 ^ 64 ->
  exists frame, encode_frame fin_ op body = Some frame.
Proof.
  intros fin_ op body Ho Hl.
  destruct (@first_byte fin_ op Ho) as [Hb _].
  rewrite encode_frame_wire by exact Hb. apply wire_frame_some, Hl.
Qed.

(** X6. A Close frame received on a connection that has not queued its
    own is answered with one Close frame: status 1000 for an empty
    payload, 1002 for a payload of one byte, for a status that is not in
    the table and for a reason that is not strict UTF-8, the status
    received otherwise; the reason bytes follow as they were received.
    A listed status with a well-formed reason is thus echoed byte for
    byte. *)
Theorem close_frame_answered : forall self b1 key w,
  state self = HEADERB1 ->
  Z.land b1 0x70 = 0 ->
  Z.land b1 0x0F = CLOSE ->
  (forall k, key = Some k -> List.length k = 4%nat) ->
  len w < maxpayload self ->
  len w + 2 < 2 ^ 64 ->
  closed self = false ->
  let p := unmasked key w in
  (exists bytes s frame,
      wire_frame b1 key w = Some bytes
      /\ feed bytes self = Ok tt s
      /\ encode_frame false CLOSE (Struct.be_bytes 2 (reply_status p) ++ slice_from 2 p)
         = Some frame
      /\ sendq s = sendq self ++ [(CLOSE, frame)]
      /\ closed s = true /\ hooks s = hooks self /\ state s = HEADERB1)
  /\ (forall a b r text,
        p = a :: b :: r -> is_byte a -> is_byte b ->
        py_in (a * 256 + b) _VALID_STATUS_CODES = true ->
        Utf8.decode_strict r = Some text ->
        Struct.be_bytes 2 (reply_status p) ++ slice_from 2 p = p).
Proof.
  intros self b1 key w Hs Hr Ho Hk Hm H64 Hc p. pose proof (len_nonneg w) as H0.
  split.
  - destruct (@read_frame self b1 key w) as [bytes [W F]]; try assumption; try lia.
    { rewrite Ho. reflexivity. }
    destruct (close_reply_bytes p) as [reason [R1 R2]].
    pose proof (reply_status_range p) as Rg.
    assert (Lb : len (Struct.be_bytes 2 (reply_status p) ++ slice_from 2 p) < 2 ^ 64).
    { rewrite len_app. pose proof (len_unmasked key w) as Lp. fold p in Lp.
      unfold slice_from, len in *. rewrite be_bytes_length, length_skipn. lia. }
    assert (Hop : 0 <= CLOSE < 16) by (split; [discriminate|reflexivity]).
    destruct (@encode_frame_some false CLOSE _ Hop Lb) as [frame E].
    exists bytes.
    exists (rearm (set_closed true
              (set_sendq (sendq self ++ [(CLOSE, frame)]) (frame_read b1 key w self)))).
    exists frame.
    split; [exact W|]. split; [|split; [exact E|repeat split]].
    rewrite F. rewrite (@handle_close_frame _ p); [|exact Ho|reflexivity].
    rewrite R1. unfold close.
    change (closed (frame_read b1 key w self)) with (closed self). rewrite Hc.
    cbn [negb]. unfold Struct.pack_H.
    replace ((0 <=? reply_status p) && (reply_status p <=? 65535)) with true
      by (symmetry; apply andb_true_iff; split; apply Z.leb_le; lia).
    fold (reason_bytes reason). rewrite R2. unfold _send_message. rewrite E.
    reflexivity.
  - intros a b r text Ep Ha Hb Hin Hu. rewrite Ep. unfold reply_status.
    rewrite !len_cons. pose proof (len_nonneg r).
    replace (1 + (1 + len r) =? 0) with false by (symmetry; apply Z.eqb_neq; lia).
    replace (1 + (1 + len r) =? 1) with false by (symmetry; apply Z.eqb_neq; lia).
    cbv zeta. change (slice_from 2 (a :: b :: r)) with r. rewrite Hu.
    change (Struct.be_int (firstn 2 (a :: b :: r))) with ((0 * 256 + a) * 256 + b).
    replace ((0 * 256 + a) * 256 + b) with (a * 256 + b) by lia. rewrite Hin.
    cbn [Struct.be_bytes app]. unfold is_byte in *. do 2 f_equal.
    + rewrite Z.div_add_l by lia. rewrite (Z.div_small b) by lia.
      rewrite Z.add_0_r. apply Z.mod_small. lia.
    + f_equal. rewrite Z.add_comm, Z.mod_add by lia. apply Z.mod_small. lia.
Qed.

Lemma close_frame_answered_witness :
  exists bytes s frame,
    wire_frame 0x88 None [0x03; 0xE9; 0x62; 0x79; 0x65] = Some bytes
    /\ feed bytes conn0 = Ok tt s
    /\ encode_frame false CLOSE [0x03; 0xE9; 0x62; 0x79; 0x65] = Some frame
    /\ sendq s = sendq conn0 ++ [(CLOSE, frame)]
    /\ closed s = true /\ hooks s = hooks conn0 /\ state s = HEADERB1.
Proof.
  destruct (@close_frame_answered conn0 0x88 None [0x03; 0xE9; 0x62; 0x79; 0x65])
    as [A B]; try reflexivity; try discriminate.
  rewrite (B 0x03 0xE9 [0x62; 0x79; 0x65] [0x62; 0x79; 0x65]) in A;
    try reflexivity; try (unfold is_byte; lia).
  exact A.
Defined.

(** X7. Once the connection has queued a Close frame, a Close frame that
    is received is read and nothing is queued in answer. *)
Theorem close_frame_after_close : forall self b1 key w,
  state self = HEADERB1 ->
  Z.land b1 0x70 = 0 ->
  Z.land b1 0x0F = CLOSE ->
  (forall k, key = Some k -> List.length k = 4%nat) ->
  len w < maxpayload self ->
  len w < 2 ^ 64 ->
  closed self = true ->
  exists bytes s,
    wire_frame b1 key w = Some bytes
    /\ feed bytes self = Ok tt s
    /\ same_connection s self /\ state s = HEADERB1.
Proof.
  intros self b1 key w Hs Hr Ho Hk Hm H64 Hc.
  destruct (@read_frame self b1 key w) as [bytes [W F]]; try assumption.
  { rewrite Ho. reflexivity. }
  destruct (close_reply_bytes (unmasked key w)) as [reason [R1 _]].
  exists bytes. exists (rearm (set_closed true (frame_read b1 key w self))).
  split; [exact W|]. split.
  - rewrite F. rewrite (@handle_close_frame _ (unmasked key w)); [|exact Ho|reflexivity].
    rewrite R1. unfold close.
    change (closed (frame_read b1 key w self)) with (closed self). rewrite Hc.
    reflexivity.
  - unfold same_connection. observe. rewrite Hc. repeat split.
Qed.

Lemma close_frame_after_close_witness :
  exists bytes s,
    wire_frame 0x88 None [0x03; 0xE8] = Some bytes
    /\ feed bytes (state_of (close 1001 (Str []) conn0)) = Ok tt s
    /\ same_connection s (state_of (close 1001 (Str []) conn0)) /\ state s = HEADERB1.
Proof.
  apply (@close_frame_after_close (state_of (close 1001 (Str []) conn0)) 0x88 None
           [0x03; 0xE8]); try reflexivity; discriminate.
Defined.

(** ** Fragmented messages *)

Lemma read_fragment : forall self b1 f,
  state self = HEADERB1 ->
  b1 = 0x00 \/ b1 = 0x01 \/ b1 = 0x02 \/ b1 = 0x80 ->
  readable_by self f ->
  feed (frame_bytes b1 f) self
  = finally (_handle_packet (frame_read b1 (fst f) (snd f) self)) rearm.
Proof.
  intros self b1 [key w] Hs Hb [Hk [Hm H64]]. cbn [fst snd] in *.
  destruct (@read_frame self b1 key w) as [bytes [W F]]; try assumption.
  { destruct Hb as [E|[E|[E|E]]]; subst b1; reflexivity. }
  { destruct Hb as [E|[E|[E|E]]]; subst b1; reflexivity. }
  unfold frame_bytes. cbn [fst snd]. rewrite W. exact F.
Qed.

Lemma handle_first_binary : forall d p,
  opcode d = BINARY -> fin d = 0 -> data d = Bytes p ->
  _handle_packet d
  = Ok tt (set_frag_buffer (Some (FragBytes p))
             (set_frag_decoder [] (set_frag_start true (set_frag_type BINARY d)))).
Proof.
  intros d p Ho Hf Hd. unfold _handle_packet. rewrite Ho, Hf, Hd. cbv zeta. zconst.
  fields. zconst. reflexivity.
Qed.

Lemma handle_next_binary : forall d p b,
  opcode d = STREAM -> fin d = 0 -> data d = Bytes p ->
  frag_start d = true -> frag_type d = BINARY -> frag_buffer d = Some (FragBytes b) ->
  _handle_packet d = Ok tt (set_frag_buffer (Some (FragBytes (b ++ p))) d).
Proof.
  intros d p b Ho Hf Hd Hs Ht Hb. unfold _handle_packet.
  rewrite Ho, Hf, Hd, Hs, Ht, Hb. cbv zeta. zconst. reflexivity.
Qed.

Lemma handle_last_binary : forall d p b,
  opcode d = STREAM -> fin d = 0x80 -> data d = Bytes p ->
  frag_start d = true -> frag_type d = BINARY -> frag_buffer d = Some (FragBytes b) ->
  _handle_packet d
  = Ok tt (set_frag_buffer None (set_frag_start false (set_frag_type BINARY
             (set_frag_decoder []
                (handle (set_data (Bytes (b ++ p))
                           (set_frag_buffer (Some (FragBytes (b ++ p))) d))))))).
Proof.
  intros d p b Ho Hf Hd Hs Ht Hb. unfold _handle_packet.
  rewrite Ho, Hf, Hd, Hs, Ht, Hb. cbv zeta. zconst. reflexivity.
Qed.

Lemma readable_by_same : forall self s f,
  maxpayload s = maxpayload self -> readable_by self f -> readable_by s f.
Proof.
  intros self s f E [A [B C]]. unfold readable_by. rewrite E. auto.
Qed.

Lemma gather_more : forall self mids s acc,
  gathering self acc s ->
  Forall (readable_by self) mids ->
  exists s',
    feed (List.concat (map (frame_bytes 0x00) mids)) s = Ok tt s'
    /\ gathering self (acc ++ List.concat (map carried mids)) s'.
Proof.
  intros self mids. induction mids as [|f mids IH]; intros s acc G Hr.
  - exists s. split; [reflexivity|]. cbn [map List.concat]. rewrite app_nil_r. exact G.
  - inversion Hr as [|? ? Hf Hr']; subst.
    destruct G as [G1 [G2 [G3 [G4 [G5 [G6 [G7 G8]]]]]]].
    cbn [map List.concat]. rewrite feed_app.
    rewrite (@read_fragment s 0x00 f G1 ltac:(auto) (readable_by_same _ G8 Hf)).
    rewrite (@handle_next_binary _ (carried f) acc); try reflexivity; try assumption.
    cbn [finally bind].
    destruct (IH (rearm (set_frag_buffer (Some (FragBytes (acc ++ carried f)))
                           (frame_read 0x00 (fst f) (snd f) s)))
                 (acc ++ carried f)) as [s' [F G']].
    + unfold gathering. observe. repeat split; assumption.
    + exact Hr'.
    + exists s'. split; [exact F|]. rewrite <- app_assoc in G'. exact G'.
Qed.

Lemma reassemble_binary : forall self first mids last,
  state self = HEADERB1 ->
  readable_by self first ->
  Forall (readable_by self) mids ->
  readable_by self last ->
  exists s,
    feed (fragmented 0x02 first mids last) self = Ok tt s
    /\ hooks s = hooks self ++ [Handle (Bytes (message first mids last))]
    /\ frag_start s = false /\ frag_buffer s = None
    /\ state s = HEADERB1 /\ sendq s = sendq self.
Proof.
  intros self first mids last Hs Hf Hm Hl. unfold fragmented, message.
  rewrite feed_app, (@read_fragment self 0x02 first Hs ltac:(auto) Hf).
  rewrite (@handle_first_binary _ (carried first)); try reflexivity.
  cbn [finally bind].
  set (s1 := rearm _).
  assert (G1 : gathering self (carried first) s1).
  { unfold gathering, s1. observe. repeat split. }
  destruct (@gather_more self mids s1 _ G1 Hm) as [s2 [F2 G2]].
  rewrite feed_app, F2. cbn [bind].
  destruct G2 as [A1 [A2 [A3 [A4 [A5 [A6 [A7 A8]]]]]]].
  rewrite (@read_fragment s2 0x80 last A1 ltac:(auto) (readable_by_same _ A8 Hl)).
  rewrite (@handle_last_binary _ (carried last) (carried first ++ List.concat (map carried mids)));
    try reflexivity; try assumption.
  cbn [finally]. eexists. split; [reflexivity|]. observe.
  rewrite A5, A6, <- app_assoc. repeat split.
Qed.

(** X8. A binary message sent in fragments, masked or not, is handed to
    [handle] once, as the payloads of its frames put end to end, however
    many they are and whatever they add up to; the fragment buffer is
    then released. *)
Theorem binary_fragments_reassembled : forall self first mids last,
  state self = HEADERB1 ->
  readable_by self first ->
  Forall (readable_by self) mids ->
  readable_by self last ->
  exists s,
    feed (fragmented 0x02 first mids last) self = Ok tt s
    /\ hooks s = hooks self ++ [Handle (Bytes (message first mids last))]
    /\ frag_start s = false /\ frag_buffer s = None
    /\ state s = HEADERB1 /\ sendq s = sendq self.
Proof.
  intros. apply reassemble_binary; assumption.
Qed.

Lemma binary_fragments_reassembled_witness :
  exists s,
    feed (fragmented 0x02 (None, [1; 2]) [(Some [5; 6; 7; 8], [9]); (None, [])]
            (None, [3])) conn0
    = Ok tt s
    /\ hooks s = hooks conn0 ++ [Handle (Bytes [1; 2; 12; 3])]
    /\ frag_start s = false /\ frag_buffer s = None
    /\ state s = HEADERB1 /\ sendq s = sendq conn0.
Proof.
  apply (@binary_fragments_reassembled conn0 (None, [1; 2])
           [(Some [5; 6; 7; 8], [9]); (None, [])] (None, [3])).
  - reflexivity.
  - repeat split; discriminate.
  - repeat constructor; try discriminate.
    intros k E. inversion E. reflexivity.
  - repeat split; discriminate.
Defined.

Lemma handle_first_text : forall d p,
  opcode d = TEXT -> fin d = 0 -> data d = Bytes p ->
  _handle_packet d
  = let d1 := set_frag_buffer (Some (FragText []))
                (set_frag_decoder [] (set_frag_start true (set_frag_type TEXT d))) in
    match Utf8.decode false p with
    | None => Raise UnicodeError d1
    | Some (s2, r2) =>
      Ok tt (if is_nil s2 then set_frag_decoder r2 d1
             else set_frag_buffer (Some (FragText [s2])) (set_frag_decoder r2 d1))
    end.
Proof.
  intros d p Ho Hf Hd. unfold _handle_packet. rewrite Ho, Hf, Hd. cbv zeta. zconst.
  fields. zconst. unfold frag_decode. fields. cbn [app].
  destruct (Utf8.decode false p) as [[s2 r2]|]; [|reflexivity].
  cbn [bind]. destruct s2; reflexivity.
Qed.

Lemma handle_next_text : forall d p parts,
  opcode d = STREAM -> fin d = 0 -> data d = Bytes p ->
  frag_start d = true -> frag_type d = TEXT -> frag_buffer d = Some (FragText parts) ->
  _handle_packet d
  = match Utf8.decode false (frag_decoder d ++ p) with
    | None => Raise UnicodeError d
    | Some (s2, r2) =>
      Ok tt (if is_nil s2 then set_frag_decoder r2 d
             else set_frag_buffer (Some (FragText (parts ++ [s2])))
                    (set_frag_decoder r2 d))
    end.
Proof.
  intros d p parts Ho Hf Hd Hs Ht Hb. unfold _handle_packet.
  rewrite Ho, Hf, Hd, Hs, Ht. cbv zeta. zconst. unfold frag_decode.
  destruct (Utf8.decode false (frag_decoder d ++ p)) as [[s2 r2]|]; [|reflexivity].
  cbn [bind]. fields. rewrite Hb. destruct s2; reflexivity.
Qed.

Lemma handle_last_text : forall d p parts,
  opcode d = STREAM -> fin d = 0x80 -> data d = Bytes p ->
  frag_start d = true -> frag_type d = TEXT -> frag_buffer d = Some (FragText parts) ->
  _handle_packet d
  = match Utf8.decode true (frag_decoder d ++ p) with
    | None => Raise UnicodeError d
    | Some (s2, r2) =>
      Ok tt (set_frag_buffer None (set_frag_start false (set_frag_type BINARY
               (set_frag_decoder []
                  (handle (set_data (Str (List.concat (parts ++ [s2])))
                             (set_frag_buffer (Some (FragText (parts ++ [s2])))
                                (set_frag_decoder r2 d))))))))
    end.
Proof.
  intros d p parts Ho Hf Hd Hs Ht Hb. unfold _handle_packet.
  rewrite Ho, Hf, Hd, Hs, Ht. cbv zeta. zconst. unfold frag_decode.
  destruct (Utf8.decode true (frag_decoder d ++ p)) as [[s2 r2]|]; [|reflexivity].
  cbn [bind]. fields. rewrite Hb. reflexivity.
Qed.

Lemma concat_snoc : forall (parts : list (list Z)) s,
  List.concat (parts ++ [s]) = List.concat parts ++ s.
Proof.
  intros. rewrite concat_app. cbn [List.concat]. rewrite app_nil_r. reflexivity.
Qed.

Lemma gather_text_step : forall self s seen f,
  gathering_text self seen s ->
  readable_by self f ->
  match Utf8.decode false (seen ++ carried f) with
  | Some _ =>
    exists s',
      feed (frame_bytes 0x00 f) s = Ok tt s'
      /\ gathering_text self (seen ++ carried f) s'
  | None =>
    exists s',
      feed (frame_bytes 0x00 f) s = Raise UnicodeError s'
      /\ hooks s' = hooks self /\ sendq s' = sendq self
  end.
Proof.
  intros self s seen f G Hf.
  destruct G as [G1 [G2 [G3 [[parts [G4 G4']] [G5 [G6 [G7 G8]]]]]]].
  rewrite (@read_fragment s 0x00 f G1 ltac:(auto) (readable_by_same _ G8 Hf)).
  rewrite (@handle_next_text _ (carried f) parts); try reflexivity; try assumption.
  rewrite decode_app, G4'. cbn [resume].
  change (frag_decoder (frame_read 0 (fst f) (snd f) s)) with (frag_decoder s).
  destruct (Utf8.decode false (frag_decoder s ++ carried f)) as [[s2 r2]|] eqn:E.
  - cbn [finally]. eexists. split; [reflexivity|].
    unfold gathering_text. destruct s2 as [|c s2]; cbn [is_nil]; observe.
    + repeat split; try assumption. exists parts. split; [exact G4|].
      rewrite decode_app, G4'. cbn [resume]. rewrite E, app_nil_r. reflexivity.
    + repeat split; try assumption. exists (parts ++ [c :: s2]). split; [reflexivity|].
      rewrite decode_app, G4'. cbn [resume]. rewrite E, concat_snoc. reflexivity.
  - cbn [finally]. eexists. split; [reflexivity|]. observe. split; assumption.
Qed.

Lemma decode_prefix_fails : forall final x y,
  Utf8.decode false x = None -> Utf8.decode final (x ++ y) = None.
Proof.
  intros final x y H. rewrite decode_app, H. reflexivity.
Qed.

Lemma gather_text_more : forall self mids s seen,
  gathering_text self seen s ->
  Forall (readable_by self) mids ->
  match Utf8.decode false (seen ++ List.concat (map carried mids)) with
  | Some _ =>
    exists s',
      feed (List.concat (map (frame_bytes 0x00) mids)) s = Ok tt s'
      /\ gathering_text self (seen ++ List.concat (map carried mids)) s'
  | None =>
    exists s',
      feed (List.concat (map (frame_bytes 0x00) mids)) s = Raise UnicodeError s'
      /\ hooks s' = hooks self /\ sendq s' = sendq self
  end.
Proof.
  intros self mids. induction mids as [|f mids IH]; intros s seen G Hr.
  - cbn [map List.concat]. rewrite app_nil_r.
    destruct G as [G1 [G2 [G3 [[parts [G4 G4']] G5]]]]. rewrite G4'.
    exists s. split; [reflexivity|]. unfold gathering_text. repeat split; try tauto.
    exists parts. split; assumption.
  - inversion Hr as [|? ? Hf Hr']; subst.
    cbn [map List.concat]. rewrite app_assoc.
    pose proof (@gather_text_step self s seen f G Hf) as S.
    destruct (Utf8.decode false (seen ++ carried f)) as [[t1 r1]|] eqn:E.
    + destruct S as [s1 [F1 G1]].
      specialize (IH s1 (seen ++ carried f) G1 Hr').
      destruct (Utf8.decode false ((seen ++ carried f) ++ List.concat (map carried mids)))
        as [[t2 r2]|].
      * destruct IH as [s2 [F2 G2]]. exists s2. rewrite feed_app, F1. cbn [bind].
        split; assumption.
      * destruct IH as [s2 [F2 G2]]. exists s2. rewrite feed_app, F1. cbn [bind].
        split; assumption.
    + rewrite (decode_prefix_fails false _ _ E).
      destruct S as [s1 [F1 G1]]. exists s1. rewrite feed_app, F1. cbn [bind].
      split; [reflexivity|exact G1].
Qed.

Lemma decode_final_whole : forall bs s r,
  Utf8.decode true bs = Some (s, r) -> r = [].
Proof.
  intros bs s r H.
  exact (proj2 (@encode_decode_bounded (List.length bs) true bs s r (le_n _) H) eq_refl).
Qed.

Lemma reassemble_text : forall self first mids last,
  state self = HEADERB1 ->
  readable_by self first ->
  Forall (readable_by self) mids ->
  readable_by self last ->
  match Utf8.decode_strict (message first mids last) with
  | Some text =>
    exists s,
      feed (fragmented 0x01 first mids last) self = Ok tt s
      /\ hooks s = hooks self ++ [Handle (Str text)]
      /\ frag_start s = false /\ frag_buffer s = None /\ frag_decoder s = []
      /\ state s = HEADERB1 /\ sendq s = sendq self
  | None =>
    exists s,
      feed (fragmented 0x01 first mids last) self = Raise UnicodeError s
      /\ hooks s = hooks self /\ sendq s = sendq self
  end.
Proof.
  intros self first mids last Hs Hf Hm Hl. unfold fragmented, message, Utf8.decode_strict.
  rewrite feed_app, (@read_fragment self 0x01 first Hs ltac:(auto) Hf).
  rewrite (@handle_first_text _ (carried first)); try reflexivity. cbv zeta.
  rewrite app_assoc, (decode_app true).
  destruct (Utf8.decode false (carried first)) as [[t1 r1]|] eqn:E1.
  2:{ rewrite (decode_prefix_fails false _ _ E1). cbn [resume finally bind].
      eexists. split; [reflexivity|]. observe. split; reflexivity. }
  cbn [finally bind]. set (s1 := rearm _).
  assert (G1 : gathering_text self (carried first) s1).
  { unfold gathering_text, s1. destruct t1 as [|c t1]; cbn [is_nil]; observe.
    - repeat split. exists []. split; [reflexivity|exact E1].
    - repeat split. exists [c :: t1]. split; [reflexivity|].
      cbn [List.concat]. rewrite app_nil_r. exact E1. }
  clearbody s1.
  pose proof (@gather_text_more self mids s1 _ G1 Hm) as M.
  destruct (Utf8.decode false (carried first ++ List.concat (map carried mids)))
    as [[t2 r2]|] eqn:E2.
  2:{ destruct M as [s2 [F2 [G5 G6]]]. cbn [resume]. exists s2.
      rewrite feed_app, F2. cbn [bind]. repeat split; assumption. }
  destruct M as [s2 [F2 G2]]. rewrite feed_app, F2. cbn [bind resume].
  destruct G2 as [A1 [A2 [A3 [[parts [A4 A4']] [A5 [A6 [A7 A8]]]]]]].
  rewrite (@read_fragment s2 0x80 last A1 ltac:(auto) (readable_by_same _ A8 Hl)).
  rewrite (@handle_last_text _ (carried last) parts); try reflexivity; try assumption.
  change (frag_decoder (frame_read 128 (fst last) (snd last) s2)) with (frag_decoder s2).
  rewrite E2 in A4'. apply some_eq in A4'. inversion A4'; subst t2 r2.
  destruct (Utf8.decode true (frag_decoder s2 ++ carried last)) as [[t3 r3]|] eqn:E3.
  - cbn [finally]. eexists. split; [reflexivity|]. observe.
    rewrite A5, A6, concat_snoc. repeat split.
  - cbn [finally]. eexists. split; [reflexivity|]. observe. split; assumption.
Qed.

(** X9. A text message sent in fragments is decoded incrementally, one
    fragment at a time, and a multi-byte character may be cut by a frame
    boundary: [handle] receives the text exactly when the payloads put
    end to end are valid UTF-8, and it is then the decoding of the whole;
    otherwise one of the frames raises [UnicodeError] and nothing is
    delivered. The frame that raises is not always the one that brings
    the bad byte: a fragment that ends inside a sequence is judged with
    the next one, and so is a fragment that ends with ED and one of
    A0..BF, the start of an encoded surrogate, which the decoder keeps
    as unfinished. *)
Theorem text_fragments_reassembled : forall self first mids last,
  state self = HEADERB1 ->
  readable_by self first ->
  Forall (readable_by self) mids ->
  readable_by self last ->
  match Utf8.decode_strict (message first mids last) with
  | Some text =>
    exists s,
      feed (fragmented 0x01 first mids last) self = Ok tt s
      /\ hooks s = hooks self ++ [Handle (Str text)]
      /\ frag_start s = false /\ frag_buffer s = None /\ frag_decoder s = []
      /\ state s = HEADERB1 /\ sendq s = sendq self
  | None =>
    exists s,
      feed (fragmented 0x01 first mids last) self = Raise UnicodeError s
      /\ hooks s = hooks self /\ sendq s = sendq self
  end.
Proof.
  intros. apply reassemble_text; assumption.
Qed.

Lemma text_fragments_reassembled_witness :
  exists s,
    feed (fragmented 0x01 (None, [0x41; 0xE2]) [(Some [5; 6; 7; 8], [0x87])]
            (None, [0xAC])) conn0
    = Ok tt s
    /\ hooks s = hooks conn0 ++ [Handle (Str [0x41; 0x20AC])]
    /\ frag_start s = false /\ frag_buffer s = None /\ frag_decoder s = []
    /\ state s = HEADERB1 /\ sendq s = sendq conn0.
Proof.
  apply (@text_fragments_reassembled conn0 (None, [0x41; 0xE2])
           [(Some [5; 6; 7; 8], [0x87])] (None, [0xAC])).
  - reflexivity.
  - repeat split; discriminate.
  - repeat constructor; try discriminate.
    intros k E. inversion E. reflexivity.
  - repeat split; discriminate.
Defined.

(** A surrogate cut after its second byte: the first fragment is taken,
    its two bytes kept by the decoder, and the message is refused with
    the frame that follows. *)
Lemma cut_surrogate_refused_with_next_frame :
  (exists s,
     feed (frame_bytes 0x01 (None, [0x41; 0xED; 0xA0])) conn0 = Ok tt s
     /\ frag_decoder s = [0xED; 0xA0]
     /\ frag_buffer s = Some (FragText [[0x41]])
     /\ exists s', feed (frame_bytes 0x00 (None, [0x80])) s = Raise UnicodeError s')
  /\ exists s, feed (frame_bytes 0x01 (None, [0x41; 0xED; 0x41])) conn0
               = Raise UnicodeError s.
Proof.
  split.
  - eexists. split; [vm_compute; reflexivity|].
    split; [reflexivity|]. split; [reflexivity|].
    eexists. vm_compute. reflexivity.
  - eexists. vm_compute. reflexivity.
Qed.

Lemma read_ping : forall self key w,
  state self = HEADERB1 ->
  (forall k, key = Some k -> List.length k = 4%nat) ->
  len w < maxpayload self -> len w < 2 ^ 64 -> len w <= 125 ->
  feed (frame_bytes 0x89 (key, w)) self
  = Ok tt (rearm (set_sendq (sendq self ++ [(PONG, 0x8A :: len w :: unmasked key w)])
                    (frame_read 0x89 key w self))).
Proof.
  intros self key w Hs Hk Hm H64 Hp.
  destruct (@read_frame self 0x89 key w Hs eq_refl Hk) as [bytes [W F]];
    [change (Z.land 0x89 0x0F =? PING) with true; cbn [andb]; apply not_gt, Hp
    |exact Hm|exact H64|].
  unfold frame_bytes. cbn [fst snd]. rewrite W, F, <- dispatch_rearm.
  rewrite (@dispatch_ping _ (unmasked key w));
    try reflexivity; try (rewrite len_unmasked; assumption).
  rewrite len_unmasked. reflexivity.
Qed.

Lemma ping_while_gathering : forall self s1 acc key w,
  gathering self acc s1 ->
  (forall k, key = Some k -> List.length k = 4%nat) ->
  len w < maxpayload self -> len w < 2 ^ 64 -> len w <= 125 ->
  exists s2,
    feed (frame_bytes 0x89 (key, w)) s1 = Ok tt s2
    /\ state s2 = HEADERB1 /\ frag_start s2 = true /\ frag_type s2 = BINARY
    /\ frag_buffer s2 = Some (FragBytes acc)
    /\ hooks s2 = hooks self /\ maxpayload s2 = maxpayload self
    /\ sendq s2 = sendq self ++ [(PONG, 0x8A :: len w :: unmasked key w)].
Proof.
  intros self s1 acc key w G1 Hk Hm H64 Hp.
  destruct G1 as [A1 [A2 [A3 [A4 [A5 [A6 [A7 A8]]]]]]].
  rewrite (@read_ping s1 key w A1 Hk); try assumption; try (rewrite A8; assumption).
  eexists. split; [reflexivity|].
  observe. rewrite A6. repeat split; assumption.
Qed.

Lemma last_binary_fragment : forall self s2 acc last,
  state s2 = HEADERB1 -> frag_start s2 = true -> frag_type s2 = BINARY ->
  frag_buffer s2 = Some (FragBytes acc) ->
  maxpayload s2 = maxpayload self ->
  readable_by self last ->
  exists s,
    feed (frame_bytes 0x80 last) s2 = Ok tt s
    /\ hooks s = hooks s2 ++ [Handle (Bytes (acc ++ carried last))]
    /\ sendq s = sendq s2
    /\ frag_start s = false /\ frag_buffer s = None /\ state s = HEADERB1.
Proof.
  intros self s2 acc last B1 B2 B3 B4 B8 Hl.
  rewrite (@read_fragment s2 0x80 last B1 ltac:(auto) (readable_by_same _ B8 Hl)).
  rewrite (@handle_last_binary _ (carried last) acc);
    try reflexivity; try assumption.
  cbn [finally]. eexists. split; [reflexivity|]. observe. repeat split.
Qed.

(** X10. A ping may come between the fragments of a message: it is
    answered with its pong and the message is put together as if the ping
    had not been there. *)
Theorem ping_inside_fragmented_message : forall self first ping last,
  state self = HEADERB1 ->
  readable_by self first -> readable_by self ping -> readable_by self last ->
  len (snd ping) <= 125 ->
  exists s,
    feed (frame_bytes 0x02 first ++ frame_bytes 0x89 ping ++ frame_bytes 0x80 last) self
    = Ok tt s
    /\ hooks s = hooks self ++ [Handle (Bytes (carried first ++ carried last))]
    /\ sendq s = sendq self ++ [(PONG, 0x8A :: len (snd ping) :: carried ping)]
    /\ frag_start s = false /\ state s = HEADERB1.
Proof.
  intros self first [key w] last Hs Hf [Hk [Hm H64]] Hl Hp. cbn [fst snd] in *.
  rewrite feed_app, (@read_fragment self 0x02 first Hs ltac:(auto) Hf).
  rewrite (@handle_first_binary _ (carried first)); try reflexivity.
  cbn [finally bind].
  destruct (@ping_while_gathering self
              (rearm (set_frag_buffer (Some (FragBytes (carried first)))
                 (set_frag_decoder [] (set_frag_start true (set_frag_type BINARY
                    (frame_read 0x02 (fst first) (snd first) self))))))
              (carried first) key w)
    as [s2 [F2 [B1 [B2 [B3 [B4 [B5 [B8 B6]]]]]]]]; try assumption.
  { unfold gathering. observe. repeat split. }
  rewrite feed_app, F2. cbn [bind].
  destruct (@last_binary_fragment self s2 (carried first) last)
    as [s [F [C1 [C2 [C3 [C4 C5]]]]]]; try assumption.
  exists s. rewrite C1, C2, B5, B6. repeat split; assumption.
Qed.

Lemma ping_inside_fragmented_message_witness :
  exists s,
    feed (frame_bytes 0x02 (None, [1; 2]) ++ frame_bytes 0x89 (Some [1; 1; 1; 1], [6])
            ++ frame_bytes 0x80 (None, [3])) conn0
    = Ok tt s
    /\ hooks s = hooks conn0 ++ [Handle (Bytes [1; 2; 3])]
    /\ sendq s = sendq conn0 ++ [(PONG, [0x8A; 1; 7])]
    /\ frag_start s = false /\ state s = HEADERB1.
Proof.
  apply (@ping_inside_fragmented_message conn0 (None, [1; 2]) (Some [1; 1; 1; 1], [6])
           (None, [3])).
  - reflexivity.
  - repeat split; discriminate.
  - repeat split; try discriminate. intros k E. inversion E. reflexivity.
  - repeat split; discriminate.
  - discriminate.
Defined.

(** ** What the sender emits, read by the decoder *)

Lemma set_sendq_twice : forall a b self, set_sendq a (set_sendq b self) = set_sendq a self.
Proof. intros a b self. destruct self. reflexivity. Qed.

Lemma sendq_set_sendq : forall a self, sendq (set_sendq a self) = a.
Proof. intros a self. destruct self. reflexivity. Qed.

Lemma send_message_frame : forall fin_ op data_ body self,
  0 <= op < 16 -> body_of data_ = Some body -> len body < 2 ^ 64 ->
  exists frame,
    wire_frame (Z.lor (if negb fin_ then 0x80 else 0) op) None body = Some frame
    /\ _send_message fin_ op data_ self
       = Ok tt (set_sendq (sendq self ++ [(op, frame)]) self).
Proof.
  intros fin_ op data_ body self Ho Hb Hl.
  destruct (@first_byte fin_ op Ho) as [Hb1 _].
  destruct (@wire_frame_some (Z.lor (if negb fin_ then 0x80 else 0) op) None body Hl)
    as [frame W].
  exists frame. split; [exact W|].
  unfold _send_message. fold (body_of data_). rewrite Hb.
  rewrite (encode_frame_wire fin_ op body Hb1), W. reflexivity.
Qed.

Lemma sent_frame_read : forall peer data_ body frame,
  state peer = HEADERB1 -> frag_start peer = false ->
  body_of data_ = Some body ->
  len body < maxpayload peer -> len body < 2 ^ 64 ->
  wire_frame (Z.lor 0x80 (opcode_of data_)) None body = Some frame ->
  exists p,
    feed frame peer = Ok tt p
    /\ hooks p = hooks peer ++ [Handle data_]
    /\ state p = HEADERB1 /\ sendq p = sendq peer.
Proof.
  intros peer data_ body frame Hs Hf E Hm H64 W.
  destruct data_ as [b|s]; cbn [body_of opcode_of] in *.
  - apply some_eq in E. subst body.
    destruct (@read_frame peer 0x82 None b Hs eq_refl) as [bytes [W' F]];
      try assumption; try reflexivity; try discriminate.
    change (Z.lor 0x80 BINARY) with 0x82 in W. rewrite W in W'.
    apply some_eq in W'. subst bytes.
    rewrite (@handle_binary _ b) in F; try reflexivity; try assumption.
    eexists. split; [exact F|]. observe. repeat split.
  - destruct (@read_frame peer 0x81 None body Hs eq_refl) as [bytes [W' F]];
      try assumption; try reflexivity; try discriminate.
    change (Z.lor 0x80 TEXT) with 0x81 in W. rewrite W in W'.
    apply some_eq in W'. subst bytes.
    rewrite (@handle_text _ body) in F; try reflexivity; try assumption.
    rewrite (decode_encode _ E) in F.
    eexists. split; [exact F|]. observe. repeat split.
Qed.

Lemma opcode_of_range : forall data_, 0 <= opcode_of data_ < 16.
Proof. intros [b|s]; split; try discriminate; reflexivity. Qed.

(** X11. What [send_message] queues for a peer is read back by the
    decoder as the message sent: bytes as bytes, a string as the same
    string; and a string that UTF-8 cannot encode is refused by the
    sender, nothing being queued. *)
Theorem message_round_trip : forall sender peer data_,
  state peer = HEADERB1 ->
  frag_start peer = false ->
  (forall body, body_of data_ = Some body ->
     len body < maxpayload peer /\ len body < 2 ^ 64) ->
  match body_of data_ with
  | Some _ =>
    exists frame s p,
      send_message data_ sender = Ok tt s
      /\ sendq s = sendq sender ++ [(opcode_of data_, frame)]
      /\ feed frame peer = Ok tt p
      /\ hooks p = hooks peer ++ [Handle data_]
      /\ state p = HEADERB1 /\ sendq p = sendq peer
  | None =>
    send_message data_ sender = Raise UnicodeError sender
  end.
Proof.
  intros sender peer data_ Hs Hf Hb.
  destruct (body_of data_) as [body|] eqn:E.
  2:{ destruct data_ as [b|s]; [discriminate|].
      unfold send_message, _send_message. cbn [body_of] in E. rewrite E. reflexivity. }
  destruct (Hb body eq_refl) as [Hm H64].
  destruct (@send_message_frame false (opcode_of data_) data_ body sender
              (opcode_of_range data_) E H64) as [frame [W S]].
  destruct (@sent_frame_read peer data_ body frame Hs Hf E Hm H64 W) as [p [F P]].
  exists frame. eexists. exists p. unfold send_message. fold (opcode_of data_).
  split; [exact S|]. split; [apply sendq_set_sendq|]. split; [exact F|exact P].
Qed.

Lemma message_round_trip_witness :
  exists frame s p,
    send_message (Str [0x48; 0x20AC]) conn0 = Ok tt s
    /\ sendq s = sendq conn0 ++ [(TEXT, frame)]
    /\ feed frame conn0 = Ok tt p
    /\ hooks p = hooks conn0 ++ [Handle (Str [0x48; 0x20AC])]
    /\ state p = HEADERB1 /\ sendq p = sendq conn0.
Proof.
  apply (@message_round_trip conn0 conn0 (Str [0x48; 0x20AC]) eq_refl eq_refl).
  intros body E. vm_compute in E. apply some_eq in E. subst body.
  split; reflexivity.
Defined.

Lemma send_frame_bytes : forall fin_ op data_ body self,
  0 <= op < 16 -> body_of data_ = Some body -> len body < 2 ^ 64 ->
  _send_message fin_ op data_ self
  = Ok tt (set_sendq
             (sendq self
              ++ [(op, frame_bytes (Z.lor (if negb fin_ then 0x80 else 0) op) (None, body))])
             self).
Proof.
  intros fin_ op data_ body self Ho Hb Hl.
  destruct (@send_message_frame fin_ op data_ body self Ho Hb Hl) as [frame [W S]].
  unfold frame_bytes. cbn [fst snd]. rewrite W. exact S.
Qed.

Lemma send_fragment_each : forall ds bs self,
  Forall2 (fun d b => body_of d = Some b /\ len b < 2 ^ 64) ds bs ->
  for_each send_fragment ds self
  = Ok tt (set_sendq
             (sendq self ++ map (fun b => (STREAM, frame_bytes 0x00 (None, b))) bs) self).
Proof.
  intros ds bs self H. revert self.
  induction H as [|d b ds bs [Hb Hl] _ IH]; intro self.
  - cbn [for_each map]. rewrite app_nil_r. destruct self; reflexivity.
  - cbn [for_each map]. unfold send_fragment at 1.
    rewrite (@send_frame_bytes true STREAM d b self ltac:(split; [discriminate|reflexivity])
               Hb Hl).
    change (Z.lor (if negb true then 0x80 else 0) STREAM) with 0x00. cbn [bind].
    rewrite IH, set_sendq_twice, sendq_set_sendq, <- app_assoc. reflexivity.
Qed.

Lemma pending_app : forall q1 q2, pending (q1 ++ q2) = pending q1 ++ pending q2.
Proof. intros. unfold pending. rewrite map_app, concat_app. reflexivity. Qed.

Lemma encode_app : forall s1 s2 b1 b2,
  Utf8.encode s1 = Some b1 -> Utf8.encode s2 = Some b2 ->
  Utf8.encode (s1 ++ s2) = Some (b1 ++ b2).
Proof.
  induction s1 as [|c s1 IH]; intros s2 b1 b2 H1 H2.
  - cbn [Utf8.encode] in H1. apply some_eq in H1. subst b1. exact H2.
  - cbn [Utf8.encode app] in *.
    destruct (Utf8.encode_cp c) as [bc|]; [|discriminate].
    destruct (Utf8.encode s1) as [r1|] eqn:E1; [|discriminate].
    apply some_eq in H1. subst b1. rewrite (IH s2 r1 b2 eq_refl H2), <- app_assoc.
    reflexivity.
Qed.

Lemma encode_concat : forall xs bs,
  Forall2 (fun x b => Utf8.encode x = Some b) xs bs ->
  Utf8.encode (List.concat xs) = Some (List.concat bs).
Proof.
  intros xs bs H. induction H as [|x b xs bs Hx _ IH]; [reflexivity|].
  cbn [List.concat]. apply encode_app; assumption.
Qed.

Lemma readable_unmasked : forall peer b,
  len b < maxpayload peer /\ len b < 2 ^ 64 -> readable_by peer (unmasked_fragment b).
Proof.
  intros peer b [A B]. repeat split; try assumption. intros k E. discriminate E.
Qed.

Lemma carried_unmasked : forall bs, map carried (map unmasked_fragment bs) = bs.
Proof.
  induction bs as [|b bs IH]; [reflexivity|]. cbn [map]. rewrite IH. reflexivity.
Qed.

Lemma pending_continuations : forall bs,
  pending (map (fun b => (STREAM, frame_bytes 0x00 (None, b))) bs)
  = List.concat (map (frame_bytes 0x00) (map unmasked_fragment bs)).
Proof.
  induction bs as [|b bs IH]; [reflexivity|].
  unfold pending in *. cbn [map List.concat snd]. rewrite IH. reflexivity.
Qed.

Lemma bodies_of_bytes : forall xs bs,
  Forall2 (fun x b => body_of (Bytes x) = Some b) xs bs -> xs = bs.
Proof.
  intros xs bs H. induction H as [|x b xs bs Hx _ IH]; [reflexivity|].
  cbn [body_of] in Hx. apply some_eq in Hx. subst. reflexivity.
Qed.

Lemma bodies_bounded : forall (mk : list Z -> pydata) xs bs (P : list Z -> Prop),
  Forall2 (fun x b => body_of (mk x) = Some b) xs bs ->
  Forall P bs ->
  Forall2 (fun d b => body_of d = Some b /\ P b) (map mk xs) bs.
Proof.
  intros mk xs bs P H. induction H as [|x b xs bs Hx _ IH]; intro HP.
  - constructor.
  - inversion HP; subst. cbn [map]. constructor; [split; assumption|auto].
Qed.

(** X12. A message sent in pieces with [send_fragment_start],
    [send_fragment] and [send_fragment_end] leaves as one frame per
    piece, and the decoder of the peer hands [handle] the pieces put end
    to end, bytes as bytes and strings as one string. *)
Theorem fragments_round_trip : forall sender peer (mk : list Z -> pydata) x1 xs xn b1 bs bn,
  mk = Bytes \/ mk = Str ->
  state peer = HEADERB1 ->
  body_of (mk x1) = Some b1 ->
  Forall2 (fun x b => body_of (mk x) = Some b) xs bs ->
  body_of (mk xn) = Some bn ->
  Forall (fun b => len b < maxpayload peer /\ len b < 2 ^ 64) (b1 :: bn :: bs) ->
  exists s frames p,
    send_in_fragments (mk x1) (map mk xs) (mk xn) sender = Ok tt s
    /\ sendq s = sendq sender ++ frames
    /\ List.length frames = (2 + List.length xs)%nat
    /\ feed (pending frames) peer = Ok tt p
    /\ hooks p = hooks peer ++ [Handle (mk (x1 ++ List.concat xs ++ xn))]
    /\ state p = HEADERB1 /\ sendq p = sendq peer.
Proof.
  intros sender peer mk x1 xs xn b1 bs bn Hmk Hs H1 Hxs Hn Hb.
  inversion Hb as [|? ? [L1 L1'] Hb']; subst.
  inversion Hb' as [|? ? [Ln Ln'] Hbs]; subst.
  assert (Hop : 0 <= opcode_of (mk x1) < 16)
    by (destruct (mk x1); split; try discriminate; reflexivity).
  pose (frames := (opcode_of (mk x1), frame_bytes (opcode_of (mk x1)) (None, b1))
                  :: map (fun b => (STREAM, frame_bytes 0x00 (None, b))) bs
                  ++ [(STREAM, frame_bytes 0x80 (None, bn))]).
  assert (S : send_in_fragments (mk x1) (map mk xs) (mk xn) sender
              = Ok tt (set_sendq (sendq sender ++ frames) sender)).
  { unfold send_in_fragments, send_fragment_start, send_fragment_end.
    fold (opcode_of (mk x1)).
    rewrite (@send_frame_bytes true _ (mk x1) b1 sender Hop H1 L1'). cbn [bind].
    rewrite (@send_fragment_each (map mk xs) bs _ (@bodies_bounded mk xs bs _ Hxs
               (Forall_impl _ (fun b (H : _ /\ _) => proj2 H) Hbs))).
    cbn [bind].
    rewrite (@send_frame_bytes false STREAM (mk xn) bn _
               ltac:(split; [discriminate|reflexivity]) Hn Ln').
    rewrite !set_sendq_twice, !sendq_set_sendq, <- !app_assoc.
    assert (E : Z.lor (if negb true then 0x80 else 0) (opcode_of (mk x1))
                = opcode_of (mk x1)) by (destruct (mk x1); reflexivity).
    rewrite E. reflexivity. }
  assert (P : pending frames
              = fragmented (opcode_of (mk x1)) (unmasked_fragment b1)
                  (map unmasked_fragment bs) (unmasked_fragment bn)).
  { unfold frames, fragmented.
    change (?a :: ?l ++ ?r) with ([a] ++ l ++ r).
    rewrite !pending_app, pending_continuations. unfold pending.
    cbn [map List.concat snd]. rewrite !app_nil_r. reflexivity. }
  assert (R1 := @readable_unmasked peer b1 (conj L1 L1')).
  assert (Rn := @readable_unmasked peer bn (conj Ln Ln')).
  assert (Rs : Forall (readable_by peer) (map unmasked_fragment bs)).
  { clear - Hbs. induction Hbs as [|b bs Hb _ IH]; constructor;
      [apply readable_unmasked, Hb|exact IH]. }
  assert (M : message (unmasked_fragment b1) (map unmasked_fragment bs)
                (unmasked_fragment bn)
              = b1 ++ List.concat bs ++ bn).
  { unfold message. rewrite carried_unmasked. reflexivity. }
  assert (Len : List.length frames = (2 + List.length xs)%nat).
  { unfold frames. cbn [List.length].
    rewrite length_app, length_map, (Forall2_length Hxs). cbn [List.length]. lia. }
  exists (set_sendq (sendq sender ++ frames) sender), frames.
  destruct Hmk as [Hmk|Hmk]; subst mk.
  - cbn [body_of] in H1, Hn. apply some_eq in H1. apply some_eq in Hn.
    apply bodies_of_bytes in Hxs. subst b1 bn bs.
    destruct (@reassemble_binary peer _ _ _ Hs R1 Rs Rn) as [p [F [A1 [A2 [A3 [A4 A5]]]]]].
    rewrite M in A1. exists p. rewrite P. cbn [opcode_of].
    split; [exact S|]. split; [apply sendq_set_sendq|].
    split; [exact Len|].
    repeat split; assumption.
  - cbn [body_of] in H1, Hn.
    assert (E : Utf8.encode (x1 ++ List.concat xs ++ xn)
                = Some (b1 ++ List.concat bs ++ bn)).
    { apply encode_app; [exact H1|]. apply encode_app; [|exact Hn].
      apply encode_concat. exact Hxs. }
    pose proof (@reassemble_text peer _ _ _ Hs R1 Rs Rn) as T.
    rewrite M, (decode_encode _ E) in T.
    destruct T as [p [F [A1 [A2 [A3 [A3' [A4 A5]]]]]]].
    exists p. rewrite P. cbn [opcode_of].
    split; [exact S|]. split; [apply sendq_set_sendq|].
    split; [exact Len|].
    repeat split; assumption.
Qed.

Lemma fragments_round_trip_witness :
  exists s frames p,
    send_in_fragments (Str [0x48]) (map Str [[0x20AC]; []]) (Str [0x21]) conn0 = Ok tt s
    /\ sendq s = sendq conn0 ++ frames
    /\ List.length frames = 4%nat
    /\ feed (pending frames) conn0 = Ok tt p
    /\ hooks p = hooks conn0 ++ [Handle (Str [0x48; 0x20AC; 0x21])]
    /\ state p = HEADERB1 /\ sendq p = sendq conn0.
Proof.
  apply (@fragments_round_trip conn0 conn0 Str [0x48] [[0x20AC]; []] [0x21]
           [0x48] [[0xE2; 0x82; 0xAC]; []] [0x21]).
  - right. reflexivity.
  - reflexivity.
  - reflexivity.
  - repeat constructor.
  - reflexivity.
  - repeat constructor.
Defined.

(** ** What the decoder leaves alone *)

Lemma decoded_quiet : forall s s',
  client s' = client s -> handshaked s' = handshaked s ->
  headerbuffer s' = headerbuffer s -> headertoread s' = headertoread s ->
  maxheader s' = maxheader s -> maxpayload s' = maxpayload s ->
  hooks s' = hooks s -> sendq s' = sendq s ->
  (closed s = true -> closed s' = true) ->
  decoded s s'.
Proof.
  intros s s' H1 H2 H3 H4 H5 H6 H7 H8 H9. unfold decoded.
  repeat (split; [assumption|]). split; [|split; [|exact H9]].
  - exists []. rewrite app_nil_r. split; [exact H7|constructor].
  - exists []. rewrite app_nil_r. split; [exact H8|]. split; [constructor|].
    split; [cbn; lia|]. split; [reflexivity|]. cbn. discriminate.
Qed.

Lemma decoded_refl : forall s, decoded s s.
Proof. intro s. apply decoded_quiet; auto. Qed.

Lemma closes_app : forall q1 q2, closes (q1 ++ q2) = (closes q1 + closes q2)%nat.
Proof. intros. unfold closes. rewrite filter_app, length_app. reflexivity. Qed.

Lemma decoded_trans : forall a b c, decoded a b -> decoded b c -> decoded a c.
Proof.
  intros a b c [A1 [A2 [A3 [A4 [A5 [A6 [[h1 [A7 A7']] [[q1 [A8 [A8' [A9 [A10 A11]]]]] A12]]]]]]]]
    [B1 [B2 [B3 [B4 [B5 [B6 [[h2 [B7 B7']] [[q2 [B8 [B8' [B9 [B10 B11]]]]] B12]]]]]]]].
  unfold decoded.
  split; [congruence|]. split; [congruence|]. split; [congruence|].
  split; [congruence|]. split; [congruence|]. split; [congruence|].
  split; [|split].
  - exists (h1 ++ h2). rewrite B7, A7, app_assoc. split; [reflexivity|].
    apply Forall_app. split; assumption.
  - exists (q1 ++ q2). rewrite B8, A8, app_assoc, closes_app.
    split; [reflexivity|]. split; [apply Forall_app; split; assumption|].
    assert (C : closes q1 = 1%nat -> closes q2 = 0%nat) by (intro E; auto).
    split; [lia|]. split.
    + intro E. rewrite (A10 E), (B10 (A12 E)). reflexivity.
    + intro E. destruct (Nat.eq_dec (closes q1) 1) as [E1|E1].
      * apply B12, A11, E1.
      * apply B11. lia.
  - auto.
Qed.

Lemma decoded_handle : forall s s' d,
  client s' = client s -> handshaked s' = handshaked s ->
  headerbuffer s' = headerbuffer s -> headertoread s' = headertoread s ->
  maxheader s' = maxheader s -> maxpayload s' = maxpayload s ->
  hooks s' = hooks s ++ [Handle d] -> sendq s' = sendq s ->
  closed s' = closed s ->
  decoded s s'.
Proof.
  intros s s' d H1 H2 H3 H4 H5 H6 H7 H8 H9. unfold decoded.
  repeat (split; [assumption|]). split; [|split; [|congruence]].
  - exists [Handle d]. split; [exact H7|]. repeat constructor. exists d. reflexivity.
  - exists []. rewrite app_nil_r. split; [exact H8|]. split; [constructor|].
    split; [cbn; lia|]. split; [reflexivity|]. cbn. discriminate.
Qed.

Lemma decoded_queue : forall s s' op f,
  client s' = client s -> handshaked s' = handshaked s ->
  headerbuffer s' = headerbuffer s -> headertoread s' = headertoread s ->
  maxheader s' = maxheader s -> maxpayload s' = maxpayload s ->
  hooks s' = hooks s -> sendq s' = sendq s ++ [(op, f)] ->
  (op = PONG /\ closed s' = closed s)
  \/ (op = CLOSE /\ closed s = false /\ closed s' = true) ->
  decoded s s'.
Proof.
  intros s s' op f H1 H2 H3 H4 H5 H6 H7 H8 H9. unfold decoded.
  repeat (split; [assumption|]). split; [|split].
  - exists []. rewrite app_nil_r. split; [exact H7|constructor].
  - exists [(op, f)]. split; [exact H8|].
    destruct H9 as [[E C]|[E [C C']]]; subst op.
    + split; [repeat constructor; left; reflexivity|].
      split; [cbn; lia|]. split; [reflexivity|]. cbn. discriminate.
    + split; [repeat constructor; right; reflexivity|].
      split; [cbn; lia|]. split; [congruence|]. intros _. exact C'.
  - destruct H9 as [[E C]|[E [C C']]]; congruence.
Qed.

Lemma pong_decoded : forall d self,
  decoded self (state_of (_send_message false PONG d self)).
Proof.
  intros d self. unfold _send_message.
  destruct (match d with Str s => Utf8.encode s | Bytes b => Some b end) as [body|];
    [|apply decoded_refl].
  destruct (encode_frame false PONG body) as [frame|]; [|apply decoded_refl].
  cbn [state_of]. eapply decoded_queue; fields; try reflexivity.
  left. split; reflexivity.
Qed.

Lemma close_decoded : forall status reason self,
  decoded self (state_of (close status reason self)).
Proof.
  intros status reason self. unfold close.
  destruct (closed self) eqn:C; cbn [negb finally state_of].
  { apply decoded_quiet; fields; auto. }
  destruct (Struct.pack_H status) as [sb|];
    [|cbn [finally state_of]; apply decoded_quiet; fields; auto].
  destruct (match reason with Str s => Utf8.encode s | Bytes b => Some b end) as [rb|];
    [|cbn [finally state_of]; apply decoded_quiet; fields; auto].
  unfold _send_message.
  destruct (encode_frame false CLOSE (sb ++ rb)) as [frame|];
    cbn [finally state_of]; [|apply decoded_quiet; fields; auto].
  eapply decoded_queue; fields; try reflexivity.
  right. repeat split; assumption.
Qed.

Ltac leaf :=
  cbn [state_of bind finally];
  first [ apply decoded_refl
        | apply close_decoded
        | apply pong_decoded
        | apply decoded_quiet; fields; auto; fail
        | eapply decoded_handle; fields; auto; reflexivity ].

Ltac branch :=
  match goal with
  | |- context [if ?c then _ else _] => destruct c eqn:?
  | |- context [match ?x with _ => _ end] => destruct x eqn:?
  end.

Lemma handle_packet_decoded : forall self, decoded self (state_of (_handle_packet self)).
Proof.
  intro self. unfold _handle_packet, frag_decode. cbv zeta. fields.
  repeat (branch; cbn [bind negb is_nil]; fields); leaf.
Qed.

Lemma decoded_registers : forall s s',
  decoded s s' -> forall s'',
  client s'' = client s' -> handshaked s'' = handshaked s' ->
  headerbuffer s'' = headerbuffer s' -> headertoread s'' = headertoread s' ->
  maxheader s'' = maxheader s' -> maxpayload s'' = maxpayload s' ->
  hooks s'' = hooks s' -> sendq s'' = sendq s' -> closed s'' = closed s' ->
  decoded s s''.
Proof.
  intros s s' D s'' H1 H2 H3 H4 H5 H6 H7 H8 H9.
  apply (decoded_trans D). apply decoded_quiet; auto. congruence.
Qed.

Lemma dispatch_decoded : forall self s,
  decoded self s -> decoded self (state_of (dispatch s)).
Proof.
  intros self s D. apply (decoded_trans D). unfold dispatch.
  pose proof (handle_packet_decoded s) as H.
  destruct (_handle_packet s) as [[] s'|e s']; cbn [finally state_of] in *;
    apply (decoded_registers H); reflexivity.
Qed.

Lemma after_length_decoded : forall self s,
  decoded self s -> decoded self (state_of (after_length s)).
Proof.
  intros self s D. unfold after_length.
  destruct (hasmask s).
  - cbn [state_of]. apply (decoded_registers D); reflexivity.
  - destruct (length s <=? 0); [apply dispatch_decoded, D|].
    cbn [state_of]. apply (decoded_registers D); reflexivity.
Qed.

Ltac register_step :=
  cbn [state_of];
  first [ apply decoded_refl
        | apply decoded_quiet; fields; auto; fail
        | apply after_length_decoded; apply decoded_quiet; fields; auto; fail
        | apply dispatch_decoded; apply decoded_quiet; fields; auto; fail ].

Lemma parse_message_decoded : forall byte self,
  decoded self (state_of (_parse_message byte self)).
Proof.
  intros byte self. unfold _parse_message. cbv zeta.
  repeat (branch; cbn [negb]); register_step.
Qed.

Lemma feed_decoded : forall bs self, decoded self (state_of (feed bs self)).
Proof.
  induction bs as [|b bs IH]; intro self; [apply decoded_refl|].
  rewrite feed_cons. pose proof (parse_message_decoded b self) as H.
  destruct (_parse_message b self) as [[] s|e s]; cbn [bind state_of] in *.
  - apply (decoded_trans H), IH.
  - exact H.
Qed.

(** ** Writing a buffer out *)

Lemma slice_from_all : forall (a : Z) (l : list Z), len l <= a -> slice_from a l = [].
Proof.
  intros a l H. unfold slice_from, len in *. apply skipn_all2. lia.
Qed.

Lemma room_nonneg : forall scr, 0 <= room scr.
Proof.
  induction scr as [|ev scr IH]; [reflexivity|].
  unfold room in *. cbn [fold_right]. destruct ev; lia.
Qed.

Lemma send_all_loop : forall scr w buff a,
  0 <= a <= len buff ->
  forallb sound_event scr = true ->
  len buff - a <= room scr ->
  exists scr',
    _send_buffer_loop scr w buff true a (len buff - a)
    = (Returned None, w ++ slice_from a buff, scr').
Proof.
  induction scr as [|ev scr IH]; intros w buff a Ha Hs Hr.
  - cbn [room fold_right] in Hr. cbn [_send_buffer_loop].
    rewrite not_gt by lia. rewrite slice_from_all by lia. rewrite app_nil_r. eauto.
  - cbn [_send_buffer_loop].
    destruct (Z.gtb_spec (len buff - a) 0) as [Hp|Hp].
    2:{ rewrite slice_from_all by lia. rewrite app_nil_r. eauto. }
    cbn [forallb] in Hs. apply andb_prop in Hs. destruct Hs as [Hev Hs].
    cbn [room fold_right] in Hr. fold (room scr) in Hr.
    destruct ev as [n| | |]; try discriminate Hev.
    + destruct n as [|n]; [discriminate Hev|].
      pose proof (@len_slice_from a buff Ha) as L.
      set (chunk := slice_from a buff) in *.
      set (sent := Z.min (Z.of_nat (S n)) (len chunk)).
      assert (Hsent : 0 < sent <= len chunk) by (unfold sent; lia).
      replace (sent =? 0) with false by (symmetry; apply Z.eqb_neq; lia).
      replace (len buff - a - sent) with (len buff - (a + sent)) by lia.
      destruct (IH (w ++ slice_to sent chunk) buff (a + sent)) as [scr' E];
        [lia|exact Hs|pose proof (room_nonneg scr); unfold sent in *; lia|].
      exists scr'. rewrite E. f_equal. f_equal.
      rewrite <- app_assoc. f_equal.
      rewrite slice_from_add by lia. fold chunk. symmetry. apply slice_split.
    + apply IH; assumption.
    + apply IH; assumption.
Qed.

Lemma send_buffer_all : forall buff self,
  forallb sound_event (script (client self)) = true ->
  len buff <= room (script (client self)) ->
  exists s,
    _send_buffer buff true self = Ok None s
    /\ wire (client s) = wire (client self) ++ buff
    /\ sock_closed (client s) = sock_closed (client self)
    /\ sendq s = sendq self /\ hooks s = hooks self /\ handshaked s = handshaked self.
Proof.
  intros buff self Hs Hr. pose proof (len_nonneg buff) as H0.
  destruct (@send_all_loop (script (client self)) (wire (client self)) buff 0) as [scr' E];
    [lia|exact Hs|lia|].
  rewrite Z.sub_0_r in E. change (slice_from 0 buff) with buff in E.
  unfold _send_buffer. rewrite E. eexists. split; [reflexivity|].
  fields. repeat split.
Qed.

(** X13. [_send_buffer] called with [send_all] writes the whole buffer
    before it returns, through partial writes and refusals to write, as
    long as the transport takes a byte whenever it accepts a write. *)
Theorem send_all_writes_everything : forall buff self,
  forallb sound_event (script (client self)) = true ->
  len buff <= room (script (client self)) ->
  exists s,
    _send_buffer buff true self = Ok None s
    /\ wire (client s) = wire (client self) ++ buff
    /\ sock_closed (client s) = sock_closed (client self)
    /\ sendq s = sendq self /\ hooks s = hooks self /\ handshaked s = handshaked self.
Proof.
  intros. apply send_buffer_all; assumption.
Qed.

Lemma send_all_writes_everything_witness :
  exists s,
    _send_buffer [1; 2; 3] true
      (set_client (Socket [] [WouldBlock; Room 2; SSLWant; WouldBlock; Room 5] false) conn0)
    = Ok None s
    /\ wire (client s) = [1; 2; 3].
Proof.
  destruct (@send_all_writes_everything [1; 2; 3]
              (set_client (Socket [] [WouldBlock; Room 2; SSLWant; WouldBlock; Room 5] false)
                 conn0))
    as [s [A [B _]]]; [reflexivity|vm_compute; discriminate|].
  exists s. split; assumption.
Defined.

(** ** The opening handshake, read by read *)

Lemma set_headerbuffer_twice : forall a b self,
  set_headerbuffer a (set_headerbuffer b self) = set_headerbuffer a self.
Proof. intros a b self. destruct self. reflexivity. Qed.

Lemma not_ge : forall a b, a < b -> (a >=? b) = false.
Proof. intros. rewrite Z.geb_leb. apply Z.leb_gt. lia. Qed.

Lemma is_nil_app : forall (A : Type) (a b : list A), a <> [] -> is_nil (a ++ b) = false.
Proof. intros A [|x a] b H; [congruence|reflexivity]. Qed.

Lemma is_nil_false : forall (A : Type) (a : list A), a <> [] -> is_nil a = false.
Proof. intros A [|x a] H; [congruence|reflexivity]. Qed.

(** X14. However the request is cut into reads, the handshake sees the
    same header: a read that leaves the header unfinished only stores
    its bytes, and the next read does what one read of both chunks
    would have done. *)
Theorem handshake_reads_compose : forall http c1 c2 self,
  handshaked self = false ->
  c1 <> [] -> c2 <> [] ->
  len (headerbuffer self ++ c1) < maxheader self ->
  bytes_contains CRLFCRLF (headerbuffer self ++ c1) = false ->
  _handle_data http (Recv c1) self
  = Ok tt (set_headerbuffer (headerbuffer self ++ c1) self)
  /\ _handle_data http (Recv c2) (set_headerbuffer (headerbuffer self ++ c1) self)
     = _handle_data http (Recv (c1 ++ c2)) self.
Proof.
  intros http c1 c2 self Hh H1 H2 Hl Hc. split.
  - unfold _handle_data. rewrite Hh. cbn [negb]. rewrite (is_nil_false H1).
    cbv zeta. fields. rewrite (not_ge Hl), Hc. reflexivity.
  - unfold _handle_data. fields. rewrite Hh. cbn [negb].
    rewrite (is_nil_false H2), (is_nil_app c2 H1). cbv zeta. fields.
    rewrite set_headerbuffer_twice, <- app_assoc. reflexivity.
Qed.

Lemma handshake_reads_compose_witness :
  _handle_data (fun _ => Headers None) (Recv (str_of "GET / HTTP/1.1" ++ [13; 10; 13]))
    (init (Socket [] [] false))
  = Ok tt (set_headerbuffer (str_of "GET / HTTP/1.1" ++ [13; 10; 13])
             (init (Socket [] [] false)))
  /\ _handle_data (fun _ => Headers None) (Recv [10])
       (set_headerbuffer (str_of "GET / HTTP/1.1" ++ [13; 10; 13])
          (init (Socket [] [] false)))
     = _handle_data (fun _ => Headers None)
         (Recv ((str_of "GET / HTTP/1.1" ++ [13; 10; 13]) ++ [10]))
         (init (Socket [] [] false)).
Proof.
  apply (@handshake_reads_compose (fun _ => Headers None)
           (str_of "GET / HTTP/1.1" ++ [13; 10; 13]) [10] (init (Socket [] [] false)));
    try reflexivity; discriminate.
Defined.

(** X15. A request without a Sec-WebSocket-Key, or with a key that is not
    ASCII, is answered with the 426 response, written to the socket at
    once and not through the send queue; the socket is then closed and
    the read raises an [Exception] whose message is "handshake failed: "
    followed by the text of the exception caught, the [AttributeError]
    of [None.encode] or the [UnicodeEncodeError] of the key: the
    connection is not marked as handshaked and [connected] is not
    called. *)
Theorem handshake_refused : forall http chunk self key,
  handshaked self = false ->
  chunk <> [] ->
  len (headerbuffer self ++ chunk) < maxheader self ->
  bytes_contains CRLFCRLF (headerbuffer self ++ chunk) = true ->
  http (headerbuffer self ++ chunk) = Headers key ->
  (key = None \/ exists k, key = Some k /\ encode_ascii k = None) ->
  forallb sound_event (script (client self)) = true ->
  len FAILED_HANDSHAKE_STR <= room (script (client self)) ->
  exists s,
    _handle_data http (Recv chunk) self
    = Raise (Exception (String.append "handshake failed: " (handshake_error_text key))) s
    /\ wire (client s) = wire (client self) ++ FAILED_HANDSHAKE_STR
    /\ sock_closed (client s) = true
    /\ handshaked s = false /\ sendq s = sendq self /\ hooks s = hooks self.
Proof.
  intros http chunk self key Hh Hc Hl Hb E Hk Hs Hr.
  unfold _handle_data. rewrite Hh. cbn [negb]. rewrite (is_nil_false Hc).
  cbv zeta. fields. rewrite (not_ge Hl), Hb, E.
  set (s0 := set_headerbuffer (headerbuffer self ++ chunk) self).
  assert (R : exists e, handshake key s0 = Raise e s0).
  { destruct Hk as [K|[k [K A]]]; subst key; unfold handshake.
    - eauto.
    - rewrite A. eauto. }
  destruct R as [e R].
  destruct (@send_buffer_all FAILED_HANDSHAKE_STR s0 Hs Hr)
    as [s1 [S [W [C [Q [K H]]]]]].
  rewrite R, S.
  eexists. split; [reflexivity|]. unfold client_close. fields.
  rewrite W, Q, K, H. repeat split. exact Hh.
Qed.

(** A request without the key, and one whose key is the letter e with
    an acute accent. *)
Lemma handshake_refused_witness :
  (exists s,
     _handle_data (fun _ => Headers None)
       (Recv (str_of "GET / HTTP/1.1" ++ [13; 10; 13; 10]))
       (init (Socket [] [Room 100; WouldBlock; Room 100] false))
     = Raise (Exception "handshake failed: 'NoneType' object has no attribute 'encode'") s
     /\ wire (client s) = FAILED_HANDSHAKE_STR
     /\ sock_closed (client s) = true
     /\ handshaked s = false /\ sendq s = [] /\ hooks s = [])
  /\ exists s,
       _handle_data (fun _ => Headers (Some [0x61; 0xE9]))
         (Recv (str_of "GET / HTTP/1.1" ++ [13; 10; 13; 10]))
         (init (Socket [] [Room 200] false))
       = Raise (Exception "handshake failed: 'ascii' codec can't encode character '\xe9' in position 1: ordinal not in range(128)") s
       /\ wire (client s) = FAILED_HANDSHAKE_STR
       /\ sock_closed (client s) = true.
Proof.
  split.
  - apply (@handshake_refused (fun _ => Headers None)
             (str_of "GET / HTTP/1.1" ++ [13; 10; 13; 10])
             (init (Socket [] [Room 100; WouldBlock; Room 100] false)) None);
      [reflexivity|discriminate|reflexivity|reflexivity|reflexivity|left; reflexivity
      |reflexivity|vm_compute; discriminate].
  - destruct (@handshake_refused (fun _ => Headers (Some [0x61; 0xE9]))
                (str_of "GET / HTTP/1.1" ++ [13; 10; 13; 10])
                (init (Socket [] [Room 200] false)) (Some [0x61; 0xE9]))
      as [s [A [B [C _]]]];
      [reflexivity|discriminate|reflexivity|reflexivity|reflexivity
      |right; exists [0x61; 0xE9]; split; reflexivity
      |reflexivity|vm_compute; discriminate|].
    exists s. split; [exact A|]. split; [exact B|exact C].
Defined.

(** ** Reads, as the server sees them *)

Lemma second_pass_stops : forall data_ self,
  data_ <> [] ->
  exists s,
    for_each (fun d self => match ord d with
                            | Some byte => _parse_message byte self
                            | None => Raise TypeError self
                            end) (iter_bytes data_) self
    = Raise TypeError s /\ s = self.
Proof.
  intros [|d data_] self H; [congruence|]. exists self. split; reflexivity.
Qed.

Lemma established_read_raises : forall http data_ self,
  handshaked self = true -> data_ <> [] ->
  exists e s, _handle_data http (Recv data_) self = Raise e s /\ decoded self s.
Proof.
  intros http data_ self Hh Hd. unfold _handle_data. rewrite Hh. cbn [negb].
  rewrite (is_nil_false Hd), first_pass_is_feed.
  pose proof (feed_decoded data_ self) as D.
  destruct (feed data_ self) as [[] s|e s]; cbn [bind state_of] in *.
  - destruct (@second_pass_stops data_ s Hd) as [s' [E E']]. subst s'.
    rewrite E. eauto.
  - eauto.
Qed.

(** X16. Once the handshake is done, a read that yields data, an empty
    read, or a read that fails ends with the client evicted: its socket
    is closed and [handle_close] is called once, after the calls of
    [handle] for the frames of the read; only a read that asks to wait
    keeps the client. *)
Theorem established_client_evicted_by_read : forall http r c,
  handshaked c = true ->
  match r with
  | RecvWant => WebSocketServer.readable http r (WebSocketServer.Live c)
                = WebSocketServer.Live c
  | _ =>
    exists c' hs,
      WebSocketServer.readable http r (WebSocketServer.Live c) = WebSocketServer.Evicted c'
      /\ sock_closed (client c') = true
      /\ wire (client c') = wire (client c)
      /\ hooks c' = hooks c ++ hs ++ [HandleClose]
      /\ Forall (fun h => exists d, h = Handle d) hs
      /\ (r = Recv [] \/ r = RecvError -> hs = [] /\ sendq c' = sendq c)
  end.
Proof.
  intros http r c Hh. unfold WebSocketServer.readable.
  destruct r as [data_| |].
  - destruct data_ as [|d data_].
    + unfold _handle_data. rewrite Hh. cbn [negb is_nil].
      unfold WebSocketServer._handle_close, client_close, handle_close. fields.
      rewrite Hh. eexists. exists []. split; [reflexivity|]. fields.
      repeat split. constructor.
    + destruct (@established_read_raises http (d :: data_) c Hh ltac:(discriminate))
        as [e [s [E D]]].
      rewrite E.
      destruct D as [D1 [D2 [D3 [D4 [D5 [D6 [[hs [D7 D7']] _]]]]]]].
      unfold WebSocketServer._handle_close, client_close, handle_close. fields.
      rewrite D2, Hh. eexists. exists hs. split; [reflexivity|]. fields.
      rewrite D1, D7, <- app_assoc. repeat split; try assumption.
      * destruct H as [H|H]; discriminate H.
      * destruct H as [H|H]; discriminate H.
  - unfold _handle_data. rewrite Hh. reflexivity.
  - unfold _handle_data. rewrite Hh. cbn [negb].
    unfold WebSocketServer._handle_close, client_close, handle_close. fields.
    rewrite Hh. eexists. exists []. split; [reflexivity|]. fields.
    repeat split. constructor.
Qed.

Lemma established_client_evicted_by_read_witness :
  exists c' hs,
    WebSocketServer.readable (fun _ => BadRequest) (Recv [0x82; 0x01; 0x07])
      (WebSocketServer.Live conn0)
    = WebSocketServer.Evicted c'
    /\ sock_closed (client c') = true
    /\ hooks c' = hooks conn0 ++ hs ++ [HandleClose]
    /\ Forall (fun h => exists d, h = Handle d) hs.
Proof.
  destruct (@established_client_evicted_by_read (fun _ => BadRequest)
              (Recv [0x82; 0x01; 0x07]) conn0 eq_refl)
    as [c' [hs [A [B [_ [C [D _]]]]]]].
  exists c', hs. repeat split; assumption.
Defined.

Lemma send_buffer_keeps : forall buff send_all self,
  let s := state_of (_send_buffer buff send_all self) in
  handshaked s = handshaked self /\ hooks s = hooks self /\ sendq s = sendq self
  /\ sock_closed (client s) = sock_closed (client self).
Proof.
  intros buff send_all self. unfold _send_buffer.
  destruct (_send_buffer_loop (script (client self)) (wire (client self)) buff send_all 0
              (len buff)) as [[status w] scr].
  destruct status; cbn [state_of]; fields; repeat split.
Qed.

(** X17. A client evicted by a read before its handshake was completed
    gets its socket closed and nothing else: [handle_close] is not
    called, [connected] was not, and nothing was queued. *)
Theorem unestablished_client_evicted_silently : forall http r c c',
  handshaked c = false ->
  WebSocketServer.readable http r (WebSocketServer.Live c) = WebSocketServer.Evicted c' ->
  sock_closed (client c') = true
  /\ handshaked c' = false /\ hooks c' = hooks c /\ sendq c' = sendq c.
Proof.
  intros http r c c' Hh H. unfold WebSocketServer.readable in H.
  assert (K : forall e s, _handle_data http r c = Raise e s ->
              handshaked s = false /\ hooks s = hooks c /\ sendq s = sendq c).
  { intros e s E. unfold _handle_data in E. rewrite Hh in E. cbn [negb] in E.
    destruct r as [data_| |]; try (inversion E; subst; auto; fail).
    destruct (is_nil data_); [inversion E; subst; auto|].
    cbv zeta in E. fields.
    destruct (len (headerbuffer c ++ data_) >=? maxheader c);
      [inversion E; subst; fields; auto|].
    destruct (bytes_contains CRLFCRLF (headerbuffer c ++ data_));
      [|discriminate E].
    destruct (http (headerbuffer c ++ data_)) as [|key];
      [inversion E; subst; fields; auto|].
    set (s0 := set_headerbuffer (headerbuffer c ++ data_) c) in *.
    assert (R : forall e1 s1, handshake key s0 = Raise e1 s1 -> s1 = s0).
    { intros e1 s1 R. unfold handshake in R. destruct key as [k|]; [|congruence].
      destruct (encode_ascii k); [discriminate R|congruence]. }
    destruct (handshake key s0) as [[] s1|e1 s1] eqn:E1; [discriminate E|].
    rewrite (R _ _ eq_refl) in E.
    pose proof (send_buffer_keeps FAILED_HANDSHAKE_STR true s0) as [B1 [B2 [B3 B4]]].
    destruct (_send_buffer FAILED_HANDSHAKE_STR true s0) as [v s2|e2 s2];
      cbn [state_of] in *; inversion E; subst; unfold client_close; fields;
      rewrite ?B1, ?B2, ?B3; auto. }
  destruct (_handle_data http r c) as [[] s|e s]; [discriminate H|].
  destruct (K e s eq_refl) as [K1 [K2 K3]]. inversion H; subst c'.
  unfold WebSocketServer._handle_close, client_close. fields. rewrite K1.
  fields. auto.
Qed.

Lemma unestablished_client_evicted_silently_witness :
  exists c',
    WebSocketServer.readable (fun _ => BadRequest) (Recv [])
      (WebSocketServer.Live (init (Socket [] [] false)))
    = WebSocketServer.Evicted c'
    /\ sock_closed (client c') = true
    /\ handshaked c' = false
    /\ hooks c' = hooks (init (Socket [] [] false))
    /\ sendq c' = sendq (init (Socket [] [] false)).
Proof.
  eexists. split; [reflexivity|].
  apply (@unestablished_client_evicted_silently (fun _ => BadRequest) (Recv [])
           (init (Socket [] [] false))); reflexivity.
Defined.

(** ** The payload buffer *)

Lemma dispatch_bounded : forall s limit,
  maxpayload s = limit -> 0 < limit -> bounded limit (dispatch s).
Proof.
  intros s limit E Hp. subst limit. unfold dispatch.
  pose proof (handle_packet_decoded s) as [_ [_ [_ [_ [_ [M _]]]]]].
  destruct (_handle_packet s) as [[] s'|e s']; cbn [finally state_of bounded] in *;
    fields; cbn [data_len]; change (len (@nil Z)) with 0; split; try lia; exact M.
Qed.

Lemma after_length_bounded : forall s limit,
  maxpayload s = limit -> 0 < limit -> data_len (data s) < limit ->
  bounded limit (after_length s).
Proof.
  intros s limit E Hp Hd. unfold after_length.
  destruct (hasmask s).
  - cbn [bounded]. fields. split; [exact Hd|exact E].
  - destruct (length s <=? 0); [apply dispatch_bounded; assumption|].
    cbn [bounded]. fields. cbn [data_len]. change (len (@nil Z)) with 0.
    split; [lia|exact E].
Qed.

Ltac bounded_step :=
  first [ solve [cbn [bounded]; fields; cbn [data_len]; change (len (@nil Z)) with 0;
                 split; [lia|reflexivity]]
        | solve [apply after_length_bounded; fields; cbn [data_len];
                 change (len (@nil Z)) with 0; first [reflexivity|lia]]
        | solve [apply dispatch_bounded; fields; first [reflexivity|lia]] ].

Lemma payload_step_bounded : forall byte self,
  state self = PAYLOAD ->
  0 < maxpayload self -> data_len (data self) < maxpayload self ->
  bounded (maxpayload self) (_parse_message byte self).
Proof.
  intros byte self Hs Hp Hd. state_is PAYLOAD.
  destruct (data self) as [d|s] eqn:Ed; [|cbn [bounded]; rewrite Ed; split; [lia|reflexivity]].
  cbn [data_len] in Hd.
  match goal with
  | |- bounded _ (match ?a with Some _ => _ | None => _ end) => set (appended := a)
  end.
  assert (A : forall l, appended = Some l -> len l = len d + 1).
  { unfold appended. intros l E.
    destruct (hasmask self);
      [destruct (maskarray self) as [ma|]; [|discriminate E];
       destruct (nth_error ma (Z.to_nat (index self mod 4))); [|discriminate E]|];
      inversion E; rewrite len_app; reflexivity. }
  destruct appended as [l|];
    [|cbn [bounded]; rewrite Ed; cbn [data_len]; split; [lia|reflexivity]].
  specialize (A l eq_refl). cbv zeta. fields.
  destruct (Z.geb_spec (len l) (maxpayload self)).
  - cbn [bounded]. fields. cbn [data_len]. split; [lia|reflexivity].
  - destruct (index self + 1 =? length self).
    + apply dispatch_bounded; [reflexivity|exact Hp].
    + cbn [bounded]. fields. cbn [data_len]. split; [lia|reflexivity].
Qed.

Lemma parse_message_bounded : forall byte self,
  0 < maxpayload self -> data_len (data self) < maxpayload self ->
  bounded (maxpayload self) (_parse_message byte self).
Proof.
  intros byte self Hp Hd.
  destruct (state self =? PAYLOAD) eqn:EP;
    [apply payload_step_bounded; [apply Z.eqb_eq, EP|exact Hp|exact Hd]|].
  unfold _parse_message. rewrite EP. cbv zeta.
  repeat (branch; cbn [negb]); fields; bounded_step.
Qed.

Lemma feed_bounded : forall bs self,
  0 < maxpayload self -> data_len (data self) < maxpayload self ->
  bounded (maxpayload self) (feed bs self).
Proof.
  induction bs as [|b bs IH]; intros self Hp Hd.
  - cbn [feed for_each bounded]. split; [exact Hd|reflexivity].
  - rewrite feed_cons. pose proof (@parse_message_bounded b self Hp Hd) as H.
    destruct (_parse_message b self) as [[] s|e s]; cbn [bind bounded] in *.
    + destruct H as [H1 H2]. rewrite <- H2. apply IH; rewrite H2; assumption.
    + exact H.
Qed.

(** X18. Whatever bytes arrive, and whether they are accepted or not, the
    frame decoder works on its own registers and the fragment buffer:
    it leaves the socket, the handshake flag, the header buffer and the
    size limits as they were, it never clears [closed], and of the hooks
    it calls [handle] only. *)
Theorem decoder_leaves_connection_alone : forall bs self,
  let s := state_of (feed bs self) in
  client s = client self /\ handshaked s = handshaked self
  /\ headerbuffer s = headerbuffer self
  /\ maxheader s = maxheader self /\ maxpayload s = maxpayload self
  /\ (closed self = true -> closed s = true)
  /\ exists hs, hooks s = hooks self ++ hs /\ Forall (fun h => exists d, h = Handle d) hs.
Proof.
  intros bs self s.
  destruct (feed_decoded bs self) as [D1 [D2 [D3 [D4 [D5 [D6 [D7 [_ D9]]]]]]]].
  repeat split; assumption.
Qed.

(** X19. Whatever bytes arrive, the decoder only adds to the send queue,
    and what it adds are pongs and at most one Close frame; it adds no
    Close frame on a connection already closed, and the connection is
    closed once it has added one. *)
Theorem decoder_queues_pongs_and_one_close : forall bs self,
  exists q,
    sendq (state_of (feed bs self)) = sendq self ++ q
    /\ Forall (fun f => fst f = PONG \/ fst f = CLOSE) q
    /\ (closes q <= 1)%nat
    /\ (closed self = true -> closes q = 0%nat)
    /\ (closes q = 1%nat -> closed (state_of (feed bs self)) = true).
Proof.
  intros bs self.
  destruct (feed_decoded bs self) as [_ [_ [_ [_ [_ [_ [_ [D8 _]]]]]]]]. exact D8.
Qed.

(** X20. The payload buffer never holds [maxpayload] bytes or more when
    the decoder returns, whatever was received, and holds at most
    [maxpayload] bytes when it raises. *)
Theorem payload_buffer_bounded : forall bs self,
  0 < maxpayload self ->
  data_len (data self) < maxpayload self ->
  match feed bs self with
  | Ok _ s => data_len (data s) < maxpayload self
  | Raise _ s => data_len (data s) <= maxpayload self
  end.
Proof.
  intros bs self Hp Hd. pose proof (@feed_bounded bs self Hp Hd) as B.
  destruct (feed bs self) as [[] s|e s]; exact (proj1 B).
Qed.

(** A frame that announces nine bytes, on a connection limited to four. *)
Lemma payload_buffer_bounded_witness :
  exists e s,
    feed [0x82; 0x7F; 0; 0; 0; 0; 0; 0; 0; 9; 1; 2; 3; 4; 5] (with_limits 65536 4 conn0)
    = Raise e s
    /\ data_len (data s) <= 4.
Proof.
  pose proof (@payload_buffer_bounded [0x82; 0x7F; 0; 0; 0; 0; 0; 0; 0; 9; 1; 2; 3; 4; 5]
                (with_limits 65536 4 conn0) eq_refl eq_refl) as H.
  destruct (feed [0x82; 0x7F; 0; 0; 0; 0; 0; 0; 0; 9; 1; 2; 3; 4; 5]
              (with_limits 65536 4 conn0)) as [[] s|e s] eqn:E.
  - vm_compute in E. discriminate E.
  - exists e, s. split; [reflexivity|exact H].
Defined.

(** ** Shutting the server down *)

(** X21. When the server is closed, each connection gets a Close frame
    with status 1000 queued, unless it was closed before, and its socket
    is closed at once: the frame is not written, nor is anything that
    was waiting in the queue; [handle_close] is called for the
    connections that had completed the handshake. *)
Theorem server_close_sends_nothing : forall c,
  exists s,
    server_close c = Ok tt s
    /\ sendq s = sendq c ++ (if closed c then [] else [(CLOSE, [0x88; 0x02; 0x03; 0xE8])])
    /\ wire (client s) = wire (client c)
    /\ sock_closed (client s) = true
    /\ closed s = true
    /\ hooks s = hooks c ++ (if handshaked c then [HandleClose] else []).
Proof.
  intro c. unfold server_close, close.
  destruct (closed c) eqn:Hc; cbn [negb finally bind].
  - unfold WebSocketServer._handle_close, client_close, handle_close. fields.
    eexists. split; [reflexivity|].
    destruct (handshaked c); fields; rewrite !app_nil_r; repeat split.
  - change (Struct.pack_H 1000) with (Some [0x03; 0xE8]).
    change (Utf8.encode []) with (Some (@nil Z)).
    unfold _send_message.
    change (encode_frame false CLOSE ([0x03; 0xE8] ++ []))
      with (Some [0x88; 0x02; 0x03; 0xE8]).
    cbn [finally bind].
    unfold WebSocketServer._handle_close, client_close, handle_close. fields.
    eexists. split; [reflexivity|].
    destruct (handshaked c); fields; rewrite ?app_nil_r; repeat split.
Qed.

(** ** A whole exchange *)

Lemma handshake_accepted : forall http self chunk key,
  handshaked self = false ->
  chunk <> [] ->
  len (headerbuffer self ++ chunk) < maxheader self ->
  bytes_contains CRLFCRLF (headerbuffer self ++ chunk) = true ->
  http (headerbuffer self ++ chunk) = Headers (Some key) ->
  encode_ascii key = Some key ->
  _handle_data http (Recv chunk) self
  = Ok tt (connected (set_handshaked true
             (set_sendq (sendq self ++ [(BINARY, HANDSHAKE_STR (accept_token key))])
                (set_headerbuffer (headerbuffer self ++ chunk) self)))).
Proof.
  intros http self chunk key Hh Hc Hl Hb Hk Ha.
  unfold _handle_data. rewrite Hh. cbn [negb]. rewrite (is_nil_false Hc).
  cbv zeta. fields. rewrite (not_ge Hl), Hb, Hk. unfold handshake. rewrite Ha.
  reflexivity.
Qed.

(** X22. A request with an ASCII key, read on a connection with nothing
    to send, is answered in the turns that follow: [connected] is called,
    the 101 response is the next thing on the wire, whole, and the queue
    is empty again. *)
Theorem handshake_response_delivered : forall http chunk key c scrs,
  handshaked c = false ->
  sendq c = [] ->
  chunk <> [] ->
  len (headerbuffer c ++ chunk) < maxheader c ->
  bytes_contains CRLFCRLF (headerbuffer c ++ chunk) = true ->
  http (headerbuffer c ++ chunk) = Headers (Some key) ->
  encode_ascii key = Some key ->
  Forall (fun scr => willing scr = true) scrs ->
  (S (List.length (HANDSHAKE_STR (accept_token key))) <= List.length scrs)%nat ->
  exists c1 c2,
    WebSocketServer.readable http (Recv chunk) (WebSocketServer.Live c)
    = WebSocketServer.Live c1
    /\ handshaked c1 = true
    /\ hooks c1 = hooks c ++ [Connected]
    /\ WebSocketServer.writable_turns scrs (WebSocketServer.Live c1)
       = WebSocketServer.Live c2
    /\ wire (client c2) = wire (client c) ++ HANDSHAKE_STR (accept_token key)
    /\ sendq c2 = [].
Proof.
  intros http chunk key c scrs Hh Hq Hc Hl Hb Hk Ha Hw Hn.
  unfold WebSocketServer.readable.
  rewrite (@handshake_accepted http c chunk key Hh Hc Hl Hb Hk Ha).
  eexists. 
  match goal with
  | |- exists c2, WebSocketServer.Live ?c1 = _ /\ _ =>
    destruct (@queue_is_delivered scrs c1 Hw) as [W [L _]]
  end.
  { unfold connected. fields. rewrite Hq. cbn [app]. rewrite backlog_cons.
    cbn [backlog fold_right]. lia. }
  destruct L as [c2 [E Q]].
  { unfold connected. fields. rewrite Hq. reflexivity. }
  exists c2. split; [reflexivity|]. unfold connected in *. fields.
  split; [reflexivity|]. split; [reflexivity|]. split; [exact E|].
  rewrite E in W. cbn [wire_of] in W. rewrite W, Hq. cbn [app].
  rewrite until_close_cons. change (BINARY =? CLOSE) with false. cbv iota.
  cbn [until_close]. rewrite app_nil_r. split; [reflexivity|exact Q].
Qed.

Lemma handshake_response_delivered_witness :
  exists c1 c2,
    WebSocketServer.readable (fun _ => Headers (Some (str_of "dGhlIHNhbXBsZSBub25jZQ==")))
      (Recv (str_of "GET /chat HTTP/1.1" ++ [13; 10; 13; 10]))
      (WebSocketServer.Live (init (Socket [] [] false)))
    = WebSocketServer.Live c1
    /\ handshaked c1 = true
    /\ hooks c1 = hooks (init (Socket [] [] false)) ++ [Connected]
    /\ WebSocketServer.writable_turns (repeat [Room 64; WouldBlock] 130)
         (WebSocketServer.Live c1)
       = WebSocketServer.Live c2
    /\ wire (client c2)
       = wire (client (init (Socket [] [] false)))
         ++ HANDSHAKE_STR (accept_token (str_of "dGhlIHNhbXBsZSBub25jZQ=="))
    /\ sendq c2 = [].
Proof.
  apply (@handshake_response_delivered
           (fun _ => Headers (Some (str_of "dGhlIHNhbXBsZSBub25jZQ==")))
           (str_of "GET /chat HTTP/1.1" ++ [13; 10; 13; 10])
           (str_of "dGhlIHNhbXBsZSBub25jZQ==")
           (init (Socket [] [] false))
           (repeat [Room 64; WouldBlock] 130)).
  - reflexivity.
  - reflexivity.
  - discriminate.
  - reflexivity.
  - reflexivity.
  - reflexivity.
  - reflexivity.
  - apply Forall_forall. intros x Hx. apply repeat_spec in Hx. subst x. reflexivity.
  - vm_compute. apply le_n.
Defined.

Lemma frame_overhead : forall b1 body frame,
  wire_frame b1 None body = Some frame ->
  (List.length frame <= List.length body + 10)%nat.
Proof.
  intros b1 body frame W. pose proof (len_nonneg body) as H0. unfold wire_frame in W.
  destruct (length_field (len body)) as [[|l7 ext]|] eqn:LF; try discriminate W.
  apply some_eq in W. subst frame.
  destruct (length_field_cases H0 LF) as [[_ [_ E]]|[[_ [_ E]]|[_ [_ E]]]]; subst ext;
    cbn [List.length]; rewrite length_app, ?be_bytes_length; cbn [List.length]; lia.
Qed.

(** X23. A message sent on a connection with nothing else to send reaches
    the wire whole in the turns that follow, and the decoder of the peer
    reads from these bytes the message that was sent. *)
Theorem message_reaches_peer : forall c peer data_ body scrs,
  sendq c = [] ->
  body_of data_ = Some body ->
  len body < maxpayload peer -> len body < 2 ^ 64 ->
  state peer = HEADERB1 -> frag_start peer = false ->
  Forall (fun scr => willing scr = true) scrs ->
  (List.length body + 11 <= List.length scrs)%nat ->
  exists c1 c2 sent p,
    send_message data_ c = Ok tt c1
    /\ WebSocketServer.writable_turns scrs (WebSocketServer.Live c1)
       = WebSocketServer.Live c2
    /\ sendq c2 = []
    /\ wire (client c2) = wire (client c) ++ sent
    /\ feed sent peer = Ok tt p
    /\ hooks p = hooks peer ++ [Handle data_].
Proof.
  intros c peer data_ body scrs Hq Hb Hm H64 Hs Hf Hw Hn.
  destruct (@send_message_frame false (opcode_of data_) data_ body c
              (opcode_of_range data_) Hb H64) as [frame [W S]].
  cbn [negb] in W.
  destruct (@sent_frame_read peer data_ body frame Hs Hf Hb Hm H64 W) as [p [F [P _]]].
  pose proof (frame_overhead _ _ W) as O.
  destruct (@queue_is_delivered scrs
              (set_sendq (sendq c ++ [(opcode_of data_, frame)]) c) Hw) as [D [L _]].
  { fields. rewrite Hq. cbn [app]. rewrite backlog_cons. cbn [backlog fold_right]. lia. }
  destruct L as [c2 [E Q]].
  { fields. rewrite Hq. cbn [app]. rewrite has_close_cons.
    destruct data_; reflexivity. }
  eexists. exists c2, frame, p. unfold send_message. fold (opcode_of data_).
  split; [exact S|]. split; [exact E|]. split; [exact Q|].
  split; [|split; [exact F|exact P]].
  rewrite E in D. cbn [wire_of] in D. rewrite D. fields. rewrite Hq. cbn [app].
  rewrite until_close_cons.
  destruct data_; cbn [opcode_of]; [change (BINARY =? CLOSE) with false
                                   |change (TEXT =? CLOSE) with false];
    cbv iota; cbn [until_close]; rewrite app_nil_r; reflexivity.
Qed.

Lemma message_reaches_peer_witness :
  exists c1 c2 sent p,
    send_message (Str [0x48; 0x20AC]) conn0 = Ok tt c1
    /\ WebSocketServer.writable_turns (repeat [Room 3; WouldBlock] 15)
         (WebSocketServer.Live c1)
       = WebSocketServer.Live c2
    /\ sendq c2 = []
    /\ wire (client c2) = wire (client conn0) ++ sent
    /\ feed sent conn0 = Ok tt p
    /\ hooks p = hooks conn0 ++ [Handle (Str [0x48; 0x20AC])].
Proof.
  apply (@message_reaches_peer conn0 conn0 (Str [0x48; 0x20AC]) [0x48; 0xE2; 0x82; 0xAC]
           (repeat [Room 3; WouldBlock] 15)).
  - reflexivity.
  - reflexivity.
  - reflexivity.
  - reflexivity.
  - reflexivity.
  - reflexivity.
  - apply Forall_forall. intros x Hx. apply repeat_spec in Hx. subst x. reflexivity.
  - vm_compute. repeat constructor.
Defined.

(** ** What the decoder does not check *)

Lemma first_binary_fragment : forall self s f,
  state s = HEADERB1 -> maxpayload s = maxpayload self -> readable_by self f ->
  exists s1,
    feed (frame_bytes 0x02 f) s = Ok tt s1
    /\ state s1 = HEADERB1 /\ frag_start s1 = true /\ frag_type s1 = BINARY
    /\ frag_buffer s1 = Some (FragBytes (carried f))
    /\ hooks s1 = hooks s /\ sendq s1 = sendq s /\ maxpayload s1 = maxpayload s.
Proof.
  intros self s f Hs Hm Hf.
  rewrite (@read_fragment s 0x02 f Hs ltac:(auto) (readable_by_same _ Hm Hf)).
  rewrite (@handle_first_binary _ (carried f)); try reflexivity.
  cbn [finally]. eexists. split; [reflexivity|]. observe. repeat split.
Qed.

(** X24. A first fragment received while a fragmented message is being
    put together is not refused: it starts a new message, and what had
    been received of the unfinished one is dropped without a word. *)
Theorem unfinished_message_replaced : forall self first second last,
  state self = HEADERB1 ->
  readable_by self first -> readable_by self second -> readable_by self last ->
  exists s,
    feed (frame_bytes 0x02 first ++ frame_bytes 0x02 second ++ frame_bytes 0x80 last) self
    = Ok tt s
    /\ hooks s = hooks self ++ [Handle (Bytes (carried second ++ carried last))]
    /\ frag_start s = false /\ state s = HEADERB1 /\ sendq s = sendq self.
Proof.
  intros self first second last Hs H1 H2 H3.
  destruct (@first_binary_fragment self self first Hs eq_refl H1)
    as [s1 [F1 [A1 [_ [_ [_ [A5 [A6 A7]]]]]]]].
  destruct (@first_binary_fragment self s1 second A1 A7 H2)
    as [s2 [F2 [B1 [B2 [B3 [B4 [B5 [B6 B7]]]]]]]].
  destruct (@last_binary_fragment self s2 (carried second) last B1 B2 B3 B4)
    as [s [F [C1 [C2 [C3 [C4 C5]]]]]]; [congruence|exact H3|].
  exists s. rewrite feed_app, F1. cbn [bind]. rewrite feed_app, F2. cbn [bind].
  split; [exact F|]. rewrite C1, C2, B5, B6, A5, A6. repeat split; assumption.
Qed.

Lemma unfinished_message_replaced_witness :
  exists s,
    feed (frame_bytes 0x02 (None, [1; 2]) ++ frame_bytes 0x02 (None, [3])
            ++ frame_bytes 0x80 (None, [4])) conn0
    = Ok tt s
    /\ hooks s = hooks conn0 ++ [Handle (Bytes [3; 4])]
    /\ frag_start s = false /\ state s = HEADERB1 /\ sendq s = sendq conn0.
Proof.
  apply (@unfinished_message_replaced conn0 (None, [1; 2]) (None, [3]) (None, [4]));
    [reflexivity|repeat split; discriminate..].
Defined.

Lemma feed_unmasked_body : forall s w,
  hasmask s = false -> data s = Bytes [] -> index s = 0 -> length s = len w ->
  len w < maxpayload s ->
  bind (after_length s) (fun _ s' => feed w s')
  = dispatch (set_state (if len w =? 0 then state s else PAYLOAD)
                (set_index (Z.max 0 (len w - 1))
                   (set_data (Bytes w) (set_maskarray (maskarray s) s)))).
Proof.
  intros s w Hh Hd Hi Hl Hm.
  apply (@feed_body None w s); try assumption. discriminate.
Qed.

Lemma overlong_frame_read : forall self b1 n ext w,
  state self = HEADERB1 -> Z.land b1 0x70 = 0 -> (Z.land b1 0x0F =? PING) = false ->
  (n = 2%nat /\ len w < 65536) \/ (n = 8%nat /\ len w < 2 ^ 64) ->
  ext = Struct.be_bytes n (len w) ->
  len w < maxpayload self ->
  exists d,
    feed (b1 :: (if Nat.eqb n 2 then 126 else 127) :: ext ++ w) self = dispatch d
    /\ fin d = Z.land b1 0x80 /\ opcode d = Z.land b1 0x0F /\ data d = Bytes w
    /\ frag_start d = frag_start self /\ frag_type d = frag_type self
    /\ frag_buffer d = frag_buffer self /\ hooks d = hooks self
    /\ sendq d = sendq self /\ closed d = closed self.
Proof.
  intros self b1 n ext w Hs Hr Hop Hn He Hm. pose proof (len_nonneg w) as H0. subst ext.
  rewrite feed_cons, (@step_header1 b1 self Hs Hr). cbn [bind].
  rewrite feed_cons, step_header2; [|reflexivity|].
  2:{ change (opcode _) with (Z.land b1 0x0F). rewrite Hop. reflexivity. }
  cbv zeta. destruct Hn as [[En Hl]|[En Hl]]; subst n; cbn [Nat.eqb].
  - change (Z.land 126 0x7F) with 126. change (Z.land 126 0x80 =? 128) with false.
    change (126 <=? 125) with false. change (126 =? 126) with true. cbv iota.
    cbn [bind]. rewrite feed_app, feed_short; [|reflexivity|reflexivity|apply be_bytes_length].
    rewrite be_int_be_bytes by lia.
    change (256 ^ Z.of_nat 2) with 65536. rewrite Z.mod_small by lia.
    rewrite feed_unmasked_body; try reflexivity; [|exact Hm].
    eexists. split; [reflexivity|]. fields. repeat split.
  - change (Z.land 127 0x7F) with 127. change (Z.land 127 0x80 =? 128) with false.
    change (127 <=? 125) with false. change (127 =? 126) with false.
    change (127 =? 127) with true. cbv iota.
    cbn [bind]. rewrite feed_app, feed_long; [|reflexivity|reflexivity|apply be_bytes_length].
    rewrite be_int_be_bytes by lia.
    change (256 ^ Z.of_nat 8) with (2 ^ 64). rewrite Z.mod_small by lia.
    rewrite feed_unmasked_body; try reflexivity; [|exact Hm].
    eexists. split; [reflexivity|]. fields. repeat split.
Qed.

(** X25. The decoder does not ask for the shortest encoding of a length:
    a binary frame whose length is written on 16 or on 64 bits although
    it would fit a shorter field is read like any other, and its payload
    is handed to [handle]. *)
Theorem overlong_length_accepted : forall self w,
  state self = HEADERB1 ->
  frag_start self = false ->
  len w < maxpayload self ->
  (len w < 65536 ->
   exists s,
     feed (0x82 :: 126 :: Struct.be_bytes 2 (len w) ++ w) self = Ok tt s
     /\ hooks s = hooks self ++ [Handle (Bytes w)])
  /\ (len w < 2 ^ 64 ->
      exists s,
        feed (0x82 :: 127 :: Struct.be_bytes 8 (len w) ++ w) self = Ok tt s
        /\ hooks s = hooks self ++ [Handle (Bytes w)]).
Proof.
  intros self w Hs Hf Hm. split; intro Hl.
  - destruct (@overlong_frame_read self 0x82 2%nat _ w Hs eq_refl eq_refl
                (or_introl (conj eq_refl Hl)) eq_refl Hm)
      as [d [F [D1 [D2 [D3 [D4 [_ [_ [D7 _]]]]]]]]].
    cbn [Nat.eqb] in F. rewrite F, dispatch_rearm.
    rewrite (@handle_binary d w D2 D1 D3); [|congruence].
    cbn [finally]. eexists. split; [reflexivity|]. observe. rewrite D7, D3. reflexivity.
  - destruct (@overlong_frame_read self 0x82 8%nat _ w Hs eq_refl eq_refl
                (or_intror (conj eq_refl Hl)) eq_refl Hm)
      as [d [F [D1 [D2 [D3 [D4 [_ [_ [D7 _]]]]]]]]].
    cbn [Nat.eqb] in F. rewrite F, dispatch_rearm.
    rewrite (@handle_binary d w D2 D1 D3); [|congruence].
    cbn [finally]. eexists. split; [reflexivity|]. observe. rewrite D7, D3. reflexivity.
Qed.

Lemma overlong_length_accepted_witness :
  (exists s,
     feed [0x82; 126; 0; 1; 7] conn0 = Ok tt s
     /\ hooks s = hooks conn0 ++ [Handle (Bytes [7])])
  /\ exists s,
       feed [0x82; 127; 0; 0; 0; 0; 0; 0; 0; 1; 7] conn0 = Ok tt s
       /\ hooks s = hooks conn0 ++ [Handle (Bytes [7])].
Proof.
  destruct (@overlong_length_accepted conn0 [7] eq_refl eq_refl eq_refl) as [A B].
  split; [apply A|apply B]; reflexivity.
Defined.

(** ** A frame in two parts *)

Lemma feed_to_payload : forall self key n s,
  hasmask s = match key with Some _ => true | None => false end ->
  (forall k, key = Some k -> List.length k = 4%nat) ->
  length s = n -> 0 < n -> index s = 0 ->
  maxpayload s = maxpayload self -> hooks s = hooks self -> sendq s = sendq self ->
  exists s',
    bind (after_length s)
         (fun _ s' => feed (match key with Some k => k | None => [] end) s')
    = Ok tt s'
    /\ awaiting_payload self key n s'.
Proof.
  intros self key n s Hh Hk Hl Hn Hi Hm Ho Hq. unfold after_length. rewrite Hh.
  destruct key as [k|].
  - specialize (Hk k eq_refl). cbn [bind]. rewrite feed_mask; try reflexivity; [|exact Hk].
    cbv zeta. fields. rewrite Hl.
    replace (n <=? 0) with false by (symmetry; apply Z.leb_gt; lia).
    eexists. split; [reflexivity|]. unfold awaiting_payload. fields. cbn [keyed]. fields.
    repeat split; assumption.
  - rewrite Hl. replace (n <=? 0) with false by (symmetry; apply Z.leb_gt; lia).
    cbn [bind feed for_each].
    eexists. split; [reflexivity|]. unfold awaiting_payload. fields. cbn [keyed].
    repeat split; assumption.
Qed.

Lemma header_read : forall self b1 key n hdr,
  state self = HEADERB1 ->
  Z.land b1 0x70 = 0 ->
  (Z.land b1 0x0F =? PING) = false ->
  (forall k, key = Some k -> List.length k = 4%nat) ->
  0 < n ->
  header_bytes b1 key n = Some hdr ->
  exists s, feed hdr self = Ok tt s /\ awaiting_payload self key n s.
Proof.
  intros self b1 key n hdr Hs Hr Hop Hk Hn Hh.
  unfold header_bytes in Hh.
  destruct (length_field n) as [[|l7 ext]|] eqn:LF; try discriminate.
  assert (Hn0 : 0 <= n) by lia.
  assert (E : hdr = b1 :: (match key with Some _ => 0x80 + l7 | None => l7 end)
                       :: ext ++ match key with Some k => k | None => [] end).
  { destruct key; inversion Hh; [reflexivity|rewrite app_nil_r; reflexivity]. }
  subst hdr. clear Hh.
  assert (B : 0 <= l7 < 128).
  { destruct (length_field_cases Hn0 LF) as [[A [E1 _]]|[[A [E1 _]]|[A [E1 _]]]]; lia. }
  destruct (@land_byte2 l7 B) as [A1 [A2 [A3 A4]]].
  rewrite feed_cons, (@step_header1 b1 self Hs Hr). cbn [bind].
  rewrite feed_cons, step_header2; [|reflexivity|].
  2:{ change (opcode _) with (Z.land b1 0x0F). rewrite Hop. reflexivity. }
  cbv zeta.
  replace (Z.land (match key with Some _ => 0x80 + l7 | None => l7 end) 0x7F) with l7
    by (destruct key; symmetry; assumption).
  assert (M : (Z.land (match key with Some _ => 0x80 + l7 | None => l7 end) 0x80 =? 128)
              = match key with Some _ => true | None => false end).
  { destruct key; [rewrite A3|rewrite A1]; reflexivity. }
  rewrite M.
  destruct (length_field_cases Hn0 LF) as [[Hl [E1 E2]]|[[Hl [E1 E2]]|[Hl [E1 E2]]]];
    subst l7 ext.
  - replace (n <=? 125) with true by (symmetry; apply Z.leb_le; lia).
    cbn [app]. apply feed_to_payload; try reflexivity; assumption.
  - change (126 <=? 125) with false. change (126 =? 126) with true. cbv iota.
    cbn [bind]. rewrite feed_app, feed_short; [|reflexivity|reflexivity|apply be_bytes_length].
    rewrite be_int_be_bytes by lia.
    change (256 ^ Z.of_nat 2) with 65536. rewrite Z.mod_small by lia.
    apply feed_to_payload; try reflexivity; assumption.
  - change (127 <=? 125) with false. change (127 =? 126) with false.
    change (127 =? 127) with true. cbv iota.
    cbn [bind]. rewrite feed_app, feed_long; [|reflexivity|reflexivity|apply be_bytes_length].
    rewrite be_int_be_bytes by lia.
    change (256 ^ Z.of_nat 8) with (2 ^ 64). rewrite Z.mod_small by lia.
    apply feed_to_payload; try reflexivity; assumption.
Qed.

Lemma wire_frame_header : forall b1 key w bytes,
  wire_frame b1 key w = Some bytes ->
  exists hdr, header_bytes b1 key (len w) = Some hdr /\ bytes = hdr ++ w.
Proof.
  intros b1 key w bytes W. unfold wire_frame in W. unfold header_bytes.
  destruct (length_field (len w)) as [[|l7 ext]|]; try discriminate W.
  destruct key as [k|]; apply some_eq in W; subst bytes; eexists; split; try reflexivity.
  - cbn [app]. rewrite <- !app_assoc. reflexivity.
Qed.

Lemma stored_unmasked : forall key w, stored key 0 w = unmasked key w.
Proof. intros [k|] w; reflexivity. Qed.

Lemma header_bytes_nonempty : forall b1 key n hdr,
  header_bytes b1 key n = Some hdr -> hdr <> [].
Proof.
  intros b1 key n hdr H. unfold header_bytes in H.
  destruct (length_field n) as [[|l7 ext]|]; try discriminate H.
  destruct key; apply some_eq in H; subst hdr; discriminate.
Qed.

(** X26. The decoder hands a binary frame to [handle] only with its last
    byte. Fed the header and any part of the payload short of its end,
    it returns with that part kept unmasked in the payload buffer, no
    hook called and nothing queued; fed the rest, it hands over the
    whole payload, as if the frame had come in one piece. This is said
    of the decoder, not of reads: in the server the read that brings the
    first part raises after its pass and the client is evicted, with
    [handle_close] as the only hook called, so the rest is never fed. *)
Theorem frame_held_until_last_byte : forall self key w1 w2,
  state self = HEADERB1 ->
  frag_start self = false ->
  (forall k, key = Some k -> List.length k = 4%nat) ->
  w2 <> [] ->
  len (w1 ++ w2) < maxpayload self ->
  len (w1 ++ w2) < 2 ^ 64 ->
  exists hdr s1 s2,
    wire_frame 0x82 key (w1 ++ w2) = Some (hdr ++ w1 ++ w2)
    /\ feed (hdr ++ w1) self = Ok tt s1
    /\ data s1 = Bytes (unmasked key w1)
    /\ hooks s1 = hooks self /\ sendq s1 = sendq self
    /\ feed w2 s1 = Ok tt s2
    /\ hooks s2 = hooks self ++ [Handle (Bytes (unmasked key (w1 ++ w2)))]
    /\ sendq s2 = sendq self
    /\ (forall http,
          handshaked self = true ->
          exists c',
            WebSocketServer.readable http (Recv (hdr ++ w1)) (WebSocketServer.Live self)
            = WebSocketServer.Evicted c'
            /\ hooks c' = hooks self ++ [HandleClose]).
Proof.
  intros self key w1 w2 Hs Hf Hk H2 Hm H64.
  pose proof (len_nonneg w1) as L1. pose proof (len_nonneg w2) as L2.
  assert (L : len w2 <> 0) by (intro E; apply H2, len_zero_nil; lia).
  rewrite len_app in Hm, H64.
  destruct (@read_frame self 0x82 key (w1 ++ w2) Hs eq_refl Hk eq_refl)
    as [bytes [W F]]; try (rewrite len_app; assumption).
  destruct (wire_frame_header _ _ _ W) as [hdr [H E]]. subst bytes.
  destruct (@header_read self 0x82 key (len (w1 ++ w2)) hdr Hs eq_refl eq_refl Hk)
    as [s0 [F0 [P1 [P2 [P3 [P4 [P5 [P6 [P7 P8]]]]]]]]];
    [rewrite len_app; lia|exact H|].
  assert (F1 : feed (hdr ++ w1) self
               = Ok tt (set_index (len w1) (set_data (Bytes (unmasked key w1)) s0))).
  { rewrite feed_app, F0. cbn [bind].
    rewrite (@feed_payload_partial key w1 s0 []); try assumption; try lia.
    - rewrite P4, stored_unmasked. reflexivity.
    - rewrite P4, P5, len_app. lia.
    - change (len (@nil Z)) with 0. rewrite P6. lia. }
  rewrite (@handle_binary _ (unmasked key (w1 ++ w2))) in F;
    try reflexivity; try assumption.
  cbn [finally] in F.
  rewrite app_assoc, feed_app, F1 in F. cbn [bind] in F.
  exists hdr. eexists. eexists. split; [exact W|]. split; [exact F1|].
  split; [reflexivity|]. split; [exact P7|]. split; [exact P8|].
  split; [exact F|]. split; [observe; reflexivity|]. split; [observe; reflexivity|].
  intros http Hh.
  assert (N : hdr ++ w1 <> []).
  { pose proof (header_bytes_nonempty _ _ _ H) as N. destruct hdr; [congruence|discriminate]. }
  pose proof (feed_decoded (hdr ++ w1) self) as D. rewrite F1 in D. cbn [state_of] in D.
  destruct D as [_ [D2 _]].
  unfold WebSocketServer.readable, _handle_data. rewrite Hh. cbn [negb].
  rewrite (is_nil_false N), first_pass_is_feed, F1. cbn [bind].
  destruct (@second_pass_stops (hdr ++ w1)
              (set_index (len w1) (set_data (Bytes (unmasked key w1)) s0)) N)
    as [s' [E' E'']]. subst s'. rewrite E'.
  unfold WebSocketServer._handle_close, client_close, handle_close. fields.
  fields. rewrite D2, Hh. eexists. split; [reflexivity|]. fields. rewrite P7. reflexivity.
Qed.

Lemma frame_held_until_last_byte_witness :
  exists hdr s1 s2,
    wire_frame 0x82 (Some [1; 2; 3; 4]) ([0; 0] ++ [0]) = Some (hdr ++ [0; 0] ++ [0])
    /\ feed (hdr ++ [0; 0]) conn0 = Ok tt s1
    /\ data s1 = Bytes [1; 2]
    /\ hooks s1 = hooks conn0 /\ sendq s1 = sendq conn0
    /\ feed [0] s1 = Ok tt s2
    /\ hooks s2 = hooks conn0 ++ [Handle (Bytes [1; 2; 3])]
    /\ sendq s2 = sendq conn0
    /\ (forall http,
          handshaked conn0 = true ->
          exists c',
            WebSocketServer.readable http (Recv (hdr ++ [0; 0])) (WebSocketServer.Live conn0)
            = WebSocketServer.Evicted c'
            /\ hooks c' = hooks conn0 ++ [HandleClose]).
Proof.
  apply (@frame_held_until_last_byte conn0 (Some [1; 2; 3; 4]) [0; 0] [0]);
    try reflexivity; try discriminate.
  intros k E. inversion E. reflexivity.
Defined.
